(** * d1-rest migration scripts: statement splitter, structural validators,
      SQL generation and exit codes

    A shallow embedding of the Python scripts under [scripts/]:
    - the quote-aware statement splitter that is inlined in
      [validate_migration_improved.py] and [test_d1_inserts.py];
    - the structural validators of [validate_migration_improved.py],
      [validate_fixed_sql.py] and [validate_migration.py];
    - [escape_sql_string] / [generate_insert_statement] / [validate_row] /
      [migrate] of [migrate_videos_to_d1.py];
    - the batch loop of [execute_migration_batches.py];
    - the validation and insertion loops of [migrate_videos_rest_api.py].

    Python [str] values are sequences of Unicode code points; they are
    modelled as lists of code points ([N]).  String literals of the source
    are written [lit "..."]. *)

From Stdlib Require Import Ascii String DecimalString.
From Stdlib Require Import List Bool Arith NArith ZArith Lia.
Import ListNotations.

Set Implicit Arguments.

(* ------------------------------------------------------------------ *)
(** ** Python strings *)

Module Py.

Definition char := N.
Definition str := list char.

(** A literal of the source text (all literals of the scripts that matter
    here are ASCII). *)
Definition lit (s : string) : str :=
  List.map N_of_ascii (list_ascii_of_string s).

Definition quote : char := 39%N.      (* ' *)
Definition backslash : char := 92%N.  (* \ *)
Definition semicolon : char := 59%N.  (* ; *)
Definition lparen : char := 40%N.     (* ( *)
Definition rparen : char := 41%N.     (* ) *)
Definition newline : char := 10%N.
Definition carriage_return : char := 13%N.

Definition between (lo hi c : N) : bool := ((lo <=? c) && (c <=? hi))%N.

(** [str.isspace] on one code point: the characters [str.strip()] removes. *)
Definition isspace (c : char) : bool :=
  between 9 13 c || between 28 32 c || (c =? 133)%N || (c =? 160)%N
  || (c =? 5760)%N || between 8192 8202 c || (c =? 8232)%N || (c =? 8233)%N
  || (c =? 8239)%N || (c =? 8287)%N || (c =? 12288)%N.

Fixpoint lstrip (s : str) : str :=
  match s with
  | [] => []
  | c :: s' => if isspace c then lstrip s' else s
  end.

Definition rstrip (s : str) : str := rev (lstrip (rev s)).

(** [s.strip()] *)
Definition strip (s : str) : str := rstrip (lstrip s).

(** Truthiness of a string or a list: [if s:] *)
Definition truthy (A : Type) (s : list A) : bool :=
  match s with [] => false | _ :: _ => true end.

Fixpoint eqb (a b : str) : bool :=
  match a, b with
  | [], [] => true
  | x :: a', y :: b' => (x =? y)%N && eqb a' b'
  | _, _ => false
  end.

(** [s.startswith(p)] *)
Fixpoint startswith (s p : str) : bool :=
  match p, s with
  | [], _ => true
  | _ :: _, [] => false
  | x :: p', y :: s' => (x =? y)%N && startswith s' p'
  end.

(** [s.endswith(p)] *)
Definition endswith (s p : str) : bool := startswith (rev s) (rev p).

(** [sub in s] *)
Fixpoint contains (sub s : str) : bool :=
  startswith s sub ||
  match s with
  | [] => false
  | _ :: s' => contains sub s'
  end.

(** [s.count(sub)] for a non-empty [sub]: non-overlapping occurrences, found
    left to right; [skip] characters of the last match are still to be
    passed over. *)
Fixpoint count_from (sub : str) (skip : nat) (s : str) : nat :=
  match s with
  | [] => 0
  | _ :: s' =>
      match skip with
      | S k => count_from sub k s'
      | O => if startswith s sub
             then S (count_from sub (length sub - 1) s')
             else count_from sub 0 s'
      end
  end.

Definition count (s sub : str) : nat := count_from sub 0 s.

(** [s.count(c)] for a single character. *)
Definition count_char (c : char) (s : str) : nat :=
  length (filter (N.eqb c) s).

(** [s.replace(old, new)] where [old] is a single character. *)
Definition replace_char (old : char) (new : str) (s : str) : str :=
  flat_map (fun c => if (c =? old)%N then new else [c]) s.

(** [sep.join(parts)] *)
Fixpoint join (sep : str) (parts : list str) : str :=
  match parts with
  | [] => []
  | [p] => p
  | p :: rest => p ++ sep ++ join sep rest
  end.

(** [s.split(sep)] for a non-empty [sep]; [cur] is the piece being read. *)
Fixpoint split_from (sep : str) (skip : nat) (cur : str) (s : str) : list str :=
  match s with
  | [] => [cur]
  | c :: s' =>
      match skip with
      | S k => split_from sep k cur s'
      | O => if startswith s sep
             then cur :: split_from sep (length sep - 1) [] s'
             else split_from sep 0 (cur ++ [c]) s'
      end
  end.

Definition split (s sep : str) : list str := split_from sep 0 [] s.

(** [range(0, stop, step)] for a positive [step]. *)
Definition range_step (stop step : nat) : list nat :=
  List.map (fun k => k * step) (seq 0 ((stop + step - 1) / step)).

(** [range(0, stop, step)] for any integer [step]: a zero step raises
    [ValueError] ([None]), a negative step gives the empty range (here
    [0 <= stop]). *)
Definition range (stop : nat) (step : Z) : option (list nat) :=
  if (step =? 0)%Z then None
  else if (step <? 0)%Z then Some []
  else Some (range_step stop (Z.to_nat step)).

(** [xs[i:j]] for [0 <= i <= j]. *)
Definition slice (A : Type) (xs : list A) (i j : nat) : list A :=
  firstn (j - i) (skipn i xs).

(** [str(n)] for a natural number, [str(z)] for an integer. *)
Definition str_of_nat (n : nat) : str :=
  lit (NilEmpty.string_of_uint (Nat.to_uint n)).

Definition str_of_Z (z : Z) : str :=
  lit (NilEmpty.string_of_int (Z.to_int z)).

End Py.

Import Py.

(* ------------------------------------------------------------------ *)
(** ** The statement splitter

    The same loop is written out in [validate_sql_file]
    ([validate_migration_improved.py], lines 16-37) and in
    [analyze_insert_statements] / [test_inserts_with_sqlite]
    ([test_d1_inserts.py]).  The copies differ in one place only: the
    latter guard the [append] with [if current_statement.strip():]. *)

Module Splitter.

Record scanner := mkScanner {
  statements : list str;
  current_statement : str;
  in_string : bool;
  escape_next : bool
}.

Definition init : scanner := mkScanner [] [] false false.

(** The [statements.append(current_statement.strip())] of the loop;
    [guarded] is [true] for the copies in [test_d1_inserts.py]. *)
Definition append_statement (guarded : bool) (stmts : list str) (cur : str)
  : list str :=
  if guarded && negb (truthy (strip cur)) then stmts
  else stmts ++ [strip cur].

(** One iteration of [for char in content:]. *)
Definition scan_char (guarded : bool) (st : scanner) (char : char) : scanner :=
  let cur := current_statement st ++ [char] in
  if escape_next st then
    (* escape_next = False; continue *)
    mkScanner (statements st) cur (in_string st) false
  else if (char =? backslash)%N then
    (* escape_next = True; continue *)
    mkScanner (statements st) cur (in_string st) true
  else
    let in_string' :=
      if (char =? quote)%N && negb (escape_next st)
      then negb (in_string st) else in_string st in
    if (char =? semicolon)%N && negb in_string' then
      mkScanner (append_statement guarded (statements st) cur) []
                in_string' (escape_next st)
    else
      mkScanner (statements st) cur in_string' (escape_next st).

Definition scan_from (guarded : bool) (st : scanner) (content : str) : scanner :=
  fold_left (scan_char guarded) content st.

Definition scan (guarded : bool) (content : str) : scanner :=
  scan_from guarded init content.

(** The list [statements] once the loop has run; whatever is left in
    [current_statement] is not looked at again. *)
Definition split (guarded : bool) (content : str) : list str :=
  statements (scan guarded content).

End Splitter.

(* ------------------------------------------------------------------ *)
(** ** Files and exceptions

    [open(path, 'r')] either raises or gives the decoded text of the file
    (universal newlines already applied). *)

Module IO.

Inductive exn :=
| FileNotFoundError
| PermissionError
| UnicodeDecodeError.

Inductive file :=
| Absent                 (* open raises FileNotFoundError *)
| Denied                 (* open raises PermissionError *)
| Undecodable            (* open succeeds, reading raises UnicodeDecodeError *)
| Text (content : str).

Definition filesystem := str -> file.

(** What a call does: return a value or let an exception escape. *)
Inductive outcome (A : Type) :=
| Return (a : A)
| Raise (e : exn).

Arguments Return {A} a.
Arguments Raise {A} e.

(** [with open(path, 'r') as f: content = f.read()] *)
Definition read_text (fs : filesystem) (path : str) : outcome str :=
  match fs path with
  | Absent => Raise FileNotFoundError
  | Denied => Raise PermissionError
  | Undecodable => Raise UnicodeDecodeError
  | Text content => Return content
  end.

(** The lines [for line in f] yields: each keeps its terminating newline;
    a last line without one is yielded as it is. *)
Fixpoint lines_from (cur : str) (content : str) : list str :=
  match content with
  | [] => if truthy cur then [cur] else []
  | c :: rest =>
      if (c =? newline)%N then (cur ++ [c]) :: lines_from [] rest
      else lines_from (cur ++ [c]) rest
  end.

Definition lines (content : str) : list str := lines_from [] content.

(** [enumerate(xs, 1)] *)
Definition enumerate1 (A : Type) (xs : list A) : list (nat * A) :=
  combine (seq 1 (length xs)) xs.

(** Universal newlines, which [open(path, 'r')] applies to what it reads:
    a carriage return followed by a line feed, and a carriage return on its
    own, both become one line feed. *)
Fixpoint universal_newlines (s : str) : str :=
  match s with
  | [] => []
  | c :: rest =>
      if (c =? carriage_return)%N then
        match rest with
        | d :: _ => if (d =? newline)%N then universal_newlines rest
                    else newline :: universal_newlines rest
        | [] => [newline]
        end
      else c :: universal_newlines rest
  end.

(** The file a script leaves behind when it has written [text] to a file
    opened in text mode, as [open(path, 'r')] finds it: the characters
    written, read with universal newlines.  (On a POSIX system every
    character is written as it is; the text is taken to be encodable.) *)
Definition stored (text : str) : file := Text (universal_newlines text).

End IO.

Import IO.

(* ------------------------------------------------------------------ *)
(** ** validate_migration_improved.py *)

Module ValidateMigrationImproved.

(** The two locals the statement loop updates. *)
Record report := mkReport {
  statement_count : nat;
  errors : list str
}.

Definition add_error (r : report) (msg : str) : report :=
  mkReport (statement_count r) (errors r ++ [msg]).

(** f"Statement {stmt_num}: ..." *)
Definition statement_msg (stmt_num : nat) (text : str) : str :=
  lit "Statement " ++ str_of_nat stmt_num ++ lit ": " ++ text.

Definition msg_not_insert (n : nat) : str :=
  statement_msg n (lit "Not an INSERT statement").
Definition msg_invalid_syntax (n : nat) : str :=
  statement_msg n (lit "Invalid INSERT syntax").
Definition msg_missing_values (n : nat) : str :=
  statement_msg n (lit "Missing VALUES clause").
Definition msg_unbalanced_parens (n open_parens close_parens : nat) : str :=
  statement_msg n (lit "Unbalanced parentheses (" ++ str_of_nat open_parens
                   ++ lit " open, " ++ str_of_nat close_parens ++ lit " close)").
Definition msg_unbalanced_quotes (n real_quotes : nat) : str :=
  statement_msg n (lit "Unbalanced quotes (" ++ str_of_nat real_quotes
                   ++ lit " quotes)").
Definition msg_empty_fields (n : nat) : str :=
  statement_msg n (lit "Contains multiple empty fields").
Definition msg_values_once (n : nat) : str :=
  statement_msg n (lit "Should have exactly one VALUES clause").

(** Lines 67-77: the positions of the quotes that no backslash precedes. *)
Record quote_scan := mkQuoteScan {
  quote_positions : list nat;
  q_escape_next : bool
}.

Definition quote_step (st : quote_scan) (ic : nat * char) : quote_scan :=
  let (i, char) := ic in
  if q_escape_next st then mkQuoteScan (quote_positions st) false
  else if (char =? backslash)%N then mkQuoteScan (quote_positions st) true
  else if (char =? quote)%N then
    mkQuoteScan (quote_positions st ++ [i]) (q_escape_next st)
  else st.

(** [enumerate(statement)] *)
Definition enumerate0 (s : str) : list (nat * char) :=
  combine (seq 0 (length s)) s.

Definition real_quotes (statement : str) : nat :=
  length (quote_positions
            (fold_left quote_step (enumerate0 statement)
                       (mkQuoteScan [] false))).

(** The body of [for stmt_num, statement in enumerate(statements, 1)]
    (lines 41-91); each [continue] ends the body with the report as it is. *)
Definition validate_statement (r : report) (item : nat * str) : report :=
  let (stmt_num, statement) := item in
  if negb (truthy (strip statement)) then r
  else
    let r := mkReport (statement_count r + 1) (errors r) in
    if negb (startswith (strip statement) (lit "INSERT INTO videos")) then
      add_error r (msg_not_insert stmt_num)
    else
      let r :=
        if negb (startswith (strip statement) (lit "INSERT INTO videos ("))
        then add_error r (msg_invalid_syntax stmt_num) else r in
      let r :=
        if negb (contains (lit "VALUES (") statement)
        then add_error r (msg_missing_values stmt_num) else r in
      let open_parens := count_char lparen statement in
      let close_parens := count_char rparen statement in
      let r :=
        if negb (open_parens =? close_parens)
        then add_error r (msg_unbalanced_parens stmt_num open_parens close_parens)
        else r in
      let real_quotes := real_quotes statement in
      let r :=
        if negb (real_quotes mod 2 =? 0)
        then add_error r (msg_unbalanced_quotes stmt_num real_quotes) else r in
      let r :=
        if contains (lit "'', '', '', ''") statement
        then add_error r (msg_empty_fields stmt_num) else r in
      let r :=
        if negb (count statement (lit "VALUES") =? 1)
        then add_error r (msg_values_once stmt_num) else r in
      r.

(** The statement loop over an already split text. *)
Definition validate_statements (stmts : list str) : report :=
  fold_left validate_statement (enumerate1 stmts) (mkReport 0 []).

(** [validate_sql_file(filepath)]: nothing catches what [open] or [read]
    raise. *)
Definition validate_sql_file (fs : filesystem) (filepath : str)
  : outcome (nat * list str) :=
  match read_text fs filepath with
  | Raise e => Raise e
  | Return content =>
      let r := validate_statements (Splitter.split false content) in
      Return (statement_count r, errors r)
  end.

End ValidateMigrationImproved.

(* ------------------------------------------------------------------ *)
(** ** validate_fixed_sql.py and validate_migration.py: line validators *)

Module ValidateFixedSql.

Record report := mkReport {
  line_count : nat;
  errors : list str
}.

Definition add_error (r : report) (msg : str) : report :=
  mkReport (line_count r) (errors r ++ [msg]).

Definition line_msg (line_num : nat) (text : str) : str :=
  lit "Line " ++ str_of_nat line_num ++ lit ": " ++ text.

(** The body of [for line_num, line in enumerate(f, 1)] (lines 17-34). *)
Definition validate_line (r : report) (item : nat * str) : report :=
  let (line_num, line) := item in
  let r := mkReport (line_count r + 1) (errors r) in
  let line := strip line in
  if negb (truthy line) then r
  else if negb (startswith line (lit "INSERT INTO videos")) then
    add_error r (line_msg line_num (lit "Not an INSERT statement"))
  else
    let r :=
      if negb (endswith line (lit ";"))
      then add_error r (line_msg line_num (lit "Missing semicolon")) else r in
    let r :=
      if negb (count_char quote line mod 2 =? 0)
      then add_error r (line_msg line_num (lit "Unbalanced quotes")) else r in
    r.

(** [validate_sql_file(file_path)]: the [try] has one handler,
    [except FileNotFoundError]; [open] raises before any line is read, so
    the handler runs with the counters as initialised. *)
Definition validate_sql_file (fs : filesystem) (file_path : str)
  : outcome (nat * list str) :=
  match read_text fs file_path with
  | Return content =>
      let r := fold_left validate_line (enumerate1 (lines content))
                         (mkReport 0 []) in
      Return (line_count r, errors r)
  | Raise FileNotFoundError =>
      Return (0, [lit "File not found: " ++ file_path])
  | Raise e => Raise e
  end.

End ValidateFixedSql.

Module ValidateMigration.

Import ValidateFixedSql.

(** The body of the line loop of [validate_migration.py] (lines 10-33). *)
Definition validate_line (r : report) (item : nat * str) : report :=
  let (line_num, line) := item in
  let r := mkReport (line_count r + 1) (errors r) in
  let line := strip line in
  if negb (truthy line) then r
  else if negb (startswith line (lit "INSERT INTO videos")) then
    add_error r (line_msg line_num (lit "Not an INSERT statement"))
  else
    let r :=
      if negb (endswith line (lit ";"))
      then add_error r (line_msg line_num (lit "Missing semicolon")) else r in
    let r :=
      if contains (lit "'', ''") line
      then add_error r (line_msg line_num (lit "Contains empty critical fields"))
      else r in
    let quote_count := count_char quote line in
    let r :=
      if negb (quote_count mod 2 =? 0)
      then add_error r (line_msg line_num (lit "Unbalanced quotes")) else r in
    r.

Definition validate_sql_file (fs : filesystem) (filepath : str)
  : outcome (nat * list str) :=
  match read_text fs filepath with
  | Raise e => Raise e
  | Return content =>
      let r := fold_left validate_line (enumerate1 (lines content))
                         (mkReport 0 []) in
      Return (line_count r, errors r)
  end.

End ValidateMigration.

(* ------------------------------------------------------------------ *)
(** ** Python values and rows *)

Module PyValue.

Section Values.

(** Python floats and [bytes] are left abstract: the scripts only take
    [str(v)] and the truth value of such a value. *)
Variable float : Type.
Variable float_str : float -> str.        (* str(f) *)
Variable float_truthy : float -> bool.    (* bool(f) *)
Variable bytes_str : list N -> str.       (* str(b) *)

(** What [sqlite3] hands back for a column, and the [bool] that
    [transform_row] of the REST script makes of [is_indexed]. *)
Inductive value :=
| VNone
| VBool (b : bool)
| VInt (z : Z)
| VFloat (f : float)
| VStr (s : str)
| VBytes (b : list N).

(** A [dict] with string keys, in insertion order. *)
Definition dict := list (str * value).

(** [row.get(key)], [row.get(key, default)]; [get_opt] is [row[key]], with
    [None] for [KeyError]. *)
Fixpoint get_opt (row : dict) (key : str) : option value :=
  match row with
  | [] => None
  | (k, v) :: rest => if Py.eqb k key then Some v else get_opt rest key
  end.

Definition get_default (row : dict) (key : str) (default : value) : value :=
  match get_opt row key with Some v => v | None => default end.

Definition get (row : dict) (key : str) : value := get_default row key VNone.

Definition keys (row : dict) : list str := List.map fst row.
Definition values (row : dict) : list value := List.map snd row.

(** [bool(v)] *)
Definition value_truthy (v : value) : bool :=
  match v with
  | VNone => false
  | VBool b => b
  | VInt z => negb (z =? 0)%Z
  | VFloat f => float_truthy f
  | VStr s => truthy s
  | VBytes b => truthy b
  end.

(** [str(v)] *)
Definition value_str (v : value) : str :=
  match v with
  | VNone => lit "None"
  | VBool true => lit "True"
  | VBool false => lit "False"
  | VInt z => str_of_Z z
  | VFloat f => float_str f
  | VStr s => s
  | VBytes b => bytes_str b
  end.

End Values.

Arguments VNone {float}.
Arguments VBool {float} b.
Arguments VInt {float} z.
Arguments VFloat {float} f.
Arguments VStr {float} s.
Arguments VBytes {float} b.

End PyValue.

Import PyValue.

(* ------------------------------------------------------------------ *)
(** ** migrate_videos_to_d1.py *)

Module MigrateVideosToD1.

Section Script.

Variable float : Type.
Variable float_str : float -> str.
Variable float_truthy : float -> bool.
Variable bytes_str : list N -> str.

Local Abbreviation value := (PyValue.value float).
Local Abbreviation dict := (PyValue.dict float).
Local Abbreviation value_truthy := (PyValue.value_truthy float_truthy).
Local Abbreviation value_str := (PyValue.value_str float_str bytes_str).

(** [isinstance(v, (int, type(None)))]; a [bool] is an [int]. *)
Definition is_int_or_none (v : value) : bool :=
  match v with
  | VNone | VBool _ | VInt _ => true
  | _ => false
  end.

Definition numeric_fields : list str :=
  [lit "duration_seconds"; lit "view_count"; lit "like_count";
   lit "comment_count"].

(** The [for field in numeric_fields] loop of [validate_row]: the first
    field that fails decides. *)
Fixpoint check_numeric (row : dict) (fields : list str) : bool * str :=
  match fields with
  | [] => (true, [])
  | field :: rest =>
      if value_truthy (get row field) && negb (is_int_or_none (get row field))
      then (false, lit "Invalid type for " ++ field)
      else check_numeric row rest
  end.

Definition validate_row (row : dict) : bool * str :=
  if negb (value_truthy (get row (lit "video_id")))
  then (false, lit "Missing video_id")
  else check_numeric row numeric_fields.

(** [transform_row]; [None] stands for the [KeyError] of
    [row['video_id']]. *)
Definition transform_row (row : dict) : option dict :=
  match get_opt row (lit "video_id") with
  | None => None
  | Some video_id =>
      Some
        [(lit "video_id", video_id);
         (lit "cleaned_title", get_default row (lit "cleaned_title") (VStr []));
         (lit "cleaned_description",
           get_default row (lit "cleaned_description") (VStr []));
         (lit "channel_name", get_default row (lit "channel_name") (VStr []));
         (lit "channel_id", get_default row (lit "channel_id") (VStr []));
         (lit "published_at", get row (lit "published_at"));
         (lit "duration_seconds", get row (lit "duration_seconds"));
         (lit "view_count", get row (lit "view_count"));
         (lit "like_count", get row (lit "like_count"));
         (lit "comment_count", get row (lit "comment_count"));
         (lit "is_indexed", get_default row (lit "is_indexed") (VInt 0));
         (lit "created_at", get row (lit "created_at"))]
  end.

Definition escape_sql_string (v : value) : str :=
  match v with
  | VNone => lit "NULL"
  | VBool _ | VInt _ | VFloat _ => value_str v
  | _ => [quote] ++ replace_char quote [quote; quote] (value_str v) ++ [quote]
  end.

Definition generate_insert_statement (row : dict) : str :=
  let columns := join (lit ", ") (keys row) in
  let values := join (lit ", ") (List.map escape_sql_string (values row)) in
  lit "INSERT INTO videos (" ++ columns ++ lit ") VALUES (" ++ values
    ++ lit ");".

(** The locals of [migrate], [self.errors] and the output file ([None]
    until the first batch is written). *)
Record migration := mkMigration {
  successful : nat;
  failed : nat;
  statements : list str;
  errors : list (value * str);
  output_file : option str
}.

(** [_write_batch]: mode ['a'] when the file exists, ['w'] otherwise. *)
Definition write_batch (out : option str) (stmts : list str) : option str :=
  let text := join (lit "
") stmts ++ [newline] in
  match out with
  | Some old => Some (old ++ text)
  | None => Some text
  end.

(** The body of [for row in cursor]; [None] when [transform_row] raises. *)
Definition migrate_row (batch_size : nat) (m : migration) (row_dict : dict)
  : option migration :=
  let (is_valid, error_msg) := validate_row row_dict in
  if negb is_valid then
    Some (mkMigration (successful m) (failed m + 1) (statements m)
            (errors m ++ [(get_default row_dict (lit "video_id")
                                       (VStr (lit "UNKNOWN")), error_msg)])
            (output_file m))
  else
    match transform_row row_dict with
    | None => None
    | Some transformed =>
        let sql := generate_insert_statement transformed in
        let stmts := statements m ++ [sql] in
        if batch_size <=? length stmts then
          Some (mkMigration (successful m + 1) (failed m) []
                  (errors m) (write_batch (output_file m) stmts))
        else
          Some (mkMigration (successful m + 1) (failed m) stmts
                  (errors m) (output_file m))
    end.

Fixpoint migrate_rows (batch_size : nat) (m : migration) (rows : list dict)
  : option migration :=
  match rows with
  | [] => Some m
  | row :: rest =>
      match migrate_row batch_size m row with
      | None => None
      | Some m' => migrate_rows batch_size m' rest
      end
  end.

(** [migrate()] over the rows the cursor yields. *)
Definition migrate (batch_size : nat) (out : option str) (rows : list dict)
  : option migration :=
  match migrate_rows batch_size (mkMigration 0 0 [] [] out) rows with
  | None => None
  | Some m =>
      if truthy (statements m)
      then Some (mkMigration (successful m) (failed m) (statements m)
                   (errors m) (write_batch (output_file m) (statements m)))
      else Some m
  end.

(** The exit status of the script: [sys.exit(1 if failed > 0 else 0)]; an
    exception that reaches the top level ends the process with status 1. *)
Definition exit_code (out : option str) (rows : list dict) : nat :=
  match migrate 100 out rows with
  | None => 1
  | Some m => if 0 <? failed m then 1 else 0
  end.

End Script.

End MigrateVideosToD1.

(* ------------------------------------------------------------------ *)
(** ** execute_migration_batches.py *)

Module ExecuteMigrationBatches.

Section Sink.

(** The command line tool is an opaque sink: running it on a batch file
    changes the outside world and either completes with a return code or
    fails to run at all. *)
Variable World : Type.

Inductive run_result :=
| Completed (returncode : Z)
| Crashed.

Variable wrangler : str -> nat -> World -> run_result * World.

(** [execute_batch]: [True] exactly when the tool returned 0; every
    exception is caught and gives [False]. *)
Definition execute_batch (batch_sql : str) (batch_num total_batches : nat)
  (w : World) : bool * World :=
  match wrangler batch_sql batch_num w with
  | (Completed rc, w') => ((rc =? 0)%Z, w')
  | (Crashed, w') => (false, w')
  end.

Definition INSERT : str := lit "INSERT OR IGNORE INTO videos".

(** Lines 45-48 of [main]. *)
Definition statements_of (content : str) : list str :=
  List.map (fun stmt => INSERT ++ stmt)
    (List.map strip
       (filter (fun stmt => truthy (strip stmt)) (Py.split content INSERT))).

Definition batch_size : nat := 50.

(** The [for i in range(0, len(statements), batch_size)] loop; [stopped]
    records the [break]. *)
Record progress := mkProgress {
  success_count : nat;
  stopped : bool;
  world : World
}.

Definition run_batch (statements : list str) (total_batches : nat)
  (p : progress) (i : nat) : progress :=
  if stopped p then p
  else
    let batch_num := i / batch_size + 1 in
    let batch := slice statements i (i + batch_size) in
    let batch_sql := join [newline] batch in
    let (ok, w') := execute_batch batch_sql batch_num total_batches (world p) in
    if ok then mkProgress (success_count p + 1) false w'
    else mkProgress (success_count p) true w'.

(** [main()] from the statement list on. *)
Definition run_statements (statements : list str) (w : World) : bool * World :=
  let total_batches := (length statements + batch_size - 1) / batch_size in
  let p := fold_left (run_batch statements total_batches)
                     (range_step (length statements) batch_size)
                     (mkProgress 0 false w) in
  (success_count p =? total_batches, world p).

Definition main (content : str) (w : World) : bool * World :=
  run_statements (statements_of content) w.

(** [sys.exit(0 if success else 1)] *)
Definition exit_code (content : str) (w : World) : nat :=
  if fst (main content w) then 0 else 1.

End Sink.

End ExecuteMigrationBatches.

(* ------------------------------------------------------------------ *)
(** ** migrate_videos_rest_api.py *)

Module MigrateVideosRestApi.

Section Api.

Variable float : Type.
Variable float_truthy : float -> bool.

Local Abbreviation value := (PyValue.value float).
Local Abbreviation dict := (PyValue.dict float).
Local Abbreviation value_truthy := (PyValue.value_truthy float_truthy).

(** The remote endpoint is an opaque sink: each request changes the
    outside world and is answered, or fails with an exception. *)
Variable World : Type.

Inductive query_result :=
| Count (count : Z)      (* status 200 and a count in the body *)
| QueryFailed.           (* any other status, or an exception *)

Inductive post_result :=
| Response (status_code : nat) (text : str)
| PostRaised (msg : str).

Variable post_query : value -> World -> query_result * World.
Variable post_video : dict -> World -> post_result * World.

(** [self.stats] and [self.errors]. *)
Record self := mkSelf {
  total : nat;
  successful : nat;
  failed : nat;
  skipped : nat;
  errors : list (value * str)
}.

(** [isinstance(v, (int, float))] *)
Definition is_number (v : value) : bool :=
  match v with
  | VBool _ | VInt _ | VFloat _ => true
  | _ => false
  end.

Definition is_none (v : value) : bool :=
  match v with VNone => true | _ => false end.

(** [type(v)] as the f-string prints it. *)
Definition type_repr (v : value) : str :=
  match v with
  | VNone => lit "<class 'NoneType'>"
  | VBool _ => lit "<class 'bool'>"
  | VInt _ => lit "<class 'int'>"
  | VFloat _ => lit "<class 'float'>"
  | VStr _ => lit "<class 'str'>"
  | VBytes _ => lit "<class 'bytes'>"
  end.

Definition numeric_fields : list str :=
  [lit "duration_seconds"; lit "view_count"; lit "like_count";
   lit "comment_count"].

Fixpoint check_numeric (row : dict) (fields : list str) : bool * str :=
  match fields with
  | [] => (true, [])
  | field :: rest =>
      let value := get row field in
      if negb (is_none value) && negb (is_number value)
      then (false, lit "Invalid type for " ++ field ++ lit ": "
                     ++ type_repr value)
      else check_numeric row rest
  end.

Definition validate_row (row : dict) : bool * str :=
  if negb (value_truthy (get row (lit "video_id")))
  then (false, lit "Missing video_id")
  else check_numeric row numeric_fields.

(** [x or ''] *)
Definition or_empty (x : value) : value :=
  if value_truthy x then x else VStr [].

(** [transform_row]; [None] stands for the [KeyError] of
    [row['video_id']]. *)
Definition transform_row (row : dict) : option dict :=
  match get_opt row (lit "video_id") with
  | None => None
  | Some video_id =>
      Some
        [(lit "video_id", video_id);
         (lit "cleaned_title",
           or_empty (get_default row (lit "cleaned_title") (VStr [])));
         (lit "cleaned_description",
           or_empty (get_default row (lit "cleaned_description") (VStr [])));
         (lit "channel_name",
           or_empty (get_default row (lit "channel_name") (VStr [])));
         (lit "channel_id",
           or_empty (get_default row (lit "channel_id") (VStr [])));
         (lit "published_at", get row (lit "published_at"));
         (lit "duration_seconds", get row (lit "duration_seconds"));
         (lit "view_count", get row (lit "view_count"));
         (lit "like_count", get row (lit "like_count"));
         (lit "comment_count", get row (lit "comment_count"));
         (lit "is_indexed",
           VBool (value_truthy (get_default row (lit "is_indexed") (VInt 0))));
         (lit "created_at", get row (lit "created_at"))]
  end.

(** [check_video_exists]: [count > 0] on status 200, [False] otherwise;
    its own [except] turns every exception into [False]. *)
Definition check_video_exists (video_id : value) (w : World) : bool * World :=
  match post_query video_id w with
  | (Count count, w') => ((0 <? count)%Z, w')
  | (QueryFailed, w') => (false, w')
  end.

(** The locals of [insert_video_batch], the object and the world. *)
Record batch_run := mkBatchRun {
  batch_successful : nat;
  batch_failed : nat;
  obj : self;
  world : World
}.

Definition add_error (o : self) (video_id : value) (msg : str) : self :=
  mkSelf (total o) (successful o) (failed o) (skipped o)
         (errors o ++ [(video_id, msg)]).

Definition add_skipped (o : self) : self :=
  mkSelf (total o) (successful o) (failed o) (skipped o + 1) (errors o).

(** The body of [for video in videos] in [insert_video_batch]; the videos
    come from [transform_row], so [video['video_id']] is there. *)
Definition insert_video (r : batch_run) (video : dict) : batch_run :=
  let video_id := get video (lit "video_id") in
  let (found, w1) := check_video_exists video_id (world r) in
  if found then
    mkBatchRun (batch_successful r) (batch_failed r) (add_skipped (obj r)) w1
  else
    match post_video video w1 with
    | (Response status_code text, w2) =>
        if (status_code =? 200) || (status_code =? 201) then
          mkBatchRun (batch_successful r + 1) (batch_failed r) (obj r) w2
        else
          let error_msg :=
            lit "HTTP " ++ str_of_nat status_code ++ lit ": " ++ text in
          mkBatchRun (batch_successful r) (batch_failed r + 1)
                     (add_error (obj r) video_id error_msg) w2
    | (PostRaised error_msg, w2) =>
        mkBatchRun (batch_successful r) (batch_failed r + 1)
                   (add_error (obj r) video_id error_msg) w2
    end.

Definition insert_video_batch (o : self) (videos : list dict) (w : World)
  : batch_run :=
  fold_left insert_video videos (mkBatchRun 0 0 o w).

(** The [for video in batch] loop of [migrate]: the valid rows,
    transformed, and the object with the invalid ones recorded. *)
Fixpoint validate_batch (batch : list dict) (valid_videos : list dict)
  (o : self) : option (list dict * self) :=
  match batch with
  | [] => Some (valid_videos, o)
  | video :: rest =>
      let (is_valid, error_msg) := validate_row video in
      if is_valid then
        match transform_row video with
        | None => None
        | Some transformed =>
            validate_batch rest (valid_videos ++ [transformed]) o
        end
      else
        validate_batch rest valid_videos
          (mkSelf (total o) (successful o) (failed o + 1) (skipped o)
                  (errors o ++ [(get_default video (lit "video_id")
                                             (VStr (lit "UNKNOWN")),
                                 error_msg)]))
  end.

(** The body of [for i in range(0, len(videos), self.batch_size)]; the
    pause between batches changes nothing that is modelled. *)
Definition migrate_batch (batch_size : nat) (videos : list dict)
  (st : option (self * World)) (i : nat) : option (self * World) :=
  match st with
  | None => None
  | Some (o, w) =>
      let batch := slice videos i (i + batch_size) in
      match validate_batch batch [] o with
      | None => None
      | Some (valid_videos, o) =>
          if truthy valid_videos then
            let r := insert_video_batch o valid_videos w in
            let o := obj r in
            Some (mkSelf (total o) (successful o + batch_successful r)
                         (failed o + batch_failed r) (skipped o) (errors o),
                  world r)
          else Some (o, w)
      end
  end.

(** [migrate()] over the rows fetched; [batch_size] is the integer given
    as [--batch-size] ([type=int], any sign).  [None] when an exception
    escapes ([range] refuses a zero step).  The loop body runs only for the
    indices of a positive step, which is then a natural number. *)
Definition migrate (batch_size : Z) (videos : list dict) (w : World)
  : option (self * World) :=
  let o := mkSelf (length videos) 0 0 0 [] in
  if negb (truthy videos) then Some (o, w)
  else
    match range (length videos) batch_size with
    | None => None
    | Some indices =>
        fold_left (migrate_batch (Z.to_nat batch_size) videos) indices
                  (Some (o, w))
    end.

(** The exit status [main] ends with.  [report_results] writes a file when
    there are errors; [report_raises] tells whether that write fails.  Every
    exception ends in [sys.exit(1)]. *)
Definition exit_code (batch_size : Z) (report_raises : bool)
  (videos : list dict) (w : World) : nat :=
  match migrate batch_size videos w with
  | None => 1
  | Some (o, _) =>
      if truthy (errors o) && report_raises then 1
      else if 0 <? failed o then 1 else 0
  end.

End Api.

End MigrateVideosRestApi.

(* ------------------------------------------------------------------ *)
(** ** fix_sql_semicolons.py *)

Module FixSqlSemicolons.

(** The body of [for line in lines] (lines 14-22): the line as it is
    appended to [fixed_lines]. *)
Definition fix_line (line : str) : str :=
  let line := rstrip line in
  if startswith (strip line) (lit "INSERT INTO videos") then
    if negb (endswith (strip line) (lit ";"))
    then rstrip line ++ lit ";"
    else line
  else line.

(** What is written to the output file: every fixed line and a newline. *)
Definition written (fixed_lines : list str) : str :=
  concat (List.map (fun line => line ++ [newline]) fixed_lines).

(** The text of the output file for the text of the input file
    ([f.readlines()] gives the lines with their newlines). *)
Definition fix_text (content : str) : str :=
  written (List.map fix_line (lines content)).

(** [fix_sql_file(input_file, output_file)]: the file system afterwards;
    what [open] raises on the input file is not caught.  The output file
    is taken to be writable. *)
Definition fix_sql_file (fs : filesystem) (input_file output_file : str)
  : outcome filesystem :=
  match read_text fs input_file with
  | Raise e => Raise e
  | Return content =>
      Return (fun path => if Py.eqb path output_file
                          then Text (fix_text content)
                          else fs path)
  end.

End FixSqlSemicolons.

(* ------------------------------------------------------------------ *)
(** ** fix_sql_quotes.py *)

Module FixSqlQuotes.

(** [s.split(sep, 1)] for a non-empty [sep]: the text itself when [sep]
    does not occur, else what is before and what is after its first
    occurrence. *)
Fixpoint split1_from (sep : str) (cur : str) (s : str) : list str :=
  match s with
  | [] => [cur]
  | c :: s' =>
      if startswith s sep then [cur; skipn (length sep) s]
      else split1_from sep (cur ++ [c]) s'
  end.

Definition split1 (s sep : str) : list str := split1_from sep [] s.

Definition INSERT : str := lit "INSERT OR IGNORE INTO videos".

(** The locals of [fix_sql_quotes]. *)
Record fixer := mkFixer {
  fixed_lines : list str;
  current_statement : str;
  in_values : bool
}.

(** Lines 29-36: the quotes of the VALUES part are doubled. *)
Definition fix_values (current_statement : str) : str :=
  if contains (lit "VALUES (") current_statement then
    match split1 current_statement (lit "VALUES (") with
    | [before; after] =>
        let values_part := lit "VALUES (" ++ after in
        let fixed_values := replace_char quote [quote; quote] values_part in
        before ++ fixed_values
    | _ => current_statement
    end
  else current_statement.

(** The body of [for line in lines]. *)
Definition fix_step (st : fixer) (line : str) : fixer :=
  if startswith (strip line) INSERT then
    mkFixer (if truthy (current_statement st)
             then fixed_lines st ++ [current_statement st]
             else fixed_lines st)
            line true
  else if in_values st then
    let current := current_statement st ++ [newline] ++ line in
    if endswith (strip line) (lit ";") then
      mkFixer (fixed_lines st ++ [fix_values current]) [] false
    else mkFixer (fixed_lines st) current true
  else st.

Definition fix_sql_quotes (content : str) : str :=
  let lines := Py.split content [newline] in
  let st := fold_left fix_step lines (mkFixer [] [] false) in
  let fixed_lines :=
    if truthy (current_statement st)
    then fixed_lines st ++ [current_statement st]
    else fixed_lines st in
  join [newline] fixed_lines.

End FixSqlQuotes.

(* ================================================================== *)
(** * Properties *)

(** ** Whitespace and [strip] *)

Lemma isspace_not_special (c : char) :
  isspace c = true -> c <> backslash /\ c <> quote /\ c <> semicolon.
Proof.
  intro H; repeat split; intro E; subst c; vm_compute in H; discriminate.
Qed.

Lemma lstrip_snoc (s : str) (c : char) :
  isspace c = false -> lstrip (s ++ [c]) = lstrip s ++ [c].
Proof.
  intro Hc. induction s as [|x s IH]; simpl.
  - now rewrite Hc.
  - destruct (isspace x); [exact IH | reflexivity].
Qed.

Lemma rstrip_snoc (s : str) (c : char) :
  isspace c = false -> rstrip (s ++ [c]) = s ++ [c].
Proof.
  intro Hc. unfold rstrip. rewrite rev_app_distr. simpl. rewrite Hc.
  simpl. now rewrite rev_involutive.
Qed.

Lemma strip_snoc (s : str) (c : char) :
  isspace c = false -> strip (s ++ [c]) = lstrip s ++ [c].
Proof.
  intro Hc. unfold strip. rewrite lstrip_snoc by exact Hc.
  now apply rstrip_snoc.
Qed.

Lemma lstrip_snoc_any (s : str) (c : char) :
  lstrip (s ++ [c]) =
  match lstrip s with [] => lstrip [c] | _ :: _ => lstrip s ++ [c] end.
Proof.
  induction s as [|x s IH]; simpl.
  - reflexivity.
  - destruct (isspace x); [exact IH | reflexivity].
Qed.

Lemma lstrip_spaces (ws : str) :
  Forall (fun c => isspace c = true) ws -> lstrip ws = [].
Proof.
  induction 1 as [|c ws Hc _ IH]; simpl; [reflexivity | now rewrite Hc].
Qed.

(** A string is some blanks followed by its [lstrip]. *)
Lemma lstrip_decompose (s : str) :
  exists ws, Forall (fun c => isspace c = true) ws /\ s = ws ++ lstrip s.
Proof.
  induction s as [|x s [ws [Hws Hs]]]; simpl.
  - exists []. split; [constructor | reflexivity].
  - destruct (isspace x) eqn:Hx.
    + exists (x :: ws). split; [now constructor | simpl; now f_equal].
    + exists []. split; [constructor | reflexivity].
Qed.

Lemma lstrip_idempotent (s : str) : lstrip (lstrip s) = lstrip s.
Proof.
  induction s as [|x s IH]; simpl; [reflexivity |].
  destruct (isspace x) eqn:Hx; [exact IH | simpl; now rewrite Hx].
Qed.

(** ** The scanner *)

Module SplitterFacts.

Import Splitter.

Definition fresh (stmts : list str) (cur : str) : scanner :=
  mkScanner stmts cur false false.

Lemma scan_from_app g st a b :
  scan_from g st (a ++ b) = scan_from g (scan_from g st a) b.
Proof. unfold scan_from. apply fold_left_app. Qed.

Lemma scan_from_cons g st c text :
  scan_from g st (c :: text) = scan_from g (scan_char g st c) text.
Proof. reflexivity. Qed.

Lemma scan_snoc g text c :
  scan g (text ++ [c]) = scan_char g (scan g text) c.
Proof. unfold scan. now rewrite scan_from_app. Qed.

(** What one character can do to the scanner: the buffer grows and the
    statement list stays, or a statement is emitted and the buffer is
    reset with both flags down. *)
Lemma scan_char_cases g st c :
  (statements (scan_char g st c) = statements st /\
   current_statement (scan_char g st c) = current_statement st ++ [c])
  \/
  (c = semicolon /\ escape_next st = false /\ in_string st = false /\
   scan_char g st c =
     fresh (append_statement g (statements st) (current_statement st ++ [c]))
           []).
Proof.
  unfold scan_char.
  destruct (escape_next st) eqn:He; [left; split; reflexivity |].
  destruct (N.eqb_spec c backslash) as [Hb|Hb]; [left; split; reflexivity |].
  destruct (N.eqb_spec c quote) as [Hq|Hq]; simpl.
  - subst c. left. simpl. split; reflexivity.
  - destruct (N.eqb_spec c semicolon) as [Hs|Hs]; simpl.
    + destruct (in_string st) eqn:Hi; simpl.
      * left; split; reflexivity.
      * right. repeat split; trivial.
    + left; split; reflexivity.
Qed.

(** A statement is never blank when it is appended: it ends with the
    semicolon that closed it, so the guard of [test_d1_inserts.py] never
    skips anything. *)
Lemma append_statement_semicolon g stmts cur :
  append_statement g stmts (cur ++ [semicolon]) =
  stmts ++ [lstrip cur ++ [semicolon]].
Proof.
  unfold append_statement. rewrite strip_snoc by reflexivity.
  destruct (lstrip cur); simpl; now rewrite andb_false_r.
Qed.

Lemma scan_char_guard_irrelevant g st c :
  scan_char g st c = scan_char false st c.
Proof.
  destruct (scan_char_cases g st c) as [[H1 H2]|[Hc [He [Hi H]]]].
  - unfold scan_char in *.
    destruct (escape_next st); [reflexivity |].
    destruct (c =? backslash)%N; [reflexivity |].
    destruct ((c =? semicolon)%N &&
              negb (if (c =? quote)%N && negb false
                    then negb (in_string st) else in_string st)) eqn:E;
      [| reflexivity].
    simpl in H2. exfalso. destruct (current_statement st); discriminate.
  - rewrite H. subst c.
    destruct (scan_char_cases false st semicolon)
      as [[H1 H2]|[_ [_ [_ H']]]].
    + unfold scan_char in H2. rewrite He, Hi in H2.
      simpl in H2. destruct (current_statement st); discriminate.
    + rewrite H'. now rewrite !append_statement_semicolon.
Qed.

Lemma scan_from_guard_irrelevant g st text :
  scan_from g st text = scan_from false st text.
Proof.
  revert st. induction text as [|c text IH]; intro st.
  - reflexivity.
  - rewrite !scan_from_cons, scan_char_guard_irrelevant. apply IH.
Qed.

(** Both copies of the loop compute the same statement list. *)
Lemma split_guard_irrelevant text : split true text = split false text.
Proof. unfold split, scan. now rewrite scan_from_guard_irrelevant. Qed.

End SplitterFacts.

(** *** Re-reading the statements the loop produced *)

Module Resplit.

Import Splitter SplitterFacts.

(** The statement list is a frame for the loop: statements already found
    are only ever appended to. *)
Definition add_prefix (pre : list str) (st : scanner) : scanner :=
  mkScanner (pre ++ statements st) (current_statement st)
            (in_string st) (escape_next st).

Lemma scan_char_frame pre ss cur i e c :
  scan_char false (mkScanner (pre ++ ss) cur i e) c
  = add_prefix pre (scan_char false (mkScanner ss cur i e) c).
Proof.
  unfold scan_char, add_prefix, append_statement; simpl.
  destruct e; [reflexivity |].
  destruct (c =? backslash)%N; [reflexivity |].
  destruct ((c =? semicolon)%N &&
            negb (if (c =? quote)%N && negb false then negb i else i));
    simpl; [now rewrite app_assoc | reflexivity].
Qed.

Lemma scan_from_frame pre text : forall ss cur i e,
  scan_from false (mkScanner (pre ++ ss) cur i e) text
  = add_prefix pre (scan_from false (mkScanner ss cur i e) text).
Proof.
  induction text as [|c text IH]; intros ss cur i e.
  - reflexivity.
  - rewrite !scan_from_cons, scan_char_frame.
    destruct (scan_char false (mkScanner ss cur i e) c) as [ss' cur' i' e'].
    unfold add_prefix at 1; simpl. apply IH.
Qed.

Lemma scan_from_fresh_frame ss ws text :
  scan_from false (fresh ss ws) text
  = add_prefix ss (scan_from false (fresh [] ws) text).
Proof.
  unfold fresh. rewrite <- (app_nil_r ss) at 1. apply scan_from_frame.
Qed.

(** Blanks read outside a literal only lengthen the buffer. *)
Lemma scan_spaces ws : forall ss u,
  Forall (fun c => isspace c = true) ws ->
  scan_from false (fresh ss u) ws = fresh ss (u ++ ws).
Proof.
  induction ws as [|c ws IH]; intros ss u H.
  - now rewrite app_nil_r.
  - inversion H as [|? ? Hc Hws]; subst.
    destruct (@isspace_not_special c Hc) as [Hb [Hq Hs]].
    rewrite scan_from_cons.
    assert (E : scan_char false (fresh ss u) c = fresh ss (u ++ [c])).
    { unfold scan_char, fresh; simpl.
      destruct (N.eqb_spec c backslash); [contradiction |].
      destruct (N.eqb_spec c quote); [contradiction |].
      destruct (N.eqb_spec c semicolon); [contradiction |].
      reflexivity. }
    rewrite E, IH by exact Hws.
    now rewrite <- app_assoc.
Qed.

(** Two scanner states that differ only in the blanks at the front of the
    buffer. *)
Definition similar (a b : scanner) : Prop :=
  statements a = statements b /\
  in_string a = in_string b /\
  escape_next a = escape_next b /\
  lstrip (current_statement a) = lstrip (current_statement b).

Lemma lstrip_snoc_congr (a b : str) (c : char) :
  lstrip a = lstrip b -> lstrip (a ++ [c]) = lstrip (b ++ [c]).
Proof. intro H. now rewrite !lstrip_snoc_any, H. Qed.

Lemma scan_char_similar a b c :
  similar a b ->
  similar (scan_char false a c) (scan_char false b c) /\
  (current_statement (scan_char false b c) = [] ->
   current_statement (scan_char false a c) = []).
Proof.
  destruct a as [sa ca ia ea], b as [sb cb ib eb].
  unfold similar; simpl. intros (-> & -> & -> & H).
  pose proof (@lstrip_snoc_congr ca cb c H) as H'.
  assert (Hne : forall x : str, x ++ [c] = [] -> False)
    by (intros x Hx; destruct x; discriminate).
  unfold scan_char, append_statement, strip; simpl.
  destruct eb; simpl.
  { split; [repeat split; exact H' | intro E; destruct (Hne _ E)]. }
  destruct (c =? backslash)%N; simpl.
  { split; [repeat split; exact H' | intro E; destruct (Hne _ E)]. }
  destruct ((c =? semicolon)%N &&
            negb (if (c =? quote)%N && true then negb ib else ib)); simpl.
  - split; [repeat split; now rewrite H' | reflexivity].
  - split; [repeat split; exact H' | intro E; destruct (Hne _ E)].
Qed.

Lemma scan_from_similar text : forall a b,
  similar a b ->
  similar (scan_from false a text) (scan_from false b text) /\
  (text <> [] ->
   current_statement (scan_from false b text) = [] ->
   current_statement (scan_from false a text) = []).
Proof.
  induction text as [|c text IH]; intros a b Hab.
  - split; [exact Hab | intro H; now destruct H].
  - rewrite !scan_from_cons.
    destruct (scan_char_similar c Hab) as [Hs He].
    destruct (IH _ _ Hs) as [IH1 IH2].
    split; [exact IH1 |].
    intros _ Hb. destruct text as [|d text].
    + apply He. exact Hb.
    + apply IH2; [discriminate | exact Hb].
Qed.

(** A complete statement: read after any run of blanks, outside a literal,
    it is emitted as it is and nothing is left over. *)
Definition complete (s : str) : Prop :=
  forall ws, Forall (fun c => isspace c = true) ws ->
    scan_from false (fresh [] ws) s = fresh [s] [].

(** What holds of every state the loop reaches: the statements found are
    complete, and the flags are those obtained by reading the buffer alone. *)
Record invariant (st : scanner) : Prop := {
  inv_statements : Forall complete (statements st);
  inv_replay :
    scan_from false init (current_statement st)
    = mkScanner [] (current_statement st) (in_string st) (escape_next st)
}.

Lemma invariant_init : invariant init.
Proof. split; [constructor | reflexivity]. Qed.

Lemma complete_closed cur :
  scan_from false init (cur ++ [semicolon])
    = fresh [lstrip cur ++ [semicolon]] [] ->
  complete (lstrip cur ++ [semicolon]).
Proof.
  intros Hscan ws Hws.
  destruct (lstrip_decompose (cur ++ [semicolon])) as [w [Hw Hsplit]].
  rewrite lstrip_snoc in Hsplit by reflexivity.
  rewrite Hsplit, scan_from_app in Hscan.
  change init with (fresh [] []) in Hscan.
  rewrite scan_spaces in Hscan by exact Hw. simpl in Hscan.
  assert (Hsim : similar (fresh [] ws) (fresh [] w)).
  { unfold similar, fresh; simpl. repeat split.
    now rewrite !lstrip_spaces. }
  destruct (scan_from_similar (lstrip cur ++ [semicolon]) Hsim)
    as [(H1 & H2 & H3 & _) H4].
  rewrite Hscan in *. simpl in *.
  assert (H5 : current_statement
                 (scan_from false (fresh [] ws) (lstrip cur ++ [semicolon]))
               = []).
  { apply H4; [| reflexivity].
    intro E. destruct (lstrip cur); discriminate. }
  destruct (scan_from false (fresh [] ws) (lstrip cur ++ [semicolon])).
  simpl in *. unfold fresh. clear H4. now subst.
Qed.

Lemma invariant_step st c :
  invariant st -> invariant (scan_char false st c).
Proof.
  destruct st as [ss cur i e]. intros [Hst Hre]; simpl in *.
  rewrite <- (app_nil_r ss) at 1. rewrite scan_char_frame.
  assert (Hr : scan_from false init (cur ++ [c])
               = scan_char false (mkScanner [] cur i e) c).
  { now rewrite scan_from_app, Hre. }
  destruct (scan_char_cases false (mkScanner [] cur i e) c)
    as [[H1 H2]|(-> & He & Hi & H)]; simpl in *.
  - destruct (scan_char false (mkScanner [] cur i e) c) as [ss' cur' i' e'].
    simpl in *. subst ss' cur'. split; simpl.
    + now rewrite app_nil_r.
    + exact Hr.
  - rewrite H in *. rewrite append_statement_semicolon in *. simpl in *.
    split; simpl.
    + apply Forall_app. split; [exact Hst |].
      constructor; [| constructor]. now apply complete_closed.
    + reflexivity.
Qed.

Lemma invariant_scan_from text : forall st,
  invariant st -> invariant (scan_from false st text).
Proof.
  induction text as [|c text IH]; intros st H; [exact H |].
  rewrite scan_from_cons. apply IH. now apply invariant_step.
Qed.

Lemma split_complete text : Forall complete (split false text).
Proof.
  apply (inv_statements (invariant_scan_from text invariant_init)).
Qed.

(** Complete statements, one per line, are read back one by one. *)
Lemma scan_join_complete l : forall ss ws,
  Forall complete l -> l <> [] ->
  Forall (fun c => isspace c = true) ws ->
  scan_from false (fresh ss ws) (join [newline] l) = fresh (ss ++ l) [].
Proof.
  induction l as [|s l IH]; intros ss ws Hl Hne Hws; [now destruct Hne |].
  inversion Hl as [|? ? Hs Hl']; subst.
  destruct l as [|s2 l].
  - simpl. rewrite scan_from_fresh_frame, (Hs ws Hws). reflexivity.
  - change (join [newline] (s :: s2 :: l))
      with (s ++ [newline] ++ join [newline] (s2 :: l)).
    rewrite !scan_from_app, scan_from_fresh_frame, (Hs ws Hws).
    change (add_prefix ss (fresh [s] [])) with (fresh (ss ++ [s]) []).
    rewrite scan_spaces by (constructor; [reflexivity | constructor]).
    rewrite IH; [| exact Hl' | discriminate
                 | constructor; [reflexivity | constructor]].
    now rewrite <- app_assoc.
Qed.

End Resplit.

Module SplitterSpec.

Import Splitter SplitterFacts.

(** C1 -- A semicolon read while [in_string] is set does not end a
    statement: the statement list is unchanged, the semicolon joins the
    buffer and the scanner stays inside the literal.  In particular the text
    [INSERT INTO videos (a) VALUES ('x;y');] is split into exactly one
    statement, by either copy of the loop. *)
Theorem semicolon_in_literal_not_separator :
  (forall guarded pre,
      in_string (scan guarded pre) = true ->
      statements (scan guarded (pre ++ [semicolon]))
        = statements (scan guarded pre) /\
      current_statement (scan guarded (pre ++ [semicolon]))
        = current_statement (scan guarded pre) ++ [semicolon] /\
      in_string (scan guarded (pre ++ [semicolon])) = true) /\
  split false (lit "INSERT INTO videos (a) VALUES ('x;y');")
    = [lit "INSERT INTO videos (a) VALUES ('x;y');"] /\
  split true (lit "INSERT INTO videos (a) VALUES ('x;y');")
    = [lit "INSERT INTO videos (a) VALUES ('x;y');"].
Proof.
  split; [| split; vm_compute; reflexivity].
  intros g pre Hin. rewrite scan_snoc.
  destruct (scan_char_cases g (scan g pre) semicolon)
    as [[H1 H2]|[_ [_ [Hi _]]]].
  - repeat split; trivial.
    unfold scan_char. rewrite Hin.
    destruct (escape_next (scan g pre)); reflexivity.
  - rewrite Hin in Hi. discriminate.
Qed.

Lemma semicolon_in_literal_not_separator_witness :
  in_string (scan false (lit "INSERT INTO videos (a) VALUES ('x")) = true /\
  statements (scan false (lit "INSERT INTO videos (a) VALUES ('x" ++ [semicolon]))
    = statements (scan false (lit "INSERT INTO videos (a) VALUES ('x")).
Proof.
  split; [reflexivity |].
  apply (proj1 semicolon_in_literal_not_separator false
               (lit "INSERT INTO videos (a) VALUES ('x")).
  reflexivity.
Defined.

(** C4 -- The character after an unescaped backslash is skipped: a quote
    met while [escape_next] is set leaves [in_string] and the statement
    list as they are, so a backslash followed by a quote never toggles
    [in_string].  The text [INSERT INTO videos (a) VALUES ('it\'s');] is
    split into exactly one statement. *)
Theorem escaped_quote_does_not_toggle :
  (forall guarded pre,
      escape_next (scan guarded pre) = false ->
      in_string (scan guarded (pre ++ [backslash; quote]))
        = in_string (scan guarded pre) /\
      escape_next (scan guarded (pre ++ [backslash; quote])) = false /\
      statements (scan guarded (pre ++ [backslash; quote]))
        = statements (scan guarded pre)) /\
  split false (lit "INSERT INTO videos (a) VALUES ('it\'s');")
    = [lit "INSERT INTO videos (a) VALUES ('it\'s');"] /\
  split true (lit "INSERT INTO videos (a) VALUES ('it\'s');")
    = [lit "INSERT INTO videos (a) VALUES ('it\'s');"].
Proof.
  split; [| split; vm_compute; reflexivity].
  intros g pre He.
  change (pre ++ [backslash; quote]) with (pre ++ [backslash] ++ [quote]).
  rewrite app_assoc, !scan_snoc.
  assert (Hb : scan_char g (scan g pre) backslash =
               mkScanner (statements (scan g pre))
                         (current_statement (scan g pre) ++ [backslash])
                         (in_string (scan g pre)) true)
    by (unfold scan_char; rewrite He; reflexivity).
  rewrite Hb. unfold scan_char. simpl. repeat split.
Qed.

Lemma escaped_quote_does_not_toggle_witness :
  escape_next (scan false (lit "INSERT INTO videos (a) VALUES ('it")) = false /\
  in_string (scan false (lit "INSERT INTO videos (a) VALUES ('it"
                         ++ [backslash; quote])) = true.
Proof.
  split; [reflexivity |].
  rewrite (proj1 (proj1 escaped_quote_does_not_toggle false
                   (lit "INSERT INTO videos (a) VALUES ('it") eq_refl)).
  reflexivity.
Defined.

(** C3 (as stated, refuted) -- the text below ends with a second statement
    that has no closing semicolon; the loop returns the first statement
    only, and the non-blank leftover buffer is not in the list. *)
Lemma trailing_buffer_dropped_example :
  let text := lit "INSERT INTO videos (a) VALUES (1);INSERT INTO videos (a) VALUES (2)" in
  split false text = [lit "INSERT INTO videos (a) VALUES (1);"] /\
  split true text = [lit "INSERT INTO videos (a) VALUES (1);"] /\
  strip (current_statement (scan false text))
    = lit "INSERT INTO videos (a) VALUES (2)" /\
  ~ In (strip (current_statement (scan false text))) (split false text).
Proof.
  vm_compute. repeat split; try reflexivity.
  intros [H|[]]. discriminate H.
Qed.

(** C3 (amended) -- Whatever follows the last separating semicolon stays in
    [current_statement] and is discarded: the text is a head followed by
    that leftover, the head leaves no leftover, and splitting the whole
    text gives exactly the statements of the head. *)
Theorem trailing_buffer_discarded :
  forall guarded text,
    exists head,
      text = head ++ current_statement (scan guarded text) /\
      current_statement (scan guarded head) = [] /\
      split guarded text = split guarded head.
Proof.
  intros g text. induction text as [|c text IH] using rev_ind.
  - exists []. repeat split.
  - destruct IH as [head [Ht [Hcur Hsplit]]].
    destruct (scan_char_cases g (scan g text) c)
      as [[H1 H2]|[_ [_ [_ H]]]].
    + exists head. rewrite scan_snoc. repeat split.
      * rewrite H2, app_assoc. now rewrite <- Ht.
      * exact Hcur.
      * unfold split in *. rewrite scan_snoc, H1. exact Hsplit.
    + exists (text ++ [c]). rewrite scan_snoc, H. simpl.
      repeat split. now rewrite app_nil_r.
Qed.

(** C2 (as stated, refuted) -- the statements the loop returns keep their
    closing semicolon, so joining two of them with a semicolon and a
    newline puts a statement made of a lone semicolon between them. *)
Lemma resplit_semicolon_newline_differs :
  let text := lit "INSERT INTO videos (a) VALUES (1);INSERT INTO videos (a) VALUES (2);" in
  split false text
    = [lit "INSERT INTO videos (a) VALUES (1);";
       lit "INSERT INTO videos (a) VALUES (2);"] /\
  split false (join [semicolon; newline] (split false text))
    = [lit "INSERT INTO videos (a) VALUES (1);"; lit ";";
       lit "INSERT INTO videos (a) VALUES (2);"] /\
  split false (join [semicolon; newline] (split false text))
    <> split false text.
Proof.
  vm_compute. repeat split; discriminate.
Qed.

(** C2 (amended) -- Splitting is idempotent when the statements, which
    already end with their semicolon, are joined by a newline alone:
    splitting the joined text gives back the same statement list, for
    either copy of the loop. *)
Theorem resplit_newline_joined :
  forall guarded text,
    split guarded (join [newline] (split guarded text)) = split guarded text.
Proof.
  intros g text.
  assert (Hg : forall t, split g t = split false t).
  { intro t. unfold split, scan. now rewrite scan_from_guard_irrelevant. }
  rewrite !Hg.
  pose proof (Resplit.split_complete text) as Hc.
  destruct (split false text) as [|s l] eqn:E; [reflexivity |].
  unfold split, scan. change init with (fresh [] []).
  rewrite Resplit.scan_join_complete
    by (exact Hc || discriminate || constructor).
  reflexivity.
Qed.

End SplitterSpec.

(* ------------------------------------------------------------------ *)
(** ** The structural validator of validate_migration_improved.py *)

Module ValidatorSpec.

Import ValidateMigrationImproved.

(** The checks of the validator, each taken alone: a violated check
    contributes its message, a satisfied one nothing. *)
Definition defect (violated : bool) (msg : str) : list str :=
  if violated then [msg] else [].

(** Checks 2 to 7, in the order of the source, none depending on the
    outcome of another. *)
Definition collected_defects (n : nat) (statement : str) : list str :=
  defect (negb (startswith (strip statement) (lit "INSERT INTO videos (")))
         (msg_invalid_syntax n)
  ++ defect (negb (contains (lit "VALUES (") statement))
            (msg_missing_values n)
  ++ defect (negb (count_char lparen statement =? count_char rparen statement))
            (msg_unbalanced_parens n (count_char lparen statement)
                                   (count_char rparen statement))
  ++ defect (Nat.odd (real_quotes statement))
            (msg_unbalanced_quotes n (real_quotes statement))
  ++ defect (contains (lit "'', '', '', ''") statement)
            (msg_empty_fields n)
  ++ defect (negb (count statement (lit "VALUES") =? 1))
            (msg_values_once n).

Lemma odd_mod2 (n : nat) : negb (n mod 2 =? 0) = Nat.odd n.
Proof.
  rewrite <- Nat.bit0_mod, Nat.bit0_odd. now destruct (Nat.odd n).
Qed.

Lemma add_error_defect (r : report) (b : bool) (m : str) :
  (if b then add_error r m else r)
  = mkReport (statement_count r) (errors r ++ defect b m).
Proof.
  destruct r as [k es]; destruct b; unfold add_error, defect; simpl;
    [reflexivity | now rewrite app_nil_r].
Qed.

Lemma startswith_nonempty (s p : str) :
  p <> [] -> startswith s p = true -> truthy s = true.
Proof.
  destruct p as [|x p]; [now intros [] |].
  destruct s; simpl; [discriminate | reflexivity].
Qed.

(** A statement with the [INSERT INTO videos] prefix goes through all six
    remaining checks. *)
Lemma validate_statement_insert r n statement :
  startswith (strip statement) (lit "INSERT INTO videos") = true ->
  validate_statement r (n, statement)
  = mkReport (statement_count r + 1)
             (errors r ++ collected_defects n statement).
Proof.
  intro Hp. unfold validate_statement.
  assert (Ht : truthy (strip statement) = true)
    by (apply (@startswith_nonempty _ (lit "INSERT INTO videos"));
        [discriminate | exact Hp]).
  rewrite Ht, Hp. cbv beta iota zeta. simpl negb at 1 2. cbv iota.
  rewrite odd_mod2.
  rewrite !add_error_defect. cbn [statement_count errors].
  unfold collected_defects. now rewrite <- !app_assoc.
Qed.

(** A non-blank statement without the prefix gets the one message and
    nothing else. *)
Lemma validate_statement_other r n statement :
  truthy (strip statement) = true ->
  startswith (strip statement) (lit "INSERT INTO videos") = false ->
  validate_statement r (n, statement)
  = mkReport (statement_count r + 1) (errors r ++ [msg_not_insert n]).
Proof.
  intros Ht Hp. unfold validate_statement. now rewrite Ht, Hp.
Qed.

(** Blank statements are passed over and not counted. *)
Lemma validate_statement_blank r n statement :
  truthy (strip statement) = false ->
  validate_statement r (n, statement) = r.
Proof.
  intro Ht. unfold validate_statement. now rewrite Ht.
Qed.

(** The quote count of the validator and the [in_string] flag of the
    splitter come from the same scan: after reading a text from the start,
    the flag is set exactly when the count is odd. *)
Lemma quote_step_scan_char g q st i c :
  q_escape_next q = Splitter.escape_next st ->
  Nat.odd (length (quote_positions q)) = Splitter.in_string st ->
  q_escape_next (quote_step q (i, c))
    = Splitter.escape_next (Splitter.scan_char g st c) /\
  Nat.odd (length (quote_positions (quote_step q (i, c))))
    = Splitter.in_string (Splitter.scan_char g st c).
Proof.
  destruct q as [ps qe], st as [ss cur ins esc]; simpl.
  intros -> Hodd. unfold quote_step, Splitter.scan_char; simpl.
  destruct esc; [split; [reflexivity | exact Hodd] |].
  destruct (c =? backslash)%N; [split; [reflexivity | exact Hodd] |].
  destruct (c =? quote)%N; simpl.
  - rewrite length_app, Nat.add_1_r, Nat.odd_succ, <- Nat.negb_odd, Hodd.
    destruct (c =? semicolon)%N; simpl; [| split; reflexivity].
    destruct ins; simpl; split; reflexivity.
  - destruct (c =? semicolon)%N; simpl; [| split; [reflexivity | exact Hodd]].
    destruct ins; simpl; split; trivial.
Qed.

Lemma quote_fold_scan g s : forall k q st,
  q_escape_next q = Splitter.escape_next st ->
  Nat.odd (length (quote_positions q)) = Splitter.in_string st ->
  Nat.odd (length (quote_positions
                     (fold_left quote_step (combine (seq k (length s)) s) q)))
  = Splitter.in_string (Splitter.scan_from g st s).
Proof.
  induction s as [|c s IH]; intros k q st He Ho; [exact Ho |].
  simpl length. simpl seq. simpl combine. simpl fold_left.
  rewrite SplitterFacts.scan_from_cons.
  destruct (quote_step_scan_char g q st k c He Ho) as [He' Ho'].
  now apply IH.
Qed.

Lemma real_quotes_in_string g s :
  Nat.odd (real_quotes s) = Splitter.in_string (Splitter.scan g s).
Proof.
  unfold real_quotes, enumerate0, Splitter.scan.
  now apply quote_fold_scan.
Qed.

(** C5 -- The statement [INSERT INTO videos (video_id) VALUES ('abc');]
    passes every check: whatever its position and whatever was reported
    before, the validator counts it and adds no defect; validating a file
    that holds just this statement returns one statement and no defect. *)
Theorem valid_insert_no_defects :
  (forall r n,
      validate_statement
        r (n, lit "INSERT INTO videos (video_id) VALUES ('abc');")
      = mkReport (statement_count r + 1) (errors r)) /\
  validate_sql_file
    (fun _ => Text (lit "INSERT INTO videos (video_id) VALUES ('abc');"))
    (lit "db/mutations/insert_videos.sql")
  = Return (1, []).
Proof.
  split; [| vm_compute; reflexivity].
  intros r n. rewrite validate_statement_insert by (vm_compute; reflexivity).
  unfold collected_defects.
  repeat match goal with
         | |- context [defect ?b ?m] =>
             let v := eval vm_compute in b in
             change (defect b m) with (defect v m); unfold defect at 1
         end.
  simpl. now rewrite app_nil_r.
Qed.

(** C6 -- A statement with the [INSERT INTO videos] prefix is put through
    all six remaining checks and every violated one leaves its message, in
    the order of the checks; a non-blank statement without the prefix gets
    the single "Not an INSERT statement" message and no other check is
    applied.  A statement that violates all six checks gets six messages. *)
Theorem all_checks_collected :
  (forall r n statement,
      startswith (strip statement) (lit "INSERT INTO videos") = true ->
      validate_statement r (n, statement)
      = mkReport (statement_count r + 1)
                 (errors r ++ collected_defects n statement)) /\
  (forall r n statement,
      truthy (strip statement) = true ->
      startswith (strip statement) (lit "INSERT INTO videos") = false ->
      validate_statement r (n, statement)
      = mkReport (statement_count r + 1) (errors r ++ [msg_not_insert n])) /\
  errors (validate_statement
            (mkReport 0 [])
            (3, lit "INSERT INTO videos VALUES 'a, '', '', '', '' VALUES )"))
  = [lit "Statement 3: Invalid INSERT syntax";
     lit "Statement 3: Missing VALUES clause";
     lit "Statement 3: Unbalanced parentheses (0 open, 1 close)";
     lit "Statement 3: Unbalanced quotes (9 quotes)";
     lit "Statement 3: Contains multiple empty fields";
     lit "Statement 3: Should have exactly one VALUES clause"].
Proof.
  split; [| split].
  - intros. now apply validate_statement_insert.
  - intros. now apply validate_statement_other.
  - vm_compute. reflexivity.
Qed.

Lemma all_checks_collected_witness :
  validate_statement (mkReport 0 []) (1, lit "INSERT INTO videos VALUES (1;")
  = mkReport 1 (collected_defects 1 (lit "INSERT INTO videos VALUES (1;")) /\
  validate_statement (mkReport 0 []) (2, lit "DROP TABLE videos;")
  = mkReport 1 [msg_not_insert 2].
Proof.
  split.
  - apply (proj1 all_checks_collected (mkReport 0 []) 1
                 (lit "INSERT INTO videos VALUES (1;")).
    reflexivity.
  - apply (proj1 (proj2 all_checks_collected) (mkReport 0 []) 2
                 (lit "DROP TABLE videos;")); reflexivity.
Defined.

(** C7 -- A file holding the one statement
    [INSERT INTO videos (a) VALUES ('abc);], which has exactly one unescaped
    quote.  The check of lines 65-82, given this statement, reports
    "Statement 1: Unbalanced quotes (1 quotes)".  It is never given it: the
    splitter of lines 16-37 closes no statement while the quote count is
    odd, the text stays in [current_statement] and is dropped, and
    [validate_sql_file] returns no statement and no defect.  After a
    well-formed statement the same statement goes unreported as well: one
    statement, no defect.  The line validators of [validate_fixed_sql.py]
    and [validate_migration.py] report "Line 1: Unbalanced quotes" for the
    same file. *)
Theorem odd_quote_statement_unreported :
  real_quotes (lit "INSERT INTO videos (a) VALUES ('abc);") = 1 /\
  errors (validate_statement
            (mkReport 0 [])
            (1, lit "INSERT INTO videos (a) VALUES ('abc);"))
  = [lit "Statement 1: Unbalanced quotes (1 quotes)"] /\
  Splitter.split false (lit "INSERT INTO videos (a) VALUES ('abc);") = [] /\
  validate_sql_file
    (fun _ => Text (lit "INSERT INTO videos (a) VALUES ('abc);"))
    (lit "db/mutations/insert_videos.sql")
  = Return (0, []) /\
  validate_sql_file
    (fun _ => Text (lit "INSERT INTO videos (a) VALUES ('x');"
                    ++ [newline]
                    ++ lit "INSERT INTO videos (a) VALUES ('abc);"))
    (lit "db/mutations/insert_videos.sql")
  = Return (1, []) /\
  ValidateFixedSql.validate_sql_file
    (fun _ => Text (lit "INSERT INTO videos (a) VALUES ('abc);"))
    (lit "db/mutations/insert_videos.sql")
  = Return (1, [lit "Line 1: Unbalanced quotes"]) /\
  ValidateMigration.validate_sql_file
    (fun _ => Text (lit "INSERT INTO videos (a) VALUES ('abc);"))
    (lit "db/mutations/insert_videos.sql")
  = Return (1, [lit "Line 1: Unbalanced quotes"]).
Proof. vm_compute. repeat split. Qed.

End ValidatorSpec.

(* ------------------------------------------------------------------ *)
(** ** Files that cannot be read *)

Module FileSpec.

(** Every line read is counted, whatever is found on it. *)
Lemma line_count_fold items : forall r,
  ValidateFixedSql.line_count
    (fold_left ValidateFixedSql.validate_line items r)
  = ValidateFixedSql.line_count r + length items.
Proof.
  induction items as [|[k l] items IH]; intro r; simpl.
  - now rewrite Nat.add_0_r.
  - rewrite IH.
    unfold ValidateFixedSql.validate_line, ValidateFixedSql.add_error.
    cbv zeta.
    repeat match goal with
           | |- context [if ?b then _ else _] => destruct b
           end; simpl; lia.
Qed.

(** C8 (as stated, refuted) -- [validate_fixed_sql.py] catches
    [FileNotFoundError] only, so a file that cannot be opened for another
    reason makes the call raise; [validate_migration_improved.py] catches
    nothing, so there a missing file raises too. *)
Lemma open_errors_escape_example :
  ValidateFixedSql.validate_sql_file
    (fun _ => Denied) (lit "db/mutations/insert_videos_migrated_fixed.sql")
  = Raise PermissionError /\
  ValidateFixedSql.validate_sql_file
    (fun _ => Undecodable) (lit "db/mutations/insert_videos_migrated_fixed.sql")
  = Raise UnicodeDecodeError /\
  ValidateMigrationImproved.validate_sql_file
    (fun _ => Absent) (lit "db/mutations/insert_videos.sql")
  = Raise FileNotFoundError.
Proof. repeat split. Qed.

(** C8 (amended) -- In [validate_fixed_sql.py] a missing file gives line
    count 0 and exactly one defect, "File not found: <path>"; a file that
    opens and decodes is validated to the end by both validators, which
    return their counts and defects; any other failure of [open] or of
    reading is not caught by [validate_fixed_sql.py] and is raised to the
    caller. *)
Theorem missing_file_reported :
  forall (fs : filesystem) (path : str),
    (fs path = Absent ->
     ValidateFixedSql.validate_sql_file fs path
     = Return (0, [lit "File not found: " ++ path])) /\
    (forall content, fs path = Text content ->
       (exists errs,
          ValidateFixedSql.validate_sql_file fs path
          = Return (length (lines content), errs)) /\
       (exists n errs,
          ValidateMigrationImproved.validate_sql_file fs path
          = Return (n, errs))) /\
    (fs path = Denied ->
     ValidateFixedSql.validate_sql_file fs path = Raise PermissionError) /\
    (fs path = Undecodable ->
     ValidateFixedSql.validate_sql_file fs path = Raise UnicodeDecodeError).
Proof.
  intros fs path.
  unfold ValidateFixedSql.validate_sql_file,
    ValidateMigrationImproved.validate_sql_file, read_text.
  split; [intros ->; reflexivity |].
  split; [| split; intros ->; reflexivity].
  intros content ->. split.
  - eexists. rewrite line_count_fold. unfold enumerate1.
    rewrite length_combine, length_seq, Nat.min_id. reflexivity.
  - eauto.
Qed.

Lemma missing_file_reported_witness :
  ValidateFixedSql.validate_sql_file
    (fun _ => Absent) (lit "db/mutations/insert_videos_migrated_fixed.sql")
  = Return (0, [lit "File not found: db/mutations/insert_videos_migrated_fixed.sql"]).
Proof.
  apply (proj1 (missing_file_reported
                  (fun _ => Absent)
                  (lit "db/mutations/insert_videos_migrated_fixed.sql"))).
  reflexivity.
Defined.

End FileSpec.

(* ------------------------------------------------------------------ *)
(** ** Counting characters *)

Lemma count_char_app c (a b : str) :
  count_char c (a ++ b) = count_char c a + count_char c b.
Proof. unfold count_char. now rewrite filter_app, length_app. Qed.

Lemma count_char_cons c x (s : str) :
  count_char c (x :: s) = (if (c =? x)%N then 1 else 0) + count_char c s.
Proof. unfold count_char. simpl. now destruct (c =? x)%N. Qed.

Lemma count_char_uint c (d : Decimal.uint) :
  (58 <= c)%N \/ (c < 48)%N ->
  count_char c (lit (NilEmpty.string_of_uint d)) = 0.
Proof.
  intro Hc.
  induction d; simpl; [reflexivity | ..];
    change (lit (String ?a ?s)) with (N_of_ascii a :: lit s);
    rewrite count_char_cons, IHd;
    match goal with
    | |- context [(c =? ?x)%N] =>
        let v := eval vm_compute in x in
        change x with v; destruct (N.eqb_spec c v); [lia | reflexivity]
    end.
Qed.

Lemma count_char_str_of_nat c n :
  (58 <= c)%N \/ (c < 48)%N -> count_char c (str_of_nat n) = 0.
Proof. apply count_char_uint. Qed.

(** [str(z)] is a minus sign and digits: no quote, no backslash. *)
Lemma count_char_str_of_Z c z :
  c = quote \/ c = backslash -> count_char c (str_of_Z z) = 0.
Proof.
  intro Hc. unfold str_of_Z.
  assert (Hr : (58 <= c)%N \/ (c < 48)%N)
    by (destruct Hc; subst c; [right | left]; vm_compute; congruence).
  destruct (Z.to_int z) as [d|d]; simpl.
  - now apply count_char_uint.
  - change (lit (String ?a ?s)) with (N_of_ascii a :: lit s).
    rewrite count_char_cons, count_char_uint by exact Hr.
    destruct Hc; subst c; reflexivity.
Qed.

Lemma count_char_replace_quote (s : str) :
  count_char quote (replace_char quote [quote; quote] s)
  = 2 * count_char quote s.
Proof.
  induction s as [|x s IH]; [reflexivity |].
  unfold replace_char in *. simpl flat_map.
  rewrite count_char_app, IH, count_char_cons.
  rewrite (N.eqb_sym quote x).
  destruct (N.eqb_spec x quote) as [->|Hx].
  - vm_compute (count_char quote [quote; quote]). lia.
  - rewrite count_char_cons. rewrite (N.eqb_sym quote x).
    destruct (N.eqb_spec x quote); [contradiction |]. simpl. lia.
Qed.

Lemma count_char_join c sep (parts : list str) :
  count_char c sep = 0 ->
  count_char c (join sep parts)
  = fold_right (fun p n => count_char c p + n) 0 parts.
Proof.
  intro Hsep. induction parts as [|p parts IH]; [reflexivity |].
  destruct parts as [|p2 parts].
  - simpl. lia.
  - change (join sep (p :: p2 :: parts))
      with (p ++ sep ++ join sep (p2 :: parts)).
    rewrite !count_char_app, Hsep, IH. reflexivity.
Qed.

(** Without a backslash nothing is escaped: the validator's count of
    unescaped quotes is the plain count. *)
Lemma quote_fold_no_backslash (s : str) : forall k ps,
  count_char backslash s = 0 ->
  length (ValidateMigrationImproved.quote_positions
            (fold_left ValidateMigrationImproved.quote_step
                       (combine (seq k (length s)) s)
                       (ValidateMigrationImproved.mkQuoteScan ps false)))
  = length ps + count_char quote s.
Proof.
  induction s as [|x s IH]; intros k ps Hb.
  - simpl. unfold count_char. simpl. lia.
  - rewrite count_char_cons in Hb. rewrite count_char_cons.
    change (fold_left ValidateMigrationImproved.quote_step
              (combine (seq k (length (x :: s))) (x :: s))
              (ValidateMigrationImproved.mkQuoteScan ps false))
      with (fold_left ValidateMigrationImproved.quote_step
              (combine (seq (S k) (length s)) s)
              (ValidateMigrationImproved.quote_step
                 (ValidateMigrationImproved.mkQuoteScan ps false) (k, x))).
    assert (E : ValidateMigrationImproved.quote_step
                  (ValidateMigrationImproved.mkQuoteScan ps false) (k, x)
                = if (x =? backslash)%N
                  then ValidateMigrationImproved.mkQuoteScan ps true
                  else if (x =? quote)%N
                       then ValidateMigrationImproved.mkQuoteScan (ps ++ [k]) false
                       else ValidateMigrationImproved.mkQuoteScan ps false)
      by reflexivity.
    rewrite E. clear E.
    rewrite (N.eqb_sym backslash x) in Hb. rewrite (N.eqb_sym quote x).
    destruct (x =? backslash)%N; [discriminate |].
    destruct (x =? quote)%N.
    + rewrite IH by exact Hb. rewrite length_app. simpl. lia.
    + rewrite IH by exact Hb. lia.
Qed.

Lemma real_quotes_no_backslash (s : str) :
  count_char backslash s = 0 ->
  ValidateMigrationImproved.real_quotes s = count_char quote s.
Proof.
  intro Hb. unfold ValidateMigrationImproved.real_quotes,
    ValidateMigrationImproved.enumerate0.
  now rewrite quote_fold_no_backslash.
Qed.

(** Doubling the quotes changes the count of no other character. *)
Lemma count_char_replace_other c (s : str) :
  c <> quote ->
  count_char c (replace_char quote [quote; quote] s) = count_char c s.
Proof.
  intro Hc. induction s as [|x s IH]; [reflexivity |].
  unfold replace_char in *. cbn [flat_map].
  rewrite count_char_app, IH, (count_char_cons c x s).
  destruct (N.eqb_spec x quote) as [->|Hx].
  - rewrite !count_char_cons.
    destruct (N.eqb_spec c quote); [contradiction | reflexivity].
  - rewrite count_char_cons. change (count_char c []) with 0. lia.
Qed.

(** [str(z)] holds no line break. *)
Lemma count_char_str_of_Z_break c z :
  c = newline \/ c = carriage_return -> count_char c (str_of_Z z) = 0.
Proof.
  intro Hc. unfold str_of_Z.
  assert (Hr : (58 <= c)%N \/ (c < 48)%N)
    by (right; destruct Hc; subst c; reflexivity).
  destruct (Z.to_int z) as [d|d]; simpl.
  - now apply count_char_uint.
  - change (lit (String ?a ?s)) with (N_of_ascii a :: lit s).
    rewrite count_char_cons, count_char_uint by exact Hr.
    destruct Hc; subst c; reflexivity.
Qed.

(** A text without a carriage return is read as it was written. *)
Lemma universal_newlines_no_cr (s : str) :
  count_char carriage_return s = 0 -> universal_newlines s = s.
Proof.
  induction s as [|c s IH]; [reflexivity |].
  rewrite count_char_cons, (N.eqb_sym carriage_return c).
  intro H. cbn [universal_newlines].
  destruct (c =? carriage_return)%N; [discriminate H |].
  now rewrite IH by exact H.
Qed.

(* ------------------------------------------------------------------ *)
(** ** Generated statements (migrate_videos_to_d1.py) *)

Module GenerateSpec.

Import MigrateVideosToD1.

Section Generated.

Variable float : Type.
Variable float_str : float -> str.
Variable bytes_str : list N -> str.

(** [str(f)] of a float is made of digits, a sign, a point, an exponent
    mark or the letters of [inf] and [nan]. *)
Hypothesis float_str_plain : forall f, count_char quote (float_str f) = 0.

Lemma escape_sql_string_even (v : value float) :
  Nat.even (count_char quote (escape_sql_string float_str bytes_str v)) = true.
Proof.
  assert (Hq : forall s : str,
             Nat.even (count_char quote
                         ([quote] ++ replace_char quote [quote; quote] s
                            ++ [quote])) = true).
  { intro s. rewrite !count_char_app, count_char_replace_quote.
    change (count_char quote [quote]) with 1.
    replace (1 + (2 * count_char quote s + 1))
      with (2 * (1 + count_char quote s)) by lia.
    rewrite Nat.even_mul. reflexivity. }
  destruct v as [|b|z|f|s|b]; simpl.
  - reflexivity.
  - now destruct b.
  - now rewrite count_char_str_of_Z by (left; reflexivity).
  - now rewrite float_str_plain.
  - apply Hq.
  - apply Hq.
Qed.

Lemma join_values_even (vs : list (value float)) :
  Nat.even
    (count_char quote
       (join (lit ", ")
             (List.map (escape_sql_string float_str bytes_str) vs))) = true.
Proof.
  rewrite count_char_join by reflexivity.
  induction vs as [|v vs IH]; [reflexivity |]. simpl.
  now rewrite Nat.even_add, escape_sql_string_even, IH.
Qed.

Lemma join_keys_plain (ks : list str) :
  Forall (fun k => count_char quote k = 0) ks ->
  count_char quote (join (lit ", ") ks) = 0.
Proof.
  intro H. rewrite count_char_join by reflexivity.
  induction H as [|k ks Hk _ IH]; [reflexivity |]. simpl. now rewrite Hk, IH.
Qed.

(** The statement text, cut before its final semicolon. *)
Lemma generate_insert_statement_snoc (row : dict float) :
  exists body,
    generate_insert_statement float_str bytes_str row = body ++ [semicolon].
Proof.
  unfold generate_insert_statement.
  set (columns := join (lit ", ") (keys row)).
  set (vals := join (lit ", ")
                 (List.map (escape_sql_string float_str bytes_str)
                           (values row))).
  exists (lit "INSERT INTO videos (" ++ columns ++ lit ") VALUES ("
            ++ vals ++ [rparen]).
  change (lit ");") with ([rparen] ++ [semicolon]).
  generalize (lit "INSERT INTO videos (") (lit ") VALUES (").
  intros a b. now rewrite <- !app_assoc.
Qed.

Lemma generate_insert_statement_strip (row : dict float) :
  strip (generate_insert_statement float_str bytes_str row)
  = generate_insert_statement float_str bytes_str row.
Proof.
  destruct (generate_insert_statement_snoc row) as [body Hb].
  rewrite Hb, strip_snoc by reflexivity. f_equal.
  assert (Hl : lstrip (body ++ [semicolon]) = body ++ [semicolon]).
  { rewrite <- Hb. unfold generate_insert_statement.
    change (lit "INSERT INTO videos (")
      with (73%N :: List.tl (lit "INSERT INTO videos (")).
    generalize (List.tl (lit "INSERT INTO videos (")). intro a.
    reflexivity. }
  rewrite lstrip_snoc in Hl by reflexivity.
  now apply app_inv_tail in Hl.
Qed.

Lemma generate_insert_statement_prefix (row : dict float) :
  startswith (generate_insert_statement float_str bytes_str row)
             (lit "INSERT INTO videos") = true.
Proof.
  unfold generate_insert_statement.
  generalize (join (lit ", ") (keys row) ++ lit ") VALUES (" ++
              join (lit ", ")
                (List.map (escape_sql_string float_str bytes_str)
                          (values row)) ++ lit ");").
  intro rest. reflexivity.
Qed.

Lemma generate_insert_statement_count (row : dict float) :
  Forall (fun k => count_char quote k = 0) (keys row) ->
  Nat.even
    (count_char quote (generate_insert_statement float_str bytes_str row))
  = true.
Proof.
  intro Hk. unfold generate_insert_statement.
  rewrite !count_char_app, join_keys_plain by exact Hk.
  change (count_char quote (lit "INSERT INTO videos (")) with 0.
  change (count_char quote (lit ") VALUES (")) with 0.
  change (count_char quote (lit ");")) with 0.
  rewrite Nat.add_0_r. simpl. apply join_values_even.
Qed.

End Generated.

Lemma even_mod2 (n : nat) : Nat.even n = true -> n mod 2 = 0.
Proof.
  intro H. apply Nat.even_spec in H. destruct H as [k ->].
  rewrite Nat.mul_comm. apply Nat.Div0.mod_mul.
Qed.

(** The rows [migrate] hands to [generate_insert_statement] come from
    [transform_row]: twelve fixed column names, none with a quote. *)
Lemma transform_row_keys_plain (float : Type) (row t : dict float) :
  transform_row row = Some t ->
  Forall (fun k => count_char quote k = 0) (keys t).
Proof.
  unfold transform_row. destruct (get_opt row (lit "video_id")); [| discriminate].
  intro H. injection H as <-. unfold keys. simpl List.map.
  repeat (constructor; [reflexivity |]). constructor.
Qed.

End GenerateSpec.

(* ------------------------------------------------------------------ *)
(** ** Exit codes *)

Module ExitCodeSpec.

Lemma firstn_add (A : Type) (a b : nat) : forall l : list A,
  firstn (a + b) l = firstn a l ++ firstn b (skipn a l).
Proof.
  induction a as [|a IH]; intro l; [reflexivity |].
  destruct l as [|x l]; simpl.
  - now rewrite firstn_nil.
  - now rewrite IH.
Qed.

Lemma slices_concat (A : Type) (step m : nat) (l : list A) :
  concat (List.map (fun k => slice l (k * step) (k * step + step)) (seq 0 m))
  = firstn (m * step) l.
Proof.
  induction m as [|m IH]; [reflexivity |].
  rewrite seq_S, map_app, concat_app, IH. simpl.
  rewrite app_nil_r. unfold slice.
  replace (m * step + step - m * step) with step by lia.
  replace (step + m * step) with (m * step + step) by lia.
  now rewrite firstn_add.
Qed.


Section RowsToFile.

Import MigrateVideosToD1.

Variable float : Type.
Variable float_str : float -> str.
Variable float_truthy : float -> bool.
Variable bytes_str : list N -> str.

(** A row succeeds when [validate_row] accepts it. *)
Definition row_ok (row : dict float) : bool :=
  fst (validate_row float_truthy row).

Lemma row_ok_has_video_id row :
  row_ok row = true -> exists v, get_opt row (lit "video_id") = Some v.
Proof.
  unfold row_ok, validate_row, get, get_default.
  destruct (get_opt row (lit "video_id")) as [v|]; [eauto |].
  simpl. discriminate.
Qed.

(** A row never makes the loop raise; an invalid one adds one to
    [failed], a valid one leaves [failed] alone. *)
Lemma migrate_row_failed batch_size m row :
  exists m',
    migrate_row float_str float_truthy bytes_str batch_size m row = Some m' /\
    failed m' = failed m + (if row_ok row then 0 else 1).
Proof.
  unfold migrate_row.
  pose proof (@row_ok_has_video_id row) as Hid. unfold row_ok in *.
  destruct (validate_row float_truthy row) as [ok msg]. simpl in *.
  destruct ok; simpl.
  - destruct (Hid eq_refl) as [v Hv]. unfold transform_row. rewrite Hv.
    match goal with
    | |- context [if ?b then _ else _] => destruct b
    end; eexists; (split; [reflexivity | simpl; lia]).
  - eexists. split; [reflexivity | reflexivity].
Qed.

Lemma migrate_rows_failed batch_size rows : forall m,
  exists m',
    migrate_rows float_str float_truthy bytes_str batch_size m rows = Some m' /\
    failed m' = failed m + length (filter (fun r => negb (row_ok r)) rows).
Proof.
  induction rows as [|row rows IH]; intro m; simpl.
  - exists m. split; [reflexivity | lia].
  - destruct (migrate_row_failed batch_size m row) as [m1 [H1 F1]].
    rewrite H1. destruct (IH m1) as [m2 [H2 F2]].
    exists m2. split; [exact H2 |]. rewrite F2, F1.
    destruct (row_ok row); simpl; lia.
Qed.

Lemma no_failed_rows rows :
  length (filter (fun r => negb (row_ok r)) rows) = 0
  <-> Forall (fun r => row_ok r = true) rows.
Proof.
  induction rows as [|row rows IH]; simpl.
  - split; [constructor | reflexivity].
  - destruct (row_ok row) eqn:E; simpl.
    + rewrite IH. split; [now constructor | now inversion 1].
    + split; [discriminate | inversion 1; congruence].
Qed.

Lemma exit_code_rows out rows :
  exit_code float_str float_truthy bytes_str out rows
  = if 0 <? length (filter (fun r => negb (row_ok r)) rows) then 1 else 0.
Proof.
  unfold exit_code, migrate.
  destruct (migrate_rows_failed 100 rows (mkMigration 0 0 [] [] out))
    as [m [Hm Hf]].
  rewrite Hm. simpl in Hf. rewrite <- Hf.
  now destruct (truthy (statements m)).
Qed.

End RowsToFile.

Section Batches.

Import ExecuteMigrationBatches.

Variable World : Type.
Variable wrangler : str -> nat -> World -> run_result * World.

(** Batch number [k + 1]: statements [50 k] to [50 k + 49], one per line. *)
Definition batch (statements : list str) (k : nat) : str :=
  join [newline]
       (slice statements (k * batch_size) (k * batch_size + batch_size)).

(** The [m] batches from number [k + 1] on are run one after the other and
    the tool returns 0 for each. *)
Fixpoint batches_succeed (statements : list str) (k m : nat) (w : World)
  : Prop :=
  match m with
  | O => True
  | S m' =>
      match wrangler (batch statements k) (k + 1) w with
      | (Completed rc, w') =>
          rc = 0%Z /\ batches_succeed statements (S k) m' w'
      | (Crashed, _) => False
      end
  end.

Definition batch_total (statements : list str) : nat :=
  (length statements + batch_size - 1) / batch_size.

Lemma fold_stopped statements total l : forall p,
  stopped p = true ->
  fold_left (run_batch wrangler statements total) l p = p.
Proof.
  induction l as [|i l IH]; intros p Hp; [reflexivity |].
  simpl. unfold run_batch at 2. rewrite Hp. now apply IH.
Qed.

Lemma fold_batches statements total m : forall k p,
  stopped p = false ->
  let p' := fold_left (run_batch wrangler statements total)
                      (List.map (fun k => k * batch_size) (seq k m)) p in
  success_count p' <= success_count p + m /\
  (success_count p' = success_count p + m
   <-> batches_succeed statements k m (world p)).
Proof.
  induction m as [|m IH]; intros k p Hp; simpl.
  - split; [lia | split; [trivial | lia]].
  - unfold run_batch at 2 4. rewrite Hp.
    rewrite Nat.div_mul by discriminate.
    fold (batch statements k).
    unfold execute_batch.
    destruct (wrangler (batch statements k) (k + 1) (world p))
      as [[rc|] w'].
    + destruct (Z.eqb_spec rc 0) as [Hrc|Hrc].
      * destruct (IH (S k) (mkProgress (success_count p + 1) false w')
                     eq_refl) as [Hle Hiff].
        simpl in Hle, Hiff. split; [lia |].
        rewrite <- Hiff. split; [intro; split; [exact Hrc | lia] |].
        intros [_ H]. lia.
      * rewrite fold_stopped by reflexivity. simpl.
        split; [lia | split; [lia | intros [H _]; contradiction]].
    + rewrite fold_stopped by reflexivity. simpl.
      split; [lia | split; [lia | contradiction]].
Qed.

Lemma run_statements_success statements w :
  fst (run_statements wrangler statements w) = true
  <-> batches_succeed statements 0 (batch_total statements) w.
Proof.
  unfold run_statements, range_step. simpl fst.
  fold (batch_total statements).
  destruct (fold_batches statements (batch_total statements)
              (batch_total statements) 0 (mkProgress 0 false w) eq_refl)
    as [_ Hiff].
  simpl in Hiff. rewrite <- Hiff. apply Nat.eqb_eq.
Qed.

End Batches.

Section Rest.

Import MigrateVideosRestApi.

Variable float : Type.
Variable float_truthy : float -> bool.
Variable World : Type.
Variable post_query : value float -> World -> query_result * World.
Variable post_video : dict float -> World -> post_result * World.

Local Abbreviation validate_row := (validate_row float_truthy).
Local Abbreviation transform_row := (transform_row float_truthy).
Local Abbreviation check_video_exists := (check_video_exists post_query).
Local Abbreviation insert_video := (insert_video post_query post_video).

(** Every row, taken in order, is valid and either is already there or is
    accepted by the endpoint with status 200 or 201. *)
Fixpoint rows_succeed (rows : list (dict float)) (w : World) : Prop :=
  match rows with
  | [] => True
  | row :: rest =>
      fst (validate_row row) = true /\
      match transform_row row with
      | None => False
      | Some video =>
          let (found, w1) :=
            check_video_exists (get video (lit "video_id")) w in
          if found then rows_succeed rest w1
          else
            match post_video video w1 with
            | (Response status_code _, w2) =>
                (status_code = 200 \/ status_code = 201) /\
                rows_succeed rest w2
            | (PostRaised _, _) => False
            end
      end
  end.

(** What sending one video does: whether it went well, and the world
    after it. *)
Definition send (video : dict float) (w : World) : bool * World :=
  let (found, w1) := check_video_exists (get video (lit "video_id")) w in
  if found then (true, w1)
  else
    match post_video video w1 with
    | (Response status_code _, w2) =>
        ((status_code =? 200) || (status_code =? 201), w2)
    | (PostRaised _, w2) => (false, w2)
    end.

(** The number of videos of a list that fail to be sent, and the world
    after all of them. *)
Fixpoint send_all (videos : list (dict float)) (w : World) : nat * World :=
  match videos with
  | [] => (0, w)
  | video :: rest =>
      let (ok, w1) := send video w in
      let (n, w2) := send_all rest w1 in
      ((if ok then 0 else 1) + n, w2)
  end.

Definition valid_of (rows : list (dict float)) : list (dict float) :=
  flat_map (fun row =>
              if fst (validate_row row)
              then match transform_row row with
                   | Some video => [video]
                   | None => []
                   end
              else []) rows.

Definition invalid_count (rows : list (dict float)) : nat :=
  length (filter (fun row => negb (fst (validate_row row))) rows).

Lemma valid_row_transforms row :
  fst (validate_row row) = true -> exists video, transform_row row = Some video.
Proof.
  unfold MigrateVideosRestApi.validate_row,
    MigrateVideosRestApi.transform_row, get, get_default.
  destruct (get_opt row (lit "video_id")) as [v|]; [eauto |].
  simpl. discriminate.
Qed.

Lemma insert_video_send r video :
  world (insert_video r video) = snd (send video (world r)) /\
  batch_failed (insert_video r video)
    = batch_failed r + (if fst (send video (world r)) then 0 else 1) /\
  failed (obj (insert_video r video)) = failed (obj r) /\
  length (errors (obj (insert_video r video)))
    = length (errors (obj r))
      + (if fst (send video (world r)) then 0 else 1).
Proof.
  unfold MigrateVideosRestApi.insert_video, send.
  destruct (check_video_exists (get video (lit "video_id")) (world r))
    as [found w1].
  destruct found; simpl; [repeat split; lia |].
  destruct (post_video video w1) as [[code text|msg] w2].
  - destruct ((code =? 200) || (code =? 201)); simpl;
      rewrite ?length_app; simpl; repeat split; lia.
  - simpl. rewrite length_app. simpl. repeat split; lia.
Qed.

Lemma insert_fold_send videos : forall r,
  let r' := fold_left insert_video videos r in
  world r' = snd (send_all videos (world r)) /\
  batch_failed r' = batch_failed r + fst (send_all videos (world r)) /\
  failed (obj r') = failed (obj r) /\
  length (errors (obj r'))
    = length (errors (obj r)) + fst (send_all videos (world r)).
Proof.
  induction videos as [|video videos IH]; intro r; simpl.
  - repeat split; lia.
  - destruct (insert_video_send r video) as (Hw & Hf & Ho & He).
    destruct (IH (insert_video r video)) as (Hw' & Hf' & Ho' & He').
    rewrite Hw in Hw', Hf', He'.
    destruct (send video (world r)) as [ok w1]. simpl in *.
    destruct (send_all videos w1) as [n w2]. simpl in *.
    repeat split; lia || congruence.
Qed.

Lemma validate_batch_valid batch : forall valid o,
  exists o',
    validate_batch float_truthy batch valid o
      = Some (valid ++ valid_of batch, o') /\
    failed o' = failed o + invalid_count batch /\
    length (errors o') = length (errors o) + invalid_count batch.
Proof.
  induction batch as [|row batch IH]; intros valid o.
  - exists o. simpl. rewrite app_nil_r. unfold invalid_count. simpl.
    repeat split; lia.
  - simpl validate_batch. unfold valid_of, invalid_count.
    simpl flat_map. simpl filter.
    pose proof (@valid_row_transforms row) as Ht.
    destruct (validate_row row) as [ok msg]. simpl in *.
    destruct ok; simpl.
    + destruct (Ht eq_refl) as [video Hv]. rewrite Hv.
      destruct (IH (valid ++ [video]) o) as (o' & H1 & H2 & H3).
      exists o'. rewrite H1, <- app_assoc. repeat split; assumption.
    + match goal with
      | |- context [validate_batch _ batch valid ?o1] =>
          destruct (IH valid o1) as (o' & H1 & H2 & H3)
      end.
      exists o'. rewrite H1. simpl in *. rewrite length_app in H3.
      simpl in H3. fold (invalid_count batch).
      repeat split; lia.
Qed.

(** Failures among some rows, invalid or refused, and the world after. *)
Definition failures (rows : list (dict float)) (w : World) : nat * World :=
  (invalid_count rows + fst (send_all (valid_of rows) w),
   snd (send_all (valid_of rows) w)).

Lemma send_all_app a : forall b w,
  send_all (a ++ b) w
  = (fst (send_all a w) + fst (send_all b (snd (send_all a w))),
     snd (send_all b (snd (send_all a w)))).
Proof.
  induction a as [|v a IH]; intros b w; simpl.
  - now destruct (send_all b w).
  - destruct (send v w) as [ok w1]. rewrite IH.
    destruct (send_all a w1) as [n w2]. simpl.
    f_equal. lia.
Qed.

Lemma failures_app a b w :
  failures (a ++ b) w
  = (fst (failures a w) + fst (failures b (snd (failures a w))),
     snd (failures b (snd (failures a w)))).
Proof.
  unfold failures, valid_of, invalid_count.
  rewrite flat_map_app, filter_app, length_app, send_all_app. simpl.
  f_equal. lia.
Qed.

Lemma migrate_batch_failures batch_size videos o w i :
  exists o',
    migrate_batch float_truthy post_query post_video batch_size videos
                  (Some (o, w)) i
    = Some (o', snd (failures (slice videos i (i + batch_size)) w)) /\
    failed o'
    = failed o + fst (failures (slice videos i (i + batch_size)) w) /\
    length (errors o')
    = length (errors o) + fst (failures (slice videos i (i + batch_size)) w).
Proof.
  unfold migrate_batch, failures.
  destruct (validate_batch_valid (slice videos i (i + batch_size)) [] o)
    as (o1 & H1 & H2 & H3).
  rewrite H1. simpl app.
  destruct (valid_of (slice videos i (i + batch_size))) as [|v vs] eqn:E.
  - exists o1. simpl. repeat split; lia.
  - simpl truthy. cbv iota.
    unfold insert_video_batch.
    destruct (insert_fold_send (v :: vs) (mkBatchRun 0 0 o1 w))
      as (Hw & Hf & Ho & He).
    simpl world in *. simpl batch_failed in *. simpl obj in *.
    eexists. split; [rewrite Hw; reflexivity |].
    simpl failed. simpl errors. cbn [fst snd]. split; lia.
Qed.

Lemma migrate_fold_failures batch_size videos m : forall o w,
  exists o',
    fold_left (migrate_batch float_truthy post_query post_video
                             batch_size videos)
              (List.map (fun k => k * batch_size) (seq 0 m))
              (Some (o, w))
    = Some (o', snd (failures (firstn (m * batch_size) videos) w)) /\
    failed o'
    = failed o + fst (failures (firstn (m * batch_size) videos) w) /\
    length (errors o')
    = length (errors o) + fst (failures (firstn (m * batch_size) videos) w).
Proof.
  induction m as [|m IH]; intros o w.
  - exists o. simpl. unfold failures, invalid_count. simpl.
    repeat split; lia.
  - rewrite seq_S, map_app, fold_left_app. cbn [List.map Nat.add].
    destruct (IH o w) as (o1 & H1 & H2 & H3). rewrite H1.
    cbn [fold_left].
    destruct (migrate_batch_failures batch_size videos o1
                (snd (failures (firstn (m * batch_size) videos) w))
                (m * batch_size))
      as (o2 & G1 & G2 & G3).
    exists o2. rewrite G1.
    replace (S m * batch_size) with (m * batch_size + batch_size)
      by (simpl; lia).
    rewrite firstn_add, failures_app. cbn [fst snd].
    unfold slice in *.
    replace (m * batch_size + batch_size - m * batch_size)
      with batch_size in * by lia.
    repeat split; lia.
Qed.

Lemma failures_none rows : forall w,
  fst (failures rows w) = 0 <-> rows_succeed rows w.
Proof.
  induction rows as [|row rows IH]; intro w.
  - unfold failures, invalid_count. simpl. tauto.
  - specialize IH. unfold failures, invalid_count, valid_of in *.
    simpl flat_map. simpl filter. simpl rows_succeed.
    pose proof (@valid_row_transforms row) as Ht.
    destruct (validate_row row) as [ok msg]. simpl fst in *.
    destruct ok; simpl negb; cbv iota.
    + destruct (Ht eq_refl) as [video Hv]. rewrite Hv.
      simpl app. simpl send_all. unfold send.
      destruct (check_video_exists (get video (lit "video_id")) w)
        as [found w1].
      destruct found.
      * specialize (IH w1). simpl in IH.
        destruct (send_all _ w1) as [n w2]. simpl in *.
        rewrite <- IH. split; [intro; split; [reflexivity | lia] |].
        intros [_ H]. lia.
      * destruct (post_video video w1) as [[code text|msg'] w2].
        -- specialize (IH w2). simpl in IH.
           destruct (send_all _ w2) as [n w3]. simpl in *.
           rewrite <- IH.
           destruct (Nat.eqb_spec code 200) as [E1|E1];
             destruct (Nat.eqb_spec code 201) as [E2|E2]; simpl;
             split; try (intro; split; [reflexivity | split; [| lia]]);
             try (intros [_ [_ H]]; lia); try (left; assumption);
             try (right; assumption); try lia.
        -- destruct (send_all _ w2) as [n w3]. simpl.
           split; [lia | intros [_ []]].
    + simpl length. split; [lia | intros [H _]; discriminate].
Qed.

Lemma rest_exit_code batch_size report_raises videos w :
  (0 < batch_size)%Z ->
  exit_code float_truthy post_query post_video batch_size report_raises
            videos w
  = if 0 <? fst (failures videos w) then 1 else 0.
Proof.
  intro Hb. unfold exit_code, migrate, range.
  destruct videos as [|v videos].
  - reflexivity.
  - simpl truthy. simpl negb. cbv iota.
    destruct (Z.eqb_spec batch_size 0) as [E|_]; [lia |].
    destruct (Z.ltb_spec batch_size 0) as [E|_]; [lia |].
    assert (Hn : 0 < Z.to_nat batch_size) by lia.
    revert Hn. generalize (Z.to_nat batch_size). intros n Hn.
    unfold range_step.
    set (vs := v :: videos).
    destruct (migrate_fold_failures n vs
                ((length vs + n - 1) / n)
                (mkSelf (length vs) 0 0 0 []) w)
      as (o & H1 & H2 & H3).
    rewrite H1.
    assert (Hall : firstn ((length vs + n - 1) / n * n) vs = vs).
    { apply firstn_all2.
      pose proof (Nat.div_mod_eq (length vs + n - 1) n).
      pose proof (Nat.mod_upper_bound (length vs + n - 1) n).
      nia. }
    rewrite Hall in *. cbn [failed errors length Nat.add] in H2, H3.
    rewrite <- H2. rewrite <- H2 in H3.
    destruct (errors o) as [|e es]; cbn [length] in H3.
    + reflexivity.
    + destruct (failed o); [discriminate |].
      now destruct report_raises.
Qed.

(** A zero batch size makes [range] raise as soon as there is a row. *)
Lemma rest_exit_code_zero report_raises video videos w :
  exit_code float_truthy post_query post_video 0 report_raises
            (video :: videos) w
  = 1.
Proof. reflexivity. Qed.

(** With a negative batch size the loop has no index: no row is looked
    at. *)
Lemma rest_migrate_negative batch_size videos w :
  (batch_size < 0)%Z ->
  migrate float_truthy post_query post_video batch_size videos w
  = Some (mkSelf (length videos) 0 0 0 [], w).
Proof.
  intro Hb. unfold migrate, range.
  destruct videos as [|v videos]; [reflexivity |].
  simpl truthy. simpl negb. cbv iota.
  destruct (Z.eqb_spec batch_size 0) as [E|_]; [lia |].
  destruct (Z.ltb_spec batch_size 0) as [_|E]; [| lia].
  reflexivity.
Qed.

Lemma rest_exit_code_negative batch_size report_raises videos w :
  (batch_size < 0)%Z ->
  exit_code float_truthy post_query post_video batch_size report_raises
            videos w
  = 0.
Proof.
  intro Hb. unfold exit_code. rewrite rest_migrate_negative by exact Hb.
  reflexivity.
Qed.

End Rest.

(** The batches are consecutive slices of the statement list and leave
    nothing out. *)
Lemma batches_cover (statements : list str) :
  concat (List.map (fun k => slice statements
                               (k * ExecuteMigrationBatches.batch_size)
                               (k * ExecuteMigrationBatches.batch_size
                                + ExecuteMigrationBatches.batch_size))
                   (seq 0 (batch_total statements)))
  = statements.
Proof.
  rewrite slices_concat. apply firstn_all2.
  unfold batch_total.
  generalize (length statements). intro n.
  change ExecuteMigrationBatches.batch_size with 50.
  pose proof (Nat.div_mod_eq (n + 50 - 1) 50).
  pose proof (Nat.mod_upper_bound (n + 50 - 1) 50).
  lia.
Qed.

Lemma some_failed_rows (float : Type) (float_truthy : float -> bool)
  (rows : list (dict float)) :
  0 < length (filter (fun r => negb (row_ok float_truthy r)) rows)
  <-> Exists (fun r => row_ok float_truthy r = false) rows.
Proof.
  induction rows as [|row rows IH]; simpl.
  - split; [lia | inversion 1].
  - destruct (row_ok float_truthy row) eqn:E; simpl.
    + rewrite IH. split; [now constructor 2 |].
      inversion 1; [congruence | assumption].
    + split; [now constructor 1 | lia].
Qed.

(** C9 (amended) -- The exit status of each migration script.
    [migrate_videos_to_d1.py] ends with 0 exactly when [validate_row]
    accepts every row and with 1 exactly when it rejects some row.
    [execute_migration_batches.py] ends with 0 exactly when every batch,
    run in order, makes the tool return 0, and with 1 otherwise.
    [migrate_videos_rest_api.py], when [--batch-size] is positive, ends
    with 0 exactly when every row is valid and is either found on the
    remote side or accepted with status 200 or 201, and with 1 otherwise;
    when [--batch-size] is 0 it ends with 1 as soon as there is a row to
    migrate, whatever the rows are; when [--batch-size] is negative it ends
    with 0 whatever the rows are, and leaves the remote side untouched. *)
Theorem exit_code_reflects_failures :
  (forall (float : Type) (float_str : float -> str)
          (float_truthy : float -> bool) (bytes_str : list N -> str)
          (out : option str) (rows : list (dict float)),
      (MigrateVideosToD1.exit_code float_str float_truthy bytes_str out rows = 0
       <-> Forall (fun row =>
                     fst (MigrateVideosToD1.validate_row float_truthy row)
                     = true) rows) /\
      (MigrateVideosToD1.exit_code float_str float_truthy bytes_str out rows = 1
       <-> Exists (fun row =>
                     fst (MigrateVideosToD1.validate_row float_truthy row)
                     = false) rows)) /\
  (forall (World : Type)
          (wrangler : str -> nat -> World
                      -> ExecuteMigrationBatches.run_result * World)
          (content : str) (w : World),
      let statements := ExecuteMigrationBatches.statements_of content in
      (ExecuteMigrationBatches.exit_code wrangler content w = 0
       <-> batches_succeed wrangler statements 0 (batch_total statements) w) /\
      (ExecuteMigrationBatches.exit_code wrangler content w = 1
       <-> ~ batches_succeed wrangler statements 0 (batch_total statements) w))
  /\
  (forall (float : Type) (float_truthy : float -> bool) (World : Type)
          (post_query : value float -> World
                        -> MigrateVideosRestApi.query_result * World)
          (post_video : dict float -> World
                        -> MigrateVideosRestApi.post_result * World)
          (batch_size : Z) (report_raises : bool)
          (videos : list (dict float)) (w : World),
      ((0 < batch_size)%Z ->
       (MigrateVideosRestApi.exit_code float_truthy post_query post_video
          batch_size report_raises videos w = 0
        <-> rows_succeed float_truthy post_query post_video videos w) /\
       (MigrateVideosRestApi.exit_code float_truthy post_query post_video
          batch_size report_raises videos w = 1
        <-> ~ rows_succeed float_truthy post_query post_video videos w)) /\
      (batch_size = 0%Z -> videos <> [] ->
       MigrateVideosRestApi.exit_code float_truthy post_query post_video
         batch_size report_raises videos w = 1) /\
      ((batch_size < 0)%Z ->
       MigrateVideosRestApi.exit_code float_truthy post_query post_video
         batch_size report_raises videos w = 0 /\
       MigrateVideosRestApi.migrate float_truthy post_query post_video
         batch_size videos w
       = Some (MigrateVideosRestApi.mkSelf (length videos) 0 0 0 [], w))).
Proof.
  split; [| split].
  - intros. rewrite exit_code_rows.
    fold (row_ok float_truthy).
    change (fun row => fst (MigrateVideosToD1.validate_row float_truthy row)
                       = true)
      with (fun row => row_ok float_truthy row = true).
    change (fun row => fst (MigrateVideosToD1.validate_row float_truthy row)
                       = false)
      with (fun row => row_ok float_truthy row = false).
    rewrite <- no_failed_rows, <- some_failed_rows.
    destruct (Nat.ltb_spec 0
                (length (filter (fun r => negb (row_ok float_truthy r)) rows)));
      split; split; intro; lia || discriminate || reflexivity.
  - intros World wrangler content w statements.
    unfold ExecuteMigrationBatches.exit_code, ExecuteMigrationBatches.main.
    fold statements.
    rewrite <- run_statements_success.
    destruct (fst (ExecuteMigrationBatches.run_statements wrangler statements w));
      split; split; intro; congruence || discriminate || reflexivity.
  - intros float float_truthy World post_query post_video batch_size
           report_raises videos w.
    split; [| split].
    + intro Hb.
      rewrite rest_exit_code by exact Hb.
      rewrite <- failures_none.
      destruct (Nat.ltb_spec 0
                  (fst (failures float_truthy post_query post_video videos w)));
        split; split; intro; lia || discriminate || reflexivity.
    + intros Hb Hv. subst batch_size.
      destruct videos as [|video videos]; [congruence |].
      apply rest_exit_code_zero.
    + intro Hb. split.
      * now apply rest_exit_code_negative.
      * now apply rest_migrate_negative.
Qed.

Lemma exit_code_reflects_failures_witness :
  MigrateVideosRestApi.exit_code
    (fun _ : unit => true)
    (fun _ (w : unit) => (MigrateVideosRestApi.Count 0, w))
    (fun _ (w : unit) => (MigrateVideosRestApi.Response 201 [], w))
    25 false
    [[(lit "video_id", VStr (lit "abc")); (lit "view_count", VInt 7)]] tt
  = 0 /\
  MigrateVideosRestApi.exit_code
    (fun _ : unit => true)
    (fun _ (w : unit) => (MigrateVideosRestApi.Count 0, w))
    (fun _ (w : unit) => (MigrateVideosRestApi.Response 201 [], w))
    0 false
    [[(lit "video_id", VStr (lit "abc")); (lit "view_count", VInt 7)]] tt
  = 1 /\
  MigrateVideosRestApi.exit_code
    (fun _ : unit => true)
    (fun _ (w : unit) => (MigrateVideosRestApi.Count 0, w))
    (fun _ (w : unit) => (MigrateVideosRestApi.Response 500 [], w))
    (-5) false
    [[(lit "view_count", VStr (lit "many"))]] tt
  = 0.
Proof.
  split; [| split].
  - apply (proj1 (proj1 (proj2 (proj2 exit_code_reflects_failures)
                           unit (fun _ => true) unit
                           (fun _ w => (MigrateVideosRestApi.Count 0, w))
                           (fun _ w => (MigrateVideosRestApi.Response 201 [], w))
                           25%Z false
                           [[(lit "video_id", VStr (lit "abc"));
                             (lit "view_count", VInt 7)]] tt)
                    (eq_refl : (0 < 25)%Z))).
    simpl. repeat split. right. reflexivity.
  - apply (proj1 (proj2 (proj2 (proj2 exit_code_reflects_failures)
                           unit (fun _ => true) unit
                           (fun _ w => (MigrateVideosRestApi.Count 0, w))
                           (fun _ w => (MigrateVideosRestApi.Response 201 [], w))
                           0%Z false
                           [[(lit "video_id", VStr (lit "abc"));
                             (lit "view_count", VInt 7)]] tt))).
    + reflexivity.
    + discriminate.
  - apply (proj1 (proj2 (proj2 (proj2 (proj2 exit_code_reflects_failures)
                                  unit (fun _ => true) unit
                                  (fun _ w => (MigrateVideosRestApi.Count 0, w))
                                  (fun _ w =>
                                     (MigrateVideosRestApi.Response 500 [], w))
                                  (-5)%Z false
                                  [[(lit "view_count", VStr (lit "many"))]] tt))
                    (eq_refl : (-5 < 0)%Z))).
Defined.

(** C9 (as stated, refuted) -- [migrate_videos_rest_api.py] run with a
    [--batch-size] that is not positive: with [-1] a row
    without [video_id], which [validate_row] rejects, is never looked at and
    the script ends with 0; with [0] a row that is valid and that the
    endpoint accepts (the script ends with 0 on it for batch size 25) makes
    the script end with 1. *)
Lemma nonpositive_batch_size_exit_codes :
  fst (MigrateVideosRestApi.validate_row
         (fun _ : unit => true) [(lit "video_id", VNone)]) = false /\
  MigrateVideosRestApi.exit_code
    (fun _ : unit => true)
    (fun _ (w : unit) => (MigrateVideosRestApi.Count 0, w))
    (fun _ (w : unit) => (MigrateVideosRestApi.Response 201 [], w))
    (-1) false [[(lit "video_id", VNone)]] tt
  = 0 /\
  MigrateVideosRestApi.exit_code
    (fun _ : unit => true)
    (fun _ (w : unit) => (MigrateVideosRestApi.Count 0, w))
    (fun _ (w : unit) => (MigrateVideosRestApi.Response 201 [], w))
    25 false
    [[(lit "video_id", VStr (lit "abc")); (lit "view_count", VInt 7)]] tt
  = 0 /\
  MigrateVideosRestApi.exit_code
    (fun _ : unit => true)
    (fun _ (w : unit) => (MigrateVideosRestApi.Count 0, w))
    (fun _ (w : unit) => (MigrateVideosRestApi.Response 201 [], w))
    0 false
    [[(lit "video_id", VStr (lit "abc")); (lit "view_count", VInt 7)]] tt
  = 1.
Proof. vm_compute. repeat split. Qed.

End ExitCodeSpec.

(* ================================================================== *)
(** * Further properties of the scripts *)

(** ** The statements the splitter returns *)

Module SplitterProps.

Import Splitter SplitterFacts.

(** Whatever holds of every text of the form "buffer without its leading
    blanks, then a semicolon" holds of every statement the loop returns. *)
Lemma statements_all (P : str -> Prop) g :
  (forall cur, P (lstrip cur ++ [semicolon])) ->
  forall text st,
    Forall P (statements st) ->
    Forall P (statements (scan_from g st text)).
Proof.
  intros HP text. induction text as [|c text IH]; intros st Hst.
  - exact Hst.
  - rewrite scan_from_cons. apply IH.
    destruct (scan_char_cases g st c) as [[H1 _]|(-> & _ & _ & H)].
    + now rewrite H1.
    + rewrite H, append_statement_semicolon. simpl.
      apply Forall_app. split; [exact Hst |].
      constructor; [apply HP | constructor].
Qed.

Lemma split_trimmed :
  forall guarded text,
    Forall (fun s => endswith s (lit ";") = true /\
                     strip s = s /\
                     truthy (strip s) = true)
           (split guarded text).
Proof.
  intros g text. unfold split, scan.
  apply statements_all; [| constructor].
  intro cur.
  assert (Hs : strip (lstrip cur ++ [semicolon]) = lstrip cur ++ [semicolon])
    by (rewrite strip_snoc by reflexivity; now rewrite lstrip_idempotent).
  repeat split.
  - unfold endswith. rewrite rev_app_distr. simpl.
    now destruct (rev (lstrip cur)).
  - exact Hs.
  - rewrite Hs. now destruct (lstrip cur).
Qed.

(** The splitter's statements are trimmed, end with the semicolon that
    closed them, and are therefore never blank. *)
Theorem split_statements_trimmed :
  forall guarded text,
    Forall (fun s => endswith s (lit ";") = true /\
                     strip s = s /\
                     truthy (strip s) = true)
           (split guarded text).
Proof. exact split_trimmed. Qed.

(** The guard [if current_statement.strip():] of [test_d1_inserts.py]
    never skips a statement: with or without it the loop returns the same
    list. *)
Theorem split_guard_never_fires :
  forall text, split true text = split false text.
Proof. exact split_guard_irrelevant. Qed.

Lemma count_char_zero_cons c x (s : str) :
  count_char c (x :: s) = 0 -> x <> c /\ count_char c s = 0.
Proof.
  unfold count_char. simpl.
  destruct (N.eqb_spec c x); simpl; [discriminate |].
  intro H. split; [congruence | exact H].
Qed.

Lemma scan_plain_text g text : forall st,
  in_string st = false -> escape_next st = false ->
  count_char quote text = 0 -> count_char backslash text = 0 ->
  in_string (scan_from g st text) = false /\
  escape_next (scan_from g st text) = false /\
  length (statements (scan_from g st text))
  = length (statements st) + count_char semicolon text.
Proof.
  induction text as [|c text IH]; intros st Hi He Hq Hb.
  - repeat split; trivial; unfold count_char; simpl; lia.
  - apply count_char_zero_cons in Hq. destruct Hq as [Hcq Hq].
    apply count_char_zero_cons in Hb. destruct Hb as [Hcb Hb].
    rewrite scan_from_cons, count_char_cons.
    assert (Hstep :
              in_string (scan_char g st c) = false /\
              escape_next (scan_char g st c) = false /\
              length (statements (scan_char g st c))
              = length (statements st)
                + (if (semicolon =? c)%N then 1 else 0)).
    { destruct (N.eqb_spec semicolon c) as [<-|Hs].
      - assert (E : scan_char g st semicolon
                    = fresh (append_statement
                               g (statements st)
                               (current_statement st ++ [semicolon])) [])
          by (unfold scan_char; rewrite He, Hi; reflexivity).
        rewrite E, append_statement_semicolon. simpl.
        rewrite length_app. simpl. repeat split.
      - unfold scan_char. rewrite He, Hi.
        destruct (N.eqb_spec c backslash); [contradiction |].
        destruct (N.eqb_spec c quote); [contradiction |].
        destruct (N.eqb_spec c semicolon); [congruence |].
        simpl. repeat split. lia. }
    destruct Hstep as (Hi' & He' & Hl').
    destruct (IH (scan_char g st c) Hi' He' Hq Hb) as (H1 & H2 & H3).
    repeat split; trivial.
    rewrite H3, Hl'. lia.
Qed.

(** In a text without quotes and backslashes every semicolon separates:
    the splitter returns as many statements as there are semicolons. *)
Theorem split_counts_semicolons :
  forall guarded text,
    count_char quote text = 0 ->
    count_char backslash text = 0 ->
    length (split guarded text) = count_char semicolon text.
Proof.
  intros g text Hq Hb. unfold split, scan.
  destruct (scan_plain_text g text init eq_refl eq_refl Hq Hb)
    as (_ & _ & H).
  exact H.
Qed.

Lemma split_counts_semicolons_witness :
  length (split false (lit "INSERT INTO videos (a) VALUES (1); INSERT INTO videos (a) VALUES (2);"))
  = 2.
Proof.
  exact (split_counts_semicolons
           false
           (lit "INSERT INTO videos (a) VALUES (1); INSERT INTO videos (a) VALUES (2);")
           eq_refl eq_refl).
Defined.

Lemma split_even_quotes :
  forall guarded text,
    Forall (fun s =>
              Nat.odd (ValidateMigrationImproved.real_quotes s) = false)
           (split guarded text).
Proof.
  intros g text.
  assert (Hg : split g text = split false text).
  { unfold split, scan. now rewrite scan_from_guard_irrelevant. }
  rewrite Hg.
  eapply Forall_impl; [| apply Resplit.split_complete].
  intros s Hs.
  rewrite (ValidatorSpec.real_quotes_in_string false).
  unfold scan. change init with (fresh [] []).
  now rewrite (Hs [] (Forall_nil _)).
Qed.

(** Every statement the splitter returns holds an even number of
    unescaped quotes: on the statements of its own splitter the
    quote check of [validate_sql_file] cannot fail. *)
Theorem split_statements_even_quotes :
  forall guarded text,
    Forall (fun s =>
              Nat.odd (ValidateMigrationImproved.real_quotes s) = false)
           (split guarded text).
Proof. exact split_even_quotes. Qed.

End SplitterProps.

(** ** What validate_sql_file returns (validate_migration_improved.py) *)

Module ValidatorProps.

Import ValidateMigrationImproved ValidatorSpec.

(** The defects of one statement, taken on its own. *)
Definition statement_defects (n : nat) (statement : str) : list str :=
  if truthy (strip statement) then
    if startswith (strip statement) (lit "INSERT INTO videos")
    then collected_defects n statement
    else [msg_not_insert n]
  else [].

Definition nonblank (item : nat * str) : bool := truthy (strip (snd item)).

Lemma validate_statement_defects r n statement :
  validate_statement r (n, statement)
  = mkReport (statement_count r + (if nonblank (n, statement) then 1 else 0))
             (errors r ++ statement_defects n statement).
Proof.
  unfold statement_defects, nonblank. simpl snd.
  destruct (truthy (strip statement)) eqn:Ht.
  - destruct (startswith (strip statement) (lit "INSERT INTO videos")) eqn:Hp.
    + now apply validate_statement_insert.
    + now apply validate_statement_other.
  - rewrite validate_statement_blank by exact Ht.
    destruct r. simpl. now rewrite Nat.add_0_r, app_nil_r.
Qed.

Lemma validate_fold_defects items : forall r,
  fold_left validate_statement items r
  = mkReport (statement_count r + length (filter nonblank items))
             (errors r
              ++ flat_map (fun item => statement_defects (fst item) (snd item))
                          items).
Proof.
  induction items as [|[n statement] items IH]; intro r.
  - destruct r. simpl. now rewrite Nat.add_0_r, app_nil_r.
  - cbn [fold_left]. rewrite IH, validate_statement_defects.
    cbn [statement_count errors flat_map filter fst snd].
    rewrite <- app_assoc. f_equal.
    destruct (nonblank (n, statement)); simpl; lia.
Qed.

Lemma enumerate1_length (A : Type) (xs : list A) :
  length (enumerate1 xs) = length xs.
Proof.
  unfold enumerate1. rewrite length_combine, length_seq. apply Nat.min_id.
Qed.

Lemma enumerate1_snd (A : Type) (xs : list A) :
  List.map snd (enumerate1 xs) = xs.
Proof.
  unfold enumerate1. generalize 1.
  induction xs as [|x xs IH]; intro k; simpl; [reflexivity |].
  now rewrite IH.
Qed.

Lemma validate_sql_file_split (content path : str) :
  validate_sql_file (fun _ => Text content) path
  = Return (length (Splitter.split false content),
            flat_map (fun item => statement_defects (fst item) (snd item))
                     (enumerate1 (Splitter.split false content))).
Proof.
  unfold validate_sql_file, read_text, validate_statements.
  rewrite validate_fold_defects. cbn [statement_count errors app Nat.add].
  assert (H : Forall (fun item => nonblank item = true)
                     (enumerate1 (Splitter.split false content))).
  { apply Forall_forall. intros [n s] Hin.
    pose proof (SplitterProps.split_trimmed false content) as Hall.
    rewrite Forall_forall in Hall.
    apply (Hall s).
    rewrite <- (enumerate1_snd (Splitter.split false content)).
    apply in_map_iff. now exists (n, s). }
  assert (Hlen : forall items,
             Forall (fun item => nonblank item = true) items ->
             length (filter nonblank items) = length items).
  { induction 1 as [|item items Hi _ IH]; simpl; [reflexivity |].
    now rewrite Hi, <- IH. }
  now rewrite (Hlen _ H), enumerate1_length.
Qed.

(** For a file that can be read, [validate_sql_file] returns the number of
    statements the splitter found (none of them is passed over as blank)
    and, in statement order, the defects each statement has on its own. *)
Theorem validate_sql_file_result :
  forall (content path : str),
    validate_sql_file (fun _ => Text content) path
    = Return (length (Splitter.split false content),
              flat_map (fun item => statement_defects (fst item) (snd item))
                       (enumerate1 (Splitter.split false content))).
Proof. exact validate_sql_file_split. Qed.

End ValidatorProps.

(** ** The line validators (validate_fixed_sql.py, validate_migration.py) *)

Module LineValidatorProps.

Import ValidateFixedSql.

(** What [validate_fixed_sql.py] wants of a line: blank, or an INSERT that
    ends with a semicolon and holds an even number of quotes. *)
Definition line_ok (line : str) : bool :=
  let line := strip line in
  negb (truthy line)
  || (startswith line (lit "INSERT INTO videos")
      && endswith line (lit ";")
      && (count_char quote line mod 2 =? 0)).

(** [validate_migration.py] also refuses two adjacent empty literals. *)
Definition line_ok_strict (line : str) : bool :=
  line_ok line && negb (contains (lit "'', ''") (strip line)).

Lemma app_nil_iff (A : Type) (a b : list A) :
  a ++ b = [] <-> a = [] /\ b = [].
Proof.
  split; [apply app_eq_nil | intros [-> ->]; reflexivity].
Qed.

Lemma validate_line_ok r n line :
  exists d,
    errors (validate_line r (n, line)) = errors r ++ d /\
    (d = [] <-> line_ok line = true).
Proof.
  unfold validate_line, line_ok, add_error. cbv zeta.
  destruct (truthy (strip line)); cbn [negb orb andb];
    [| exists []; rewrite app_nil_r; cbn; tauto].
  destruct (startswith (strip line) (lit "INSERT INTO videos"));
    cbn [negb orb andb];
    [| eexists; split; [reflexivity | split; discriminate]].
  destruct (endswith (strip line) (lit ";"));
    destruct (count_char quote (strip line) mod 2 =? 0);
    cbn [negb andb errors]; eexists;
    (split;
     [ rewrite <- ?app_assoc; try reflexivity;
       symmetry; apply app_nil_r
     | split; (reflexivity || discriminate) ]).
Qed.

Lemma validate_lines_ok items : forall r,
  exists d,
    errors (fold_left validate_line items r) = errors r ++ d /\
    (d = [] <-> Forall (fun item => line_ok (snd item) = true) items).
Proof.
  induction items as [|[n line] items IH]; intro r.
  - exists []. simpl. rewrite app_nil_r. split; [reflexivity |].
    split; [constructor | reflexivity].
  - cbn [fold_left].
    destruct (validate_line_ok r n line) as (d1 & H1 & O1).
    destruct (IH (validate_line r (n, line))) as (d2 & H2 & O2).
    exists (d1 ++ d2). rewrite H2, H1, <- app_assoc.
    split; [reflexivity |].
    rewrite app_nil_iff, O1, O2. simpl.
    split; [intros [? ?]; now constructor | now inversion 1].
Qed.

Lemma Forall_enumerate1 (A : Type) (P : A -> Prop) (xs : list A) :
  Forall (fun item => P (snd item)) (enumerate1 xs) <-> Forall P xs.
Proof.
  rewrite <- (ValidatorProps.enumerate1_snd xs) at 2.
  rewrite Forall_map. reflexivity.
Qed.

(** [validate_fixed_sql.py] counts every line and reports no error exactly
    when every line is blank or an INSERT that ends with a semicolon and
    holds an even number of quotes. *)
Theorem validate_fixed_sql_sound_complete :
  forall (content path : str),
    exists errs,
      validate_sql_file (fun _ => Text content) path
      = Return (length (lines content), errs) /\
      (errs = [] <-> Forall (fun line => line_ok line = true) (lines content)).
Proof.
  intros content path. unfold validate_sql_file, read_text.
  destruct (validate_lines_ok (enumerate1 (lines content)) (mkReport 0 []))
    as (d & Hd & Hok).
  exists d. rewrite Hd. simpl app.
  rewrite FileSpec.line_count_fold, ValidatorProps.enumerate1_length.
  split; [reflexivity |].
  rewrite Hok. apply (Forall_enumerate1 (fun line => line_ok line = true)).
Qed.

Lemma validate_line_strict_ok r n line :
  exists d,
    errors (ValidateMigration.validate_line r (n, line)) = errors r ++ d /\
    (d = [] <-> line_ok_strict line = true).
Proof.
  unfold ValidateMigration.validate_line, line_ok_strict, line_ok, add_error.
  cbv zeta.
  destruct (strip line) as [|x l] eqn:El; cbn [truthy negb orb andb];
    [exists []; rewrite app_nil_r; split; [reflexivity |];
     split; reflexivity |].
  rewrite <- El. clear El x l.
  destruct (startswith (strip line) (lit "INSERT INTO videos"));
    cbn [negb orb andb];
    [| eexists; split; [reflexivity | split; discriminate]].
  destruct (endswith (strip line) (lit ";"));
    destruct (contains (lit "'', ''") (strip line));
    destruct (count_char quote (strip line) mod 2 =? 0);
    cbn [negb andb errors]; eexists;
    (split;
     [ rewrite <- ?app_assoc; try reflexivity;
       symmetry; apply app_nil_r
     | split; (reflexivity || discriminate) ]).
Qed.

Lemma validate_lines_strict_ok items : forall r,
  exists d,
    errors (fold_left ValidateMigration.validate_line items r)
    = errors r ++ d /\
    (d = [] <-> Forall (fun item => line_ok_strict (snd item) = true) items).
Proof.
  induction items as [|[n line] items IH]; intro r.
  - exists []. simpl. rewrite app_nil_r. split; [reflexivity |].
    split; [constructor | reflexivity].
  - cbn [fold_left].
    destruct (validate_line_strict_ok r n line) as (d1 & H1 & O1).
    destruct (IH (ValidateMigration.validate_line r (n, line)))
      as (d2 & H2 & O2).
    exists (d1 ++ d2). rewrite H2, H1, <- app_assoc.
    split; [reflexivity |].
    rewrite app_nil_iff, O1, O2. simpl.
    split; [intros [? ?]; now constructor | now inversion 1].
Qed.

(** [validate_migration.py] reports no error exactly when every line is
    blank or an INSERT that ends with a semicolon, holds an even number of
    quotes and has no two adjacent empty literals. *)
Theorem validate_migration_sound_complete :
  forall (content path : str),
    exists n errs,
      ValidateMigration.validate_sql_file (fun _ => Text content) path
      = Return (n, errs) /\
      (errs = []
       <-> Forall (fun line => line_ok_strict line = true) (lines content)).
Proof.
  intros content path. unfold ValidateMigration.validate_sql_file, read_text.
  destruct (validate_lines_strict_ok (enumerate1 (lines content))
                                     (mkReport 0 []))
    as (d & Hd & Hok).
  eexists. exists d. rewrite Hd. simpl app.
  split; [reflexivity |].
  rewrite Hok.
  apply (Forall_enumerate1 (fun line => line_ok_strict line = true)).
Qed.

End LineValidatorProps.

(** ** Blanks at the end of a line *)

Lemma lstrip_app (a b : str) :
  lstrip (a ++ b)
  = match lstrip a with [] => lstrip b | _ :: _ => lstrip a ++ b end.
Proof.
  induction a as [|x a IH]; simpl.
  - now destruct (lstrip b).
  - destruct (isspace x); [exact IH | reflexivity].
Qed.

Lemma rstrip_decompose (s : str) :
  exists ws, Forall (fun c => isspace c = true) ws /\ s = rstrip s ++ ws.
Proof.
  destruct (lstrip_decompose (rev s)) as [ws [Hws Hs]].
  exists (rev ws). split.
  - now apply Forall_rev.
  - unfold rstrip. rewrite <- rev_app_distr, <- Hs. now rewrite rev_involutive.
Qed.

Lemma rstrip_idempotent (s : str) : rstrip (rstrip s) = rstrip s.
Proof.
  unfold rstrip. now rewrite rev_involutive, lstrip_idempotent.
Qed.

Lemma rstrip_app_spaces (s ws : str) :
  Forall (fun c => isspace c = true) ws -> rstrip (s ++ ws) = rstrip s.
Proof.
  intro H. unfold rstrip. rewrite rev_app_distr, lstrip_app.
  rewrite lstrip_spaces by now apply Forall_rev.
  reflexivity.
Qed.

Lemma strip_app_spaces (s ws : str) :
  Forall (fun c => isspace c = true) ws -> strip (s ++ ws) = strip s.
Proof.
  intro H. unfold strip. rewrite lstrip_app.
  destruct (lstrip s) as [|x l] eqn:E.
  - now rewrite lstrip_spaces by exact H.
  - now rewrite rstrip_app_spaces by exact H.
Qed.

Lemma startswith_app (s t p : str) :
  startswith s p = true -> startswith (s ++ t) p = true.
Proof.
  revert s. induction p as [|x p IH]; intros s H.
  - now destruct (s ++ t).
  - destruct s as [|y s]; [discriminate |]. simpl in *.
    destruct (x =? y)%N; [| discriminate]. simpl in *. now apply IH.
Qed.

Lemma endswith_snoc (s : str) (c : char) : endswith (s ++ [c]) [c] = true.
Proof.
  unfold endswith. rewrite rev_app_distr. simpl.
  rewrite N.eqb_refl. now destruct (rev s).
Qed.

(** ** fix_sql_semicolons.py *)

Module FixSemicolonsProps.

Import FixSqlSemicolons.

Definition no_newline (s : str) : Prop := count_char newline s = 0.

Lemma no_newline_app a b : no_newline (a ++ b) <-> no_newline a /\ no_newline b.
Proof. unfold no_newline. rewrite count_char_app. lia. Qed.

(** A line that is read ends with its newline or is the last one; no
    other newline is in it. *)
Lemma lines_from_shape content : forall cur,
  no_newline cur ->
  Forall (fun l => exists body,
              no_newline body /\ (l = body ++ [newline] \/ l = body))
         (lines_from cur content).
Proof.
  induction content as [|c content IH]; intros cur Hcur; simpl.
  - destruct cur; simpl; constructor; [| constructor].
    exists (c :: cur). split; [exact Hcur | now right].
  - destruct (N.eqb_spec c newline) as [->|Hc].
    + constructor.
      * exists cur. split; [exact Hcur | now left].
      * apply IH. reflexivity.
    + apply IH. apply no_newline_app. split; [exact Hcur |].
      unfold no_newline. rewrite count_char_cons.
      destruct (N.eqb_spec newline c); [congruence | reflexivity].
Qed.

Lemma rstrip_no_newline (s : str) : no_newline s -> no_newline (rstrip s).
Proof.
  intro H. destruct (rstrip_decompose s) as [ws [_ Hs]].
  rewrite Hs in H. now apply no_newline_app in H.
Qed.

(** The two forms of a fixed line. *)
Lemma fix_line_cases (line : str) :
  let r := rstrip line in
  (startswith (strip r) (lit "INSERT INTO videos") = true /\
   endswith (strip r) (lit ";") = false /\
   fix_line line = r ++ [semicolon]) \/
  ((startswith (strip r) (lit "INSERT INTO videos") = true ->
    endswith (strip r) (lit ";") = true) /\
   fix_line line = r).
Proof.
  unfold fix_line. cbv zeta.
  destruct (startswith (strip (rstrip line)) (lit "INSERT INTO videos")).
  - destruct (endswith (strip (rstrip line)) (lit ";")); simpl.
    + right. split; [trivial | reflexivity].
    + left. rewrite rstrip_idempotent. repeat split.
  - right. split; [discriminate | reflexivity].
Qed.

Lemma fix_line_rstrip (line : str) : rstrip (fix_line line) = fix_line line.
Proof.
  destruct (fix_line_cases line) as [(_ & _ & ->)|[_ ->]].
  - now apply rstrip_snoc.
  - apply rstrip_idempotent.
Qed.

Lemma fix_line_no_newline (line : str) :
  (exists body, no_newline body /\ (line = body ++ [newline] \/ line = body)) ->
  no_newline (fix_line line).
Proof.
  intros (body & Hb & Hl).
  assert (Hr : no_newline (rstrip line)).
  { destruct Hl as [->| ->].
    - rewrite rstrip_app_spaces
        by (constructor; [reflexivity | constructor]).
      now apply rstrip_no_newline.
    - now apply rstrip_no_newline. }
  destruct (fix_line_cases line) as [(_ & _ & ->)|[_ ->]]; [| exact Hr].
  apply no_newline_app. split; [exact Hr | reflexivity].
Qed.

(** A fixed line that is an INSERT ends with a semicolon. *)
Lemma fix_line_terminated (line : str) :
  startswith (strip (fix_line line)) (lit "INSERT INTO videos") = true ->
  endswith (strip (fix_line line)) (lit ";") = true.
Proof.
  destruct (fix_line_cases line) as [(_ & _ & ->)|[H ->]].
  - intros _. rewrite strip_snoc by reflexivity. apply endswith_snoc.
  - exact H.
Qed.

(** Fixing a fixed line again, as it is read back with its newline,
    changes nothing. *)
Lemma fix_line_again (line : str) :
  fix_line (fix_line line ++ [newline]) = fix_line line.
Proof.
  assert (Hr : rstrip (fix_line line ++ [newline]) = fix_line line).
  { rewrite rstrip_app_spaces by (constructor; [reflexivity | constructor]).
    apply fix_line_rstrip. }
  unfold fix_line at 1. cbv zeta. rewrite Hr.
  destruct (startswith (strip (fix_line line)) (lit "INSERT INTO videos"))
    eqn:Hs; [| reflexivity].
  now rewrite (fix_line_terminated line Hs).
Qed.

(** Lines without inner newlines, written one per line, are read back as
    they were written. *)
Lemma lines_from_line (l : str) : forall cur rest,
  no_newline l ->
  lines_from cur (l ++ newline :: rest)
  = (cur ++ l ++ [newline]) :: lines_from [] rest.
Proof.
  induction l as [|c l IH]; intros cur rest Hl.
  - reflexivity.
  - unfold no_newline in Hl. rewrite count_char_cons in Hl.
    simpl. destruct (N.eqb_spec c newline) as [->|Hc].
    + rewrite N.eqb_refl in Hl. discriminate.
    + rewrite IH.
      * now rewrite <- app_assoc.
      * unfold no_newline. lia.
Qed.

Lemma lines_written (ls : list str) :
  Forall no_newline ls ->
  lines (written ls) = List.map (fun l => l ++ [newline]) ls.
Proof.
  unfold lines, written.
  induction 1 as [|l ls Hl _ IH]; [reflexivity |].
  simpl. rewrite <- app_assoc. simpl.
  rewrite lines_from_line by exact Hl.
  now rewrite IH.
Qed.

Lemma fixed_lines_no_newline (content : str) :
  Forall no_newline (List.map fix_line (lines content)).
Proof.
  apply Forall_map.
  eapply Forall_impl;
    [| apply (@lines_from_shape content []); reflexivity].
  intros l Hl. now apply fix_line_no_newline.
Qed.

Lemma lines_fix_text (content : str) :
  lines (fix_text content)
  = List.map (fun l => fix_line l ++ [newline]) (lines content).
Proof.
  unfold fix_text. rewrite lines_written by apply fixed_lines_no_newline.
  now rewrite map_map.
Qed.

(** The output of [fix_sql_file] has one line for each line of the input,
    and every output line that is an INSERT ends with a semicolon. *)
Theorem fix_text_lines :
  forall content,
    lines (fix_text content)
    = List.map (fun l => fix_line l ++ [newline]) (lines content) /\
    length (lines (fix_text content)) = length (lines content) /\
    Forall (fun l =>
              startswith (strip l) (lit "INSERT INTO videos") = true ->
              endswith (strip l) (lit ";") = true)
           (lines (fix_text content)).
Proof.
  intro content. rewrite lines_fix_text. repeat split.
  - now rewrite length_map.
  - apply Forall_map. apply Forall_forall. intros l _.
    rewrite strip_app_spaces by (constructor; [reflexivity | constructor]).
    apply fix_line_terminated.
Qed.

(** Running [fix_sql_file] on its own output gives the same text. *)
Theorem fix_text_idempotent :
  forall content, fix_text (fix_text content) = fix_text content.
Proof.
  intro content. unfold fix_text at 1.
  rewrite lines_fix_text, map_map.
  unfold fix_text. f_equal. apply map_ext. intro l. apply fix_line_again.
Qed.

End FixSemicolonsProps.

(** ** fix_sql_semicolons.py, then validate_fixed_sql.py *)

Module FixThenValidate.

Import FixSqlSemicolons ValidateFixedSql.

Definition is_digit (c : char) : bool := (48 <=? c)%N && (c <=? 57)%N.

Lemma str_of_nat_digits (n : nat) :
  Forall (fun c => is_digit c = true) (str_of_nat n).
Proof.
  unfold str_of_nat. generalize (Nat.to_uint n). intro d.
  induction d; simpl; [constructor | ..];
    change (lit (String ?a ?s)) with (N_of_ascii a :: lit s);
    (constructor; [reflexivity | assumption]).
Qed.

(** Digits, then a colon: the colon tells where the digits end. *)
Lemma digits_colon_inj (d1 : str) : forall d2 r1 r2,
  Forall (fun c => is_digit c = true) d1 ->
  Forall (fun c => is_digit c = true) d2 ->
  d1 ++ 58%N :: r1 = d2 ++ 58%N :: r2 -> r1 = r2.
Proof.
  induction d1 as [|x d1 IH]; intros d2 r1 r2 H1 H2 E.
  - destruct d2 as [|y d2]; simpl in E.
    + now injection E.
    + injection E as <- _. inversion H2 as [|? ? Hy _]. discriminate Hy.
  - inversion H1 as [|? ? Hx H1']; subst.
    destruct d2 as [|y d2]; simpl in E.
    + injection E as -> _. discriminate Hx.
    + injection E as _ E. inversion H2; subst. now apply (IH d2).
Qed.

(** The text of a message is read off the message, whatever the line
    number. *)
Lemma line_msg_text n m (t t' : str) :
  line_msg n t = line_msg m t' -> t = t'.
Proof.
  unfold line_msg. intro E. apply app_inv_head in E.
  change (lit ": " ++ t) with (58%N :: 32%N :: t) in E.
  change (lit ": " ++ t') with (58%N :: 32%N :: t') in E.
  apply digits_colon_inj in E; try apply str_of_nat_digits.
  now injection E.
Qed.

(** The defects of one line, taken on its own. *)
Definition line_defects (n : nat) (line : str) : list str :=
  errors (validate_line (mkReport 0 []) (n, line)).

Lemma validate_line_defects r n line :
  errors (validate_line r (n, line)) = errors r ++ line_defects n line.
Proof.
  unfold line_defects, validate_line, add_error. cbv zeta.
  repeat match goal with
         | |- context [if ?b then _ else _] => destruct b
         end;
    cbn [errors app]; rewrite <- ?app_assoc, ?app_nil_r; reflexivity.
Qed.

Lemma validate_lines_defects items : forall r,
  errors (fold_left validate_line items r)
  = errors r
    ++ flat_map (fun item => line_defects (fst item) (snd item)) items.
Proof.
  induction items as [|[n line] items IH]; intro r;
    cbn [fold_left flat_map fst snd].
  - now rewrite app_nil_r.
  - now rewrite IH, validate_line_defects, <- app_assoc.
Qed.

(** A line that ends with a semicolon whenever it is an INSERT gets no
    "Missing semicolon" message. *)
Lemma terminated_line_defects n k line :
  (startswith (strip line) (lit "INSERT INTO videos") = true ->
   endswith (strip line) (lit ";") = true) ->
  ~ In (line_msg k (lit "Missing semicolon")) (line_defects n line).
Proof.
  intro Hterm. unfold line_defects, validate_line, add_error. cbv zeta.
  destruct (truthy (strip line)); cbn [negb errors]; [| intros []].
  destruct (startswith (strip line) (lit "INSERT INTO videos")).
  - rewrite (Hterm eq_refl). cbn [negb errors].
    destruct (count_char quote (strip line) mod 2 =? 0);
      cbn [negb errors app]; [intros [] |].
    intros [E|[]]. apply line_msg_text in E. discriminate E.
  - cbn [negb errors app]. intros [E|[]].
    apply line_msg_text in E. discriminate E.
Qed.

Lemma eqb_refl (s : str) : Py.eqb s s = true.
Proof. induction s; simpl; [reflexivity |]. now rewrite N.eqb_refl. Qed.

(** When [fix_sql_file] has written its output file, [validate_sql_file]
    of [validate_fixed_sql.py] reads that file to the end and reports
    "Missing semicolon" for no line of it. *)
Theorem fixed_file_has_no_missing_semicolon :
  forall (fs fs' : filesystem) (input_file output_file : str),
    fix_sql_file fs input_file output_file = Return fs' ->
    exists count errs,
      validate_sql_file fs' output_file = Return (count, errs) /\
      forall n, ~ In (line_msg n (lit "Missing semicolon")) errs.
Proof.
  intros fs fs' input_file output_file Hfix.
  unfold fix_sql_file in Hfix.
  destruct (read_text fs input_file) as [content|e]; [| discriminate].
  injection Hfix as <-.
  unfold validate_sql_file, read_text. rewrite eqb_refl.
  do 2 eexists. split; [reflexivity |].
  intros n Hin. rewrite validate_lines_defects in Hin. simpl in Hin.
  apply in_flat_map in Hin. destruct Hin as ([k line] & Hitem & Hin).
  simpl in Hin. revert Hin. apply terminated_line_defects.
  assert (Hline : In line (lines (fix_text content))).
  { rewrite <- (ValidatorProps.enumerate1_snd (lines (fix_text content))).
    apply in_map_iff. now exists (k, line). }
  rewrite FixSemicolonsProps.lines_fix_text in Hline.
  apply in_map_iff in Hline. destruct Hline as (l & <- & _).
  rewrite strip_app_spaces by (constructor; [reflexivity | constructor]).
  apply FixSemicolonsProps.fix_line_terminated.
Qed.

Lemma fixed_file_has_no_missing_semicolon_witness :
  exists count errs,
    validate_sql_file
      (fun path =>
         if Py.eqb path (lit "db/mutations/insert_videos_migrated_fixed.sql")
         then Text (fix_text (lit "INSERT INTO videos (a) VALUES (1)"))
         else Text (lit "INSERT INTO videos (a) VALUES (1)"))
      (lit "db/mutations/insert_videos_migrated_fixed.sql")
    = Return (count, errs) /\
    forall n, ~ In (line_msg n (lit "Missing semicolon")) errs.
Proof.
  exact (fixed_file_has_no_missing_semicolon
           (fun _ => Text (lit "INSERT INTO videos (a) VALUES (1)"))
           (lit "db/mutations/insert_videos_migrated.sql")
           (lit "db/mutations/insert_videos_migrated_fixed.sql")
           eq_refl).
Defined.

End FixThenValidate.

(** ** What migrate writes (migrate_videos_to_d1.py) *)

Module MigrateProps.

Import MigrateVideosToD1.

Section Migrate.

Variable float : Type.
Variable float_str : float -> str.
Variable float_truthy : float -> bool.
Variable bytes_str : list N -> str.

Local Abbreviation row_ok := (ExitCodeSpec.row_ok float_truthy).
Local Abbreviation generate :=
  (generate_insert_statement float_str bytes_str).

(** The statements of the rows that [validate_row] accepts, in row order. *)
Definition generated (rows : list (dict float)) : list str :=
  flat_map (fun row =>
              if row_ok row
              then match transform_row row with
                   | Some transformed => [generate transformed]
                   | None => []
                   end
              else []) rows.

(** Statements, each followed by a newline. *)
Definition written (stmts : list str) : str :=
  concat (List.map (fun s => s ++ [newline]) stmts).

Definition text_of (out : option str) : str :=
  match out with Some text => text | None => [] end.

Lemma written_app a b : written (a ++ b) = written a ++ written b.
Proof. unfold written. now rewrite map_app, concat_app. Qed.

Lemma join_newline_written (stmts : list str) :
  stmts <> [] -> join [newline] stmts ++ [newline] = written stmts.
Proof.
  induction stmts as [|s stmts IH]; [now intros [] |]. intros _.
  destruct stmts as [|s2 stmts].
  - unfold written. simpl. now rewrite app_nil_r.
  - change (join [newline] (s :: s2 :: stmts))
      with (s ++ [newline] ++ join [newline] (s2 :: stmts)).
    rewrite <- !app_assoc, IH by discriminate.
    change (written (s :: s2 :: stmts))
      with ((s ++ [newline]) ++ written (s2 :: stmts)).
    now rewrite <- app_assoc.
Qed.

Lemma write_batch_written out (stmts : list str) :
  stmts <> [] ->
  write_batch out stmts = Some (text_of out ++ written stmts).
Proof.
  intro H. unfold write_batch. rewrite join_newline_written by exact H.
  now destruct out.
Qed.

(** What the loop keeps true: nothing has been written and every
    statement is pending, or the file and the pending statements together
    are the old text and every statement so far. *)
Definition in_step (out : option str) (gen : list str) (m : migration float)
  : Prop :=
  (output_file m = out /\ statements m = gen) \/
  (exists text,
      output_file m = Some text /\
      text ++ written (statements m) = text_of out ++ written gen /\
      gen <> []).

Lemma migrate_row_in_step batch_size out gen m row :
  in_step out gen m ->
  exists m',
    migrate_row float_str float_truthy bytes_str batch_size m row = Some m' /\
    in_step out (gen ++ generated [row]) m' /\
    successful m' = successful m + length (generated [row]) /\
    failed m' = failed m + (if row_ok row then 0 else 1) /\
    length (errors m') = length (errors m) + (if row_ok row then 0 else 1).
Proof.
  intro Hin. unfold migrate_row, generated. simpl flat_map.
  pose proof (@ExitCodeSpec.row_ok_has_video_id float float_truthy row) as Hid.
  unfold ExitCodeSpec.row_ok in *.
  destruct (validate_row float_truthy row) as [ok msg]. simpl fst in *.
  destruct ok; cbn [negb].
  - destruct (Hid eq_refl) as [v Hv].
    assert (Ht : exists t, transform_row row = Some t)
      by (unfold transform_row; rewrite Hv; eauto).
    destruct Ht as [t Ht]. rewrite Ht. rewrite app_nil_r.
    assert (Hne : statements m ++ [generate t] <> [])
      by (intro E; destruct (statements m); discriminate).
    destruct (batch_size <=? length (statements m ++ [generate t]));
      eexists; (split; [reflexivity |]);
      cbn [successful failed errors length]; (split; [| repeat split; lia]).
    + right. cbn [output_file statements].
      rewrite write_batch_written by exact Hne.
      eexists. split; [reflexivity |].
      split; [| intro E; destruct gen; discriminate].
      unfold written at 2. simpl. rewrite app_nil_r.
      destruct Hin as [[Ho Hs]|(text & Ho & Ht' & _)].
      * now rewrite Ho, Hs.
      * rewrite Ho. simpl text_of.
        rewrite !written_app, app_assoc, Ht'. now rewrite <- app_assoc.
    + destruct Hin as [[Ho Hs]|(text & Ho & Ht' & _)].
      * left. cbn [output_file statements]. now rewrite Ho, Hs.
      * right. cbn [output_file statements]. exists text.
        split; [exact Ho |].
        split; [| intro E; destruct gen; discriminate].
        rewrite !written_app, app_assoc, Ht'. now rewrite <- app_assoc.
  - exists (mkMigration (successful m) (failed m + 1) (statements m)
              (errors m ++ [(get_default row (lit "video_id")
                                         (VStr (lit "UNKNOWN")), msg)])
              (output_file m)).
    split; [reflexivity |]. rewrite app_nil_r.
    cbn [successful failed errors length].
    split; [| simpl; repeat split; rewrite ?length_app; simpl; lia].
    destruct Hin as [[Ho Hs]|(text & Ho & Ht' & Hne)];
      [left | right; exists text]; cbn [output_file statements]; auto.
Qed.

Lemma generated_app a b : generated (a ++ b) = generated a ++ generated b.
Proof. unfold generated. apply flat_map_app. Qed.

Lemma migrate_rows_in_step batch_size out rows : forall gen m,
  in_step out gen m ->
  exists m',
    migrate_rows float_str float_truthy bytes_str batch_size m rows = Some m' /\
    in_step out (gen ++ generated rows) m' /\
    successful m' = successful m + length (generated rows) /\
    failed m' + length (generated rows) = failed m + length rows /\
    length (errors m') + failed m = length (errors m) + failed m'.
Proof.
  induction rows as [|row rows IH]; intros gen m Hin.
  - exists m. simpl. rewrite app_nil_r. repeat split; trivial; lia.
  - cbn [migrate_rows].
    destruct (migrate_row_in_step batch_size row Hin)
      as (m1 & H1 & I1 & S1 & F1 & E1).
    rewrite H1.
    destruct (IH _ _ I1) as (m2 & H2 & I2 & S2 & F2 & E2).
    exists m2. split; [exact H2 |].
    change (row :: rows) with ([row] ++ rows).
    rewrite generated_app, app_assoc, length_app.
    split; [exact I2 |].
    assert (Hlen : length (generated [row]) = if row_ok row then 1 else 0).
    { unfold generated. simpl.
      pose proof (@ExitCodeSpec.row_ok_has_video_id float float_truthy row)
        as Hid.
      destruct (ExitCodeSpec.row_ok float_truthy row); [| reflexivity].
      destruct (Hid eq_refl) as [v Hv].
      unfold transform_row. now rewrite Hv. }
    rewrite Hlen in *. simpl length.
    destruct (row_ok row); repeat split; lia.
Qed.

Lemma migrate_outcome :
  forall (batch_size : nat) (out : option str) (rows : list (dict float)),
    exists m,
      migrate float_str float_truthy bytes_str batch_size out rows = Some m /\
      successful m = length (generated rows) /\
      successful m + failed m = length rows /\
      length (errors m) = failed m /\
      output_file m
      = match generated rows with
        | [] => out
        | _ :: _ => Some (text_of out ++ written (generated rows))
        end.
Proof.
  intros batch_size out rows. unfold migrate.
  destruct (@migrate_rows_in_step batch_size out rows []
              (mkMigration 0 0 [] [] out))
    as (m & Hm & Hin & Hs & Hf & He); [left; split; reflexivity |].
  rewrite Hm. simpl in Hin, Hs, Hf, He.
  destruct (statements m) as [|s stmts] eqn:Est; cbn [truthy].
  - exists m. repeat split; try lia.
    destruct Hin as [[Ho Hg]|(text & Ho & Ht & Hne)].
    + rewrite <- Hg, Est. exact Ho.
    + rewrite Est in Ht. unfold written at 1 in Ht. simpl in Ht.
      rewrite app_nil_r in Ht. rewrite Ho, Ht.
      destruct (generated rows); [now destruct Hne | reflexivity].
  - eexists. split; [reflexivity |].
    cbn [successful failed errors output_file].
    repeat split; try lia.
    rewrite write_batch_written by discriminate.
    destruct Hin as [[Ho Hg]|(text & Ho & Ht & Hne)].
    + rewrite <- Hg, Est, Ho. reflexivity.
    + rewrite Ho. simpl text_of. rewrite <- Est, Ht.
      destruct (generated rows); [now destruct Hne | reflexivity].
Qed.

(** [migrate] never raises.  It counts every row once, as successful or
    failed, keeps one error entry per failed row, and leaves in the output
    file the old text followed by the statement of every valid row, one
    per line, whatever the batch size; with no valid row the file is not
    touched. *)
Theorem migrate_result :
  forall (batch_size : nat) (out : option str) (rows : list (dict float)),
    exists m,
      migrate float_str float_truthy bytes_str batch_size out rows = Some m /\
      successful m = length (generated rows) /\
      successful m + failed m = length rows /\
      length (errors m) = failed m /\
      output_file m
      = match generated rows with
        | [] => out
        | _ :: _ => Some (text_of out ++ written (generated rows))
        end.
Proof. exact migrate_outcome. Qed.

End Migrate.

End MigrateProps.

(** ** Line breaks in generated statements *)

Module GeneratedLines.

Import MigrateVideosToD1.

Definition line_break (c : char) : Prop := c = newline \/ c = carriage_return.

Lemma count_char_concat c (parts : list str) :
  Forall (fun p => count_char c p = 0) parts ->
  count_char c (concat parts) = 0.
Proof.
  induction 1 as [|p parts Hp _ IH]; [reflexivity |].
  simpl. now rewrite count_char_app, Hp, IH.
Qed.

Lemma join_free c (parts : list str) :
  line_break c ->
  Forall (fun p => count_char c p = 0) parts ->
  count_char c (join (lit ", ") parts) = 0.
Proof.
  intros Hc H.
  rewrite count_char_join by (destruct Hc; subst c; reflexivity).
  induction H as [|p parts Hp _ IH]; [reflexivity |]. simpl.
  now rewrite Hp, IH.
Qed.

Section Lines.

Variable float : Type.
Variable float_str : float -> str.
Variable float_truthy : float -> bool.
Variable bytes_str : list N -> str.

Local Abbreviation value_str := (PyValue.value_str float_str bytes_str).
Local Abbreviation generate :=
  (generate_insert_statement float_str bytes_str).

(** [str(v)] holds no [c]. *)
Definition free_of (c : char) (v : value float) : Prop :=
  count_char c (value_str v) = 0.

(** [str(v)] holds no line feed and no carriage return: written to a
    file, the value stays on one line. *)
Definition one_line (v : value float) : Prop :=
  free_of newline v /\ free_of carriage_return v.

Lemma escape_free c (v : value float) :
  line_break c -> free_of c v ->
  count_char c (escape_sql_string float_str bytes_str v) = 0.
Proof.
  intros Hc. unfold free_of.
  assert (Hq : c <> quote) by (destruct Hc; subst c; discriminate).
  assert (Hs : forall s : str,
             count_char c s = 0 ->
             count_char c ([quote] ++ replace_char quote [quote; quote] s
                             ++ [quote]) = 0).
  { intros s H. rewrite !count_char_app, count_char_replace_other, H
      by exact Hq.
    destruct Hc; subst c; reflexivity. }
  destruct v as [|b|z|f|s|b]; simpl; intro H.
  - destruct Hc; subst c; reflexivity.
  - exact H.
  - exact H.
  - exact H.
  - now apply Hs.
  - now apply Hs.
Qed.

Lemma generate_free c (row : dict float) :
  line_break c ->
  Forall (fun k => count_char c k = 0) (keys row) ->
  Forall (free_of c) (values row) ->
  count_char c (generate row) = 0.
Proof.
  intros Hc Hk Hv. unfold generate_insert_statement.
  rewrite !count_char_app, (join_free Hc Hk).
  rewrite join_free;
    [| exact Hc
     | apply Forall_map; eapply Forall_impl; [| exact Hv];
       intro v; now apply escape_free].
  destruct Hc; subst c; reflexivity.
Qed.

(** The values of a transformed row are values of the row or one of the
    three defaults. *)
Lemma transform_row_forall (P : value float -> Prop) (row t : dict float) :
  Forall P (values row) ->
  P VNone -> P (VStr []) -> P (VInt 0) ->
  transform_row row = Some t ->
  Forall P (values t).
Proof.
  intros Hrow Hn Hs Hz. unfold transform_row.
  assert (Hget : forall key d, P d -> P (get_default row key d)).
  { intros key d Hd. unfold get_default.
    induction row as [|[k v] row IH]; simpl; [exact Hd |].
    inversion Hrow; subst.
    destruct (Py.eqb k key); [assumption | now apply IH]. }
  destruct (get_opt row (lit "video_id")) as [v|] eqn:Ev; [| discriminate].
  intro H. injection H as <-.
  assert (Hv : P v).
  { pose proof (Hget (lit "video_id") VNone Hn) as G.
    unfold get_default in G. now rewrite Ev in G. }
  unfold values, get. simpl List.map.
  repeat (constructor; [first [exact Hv | now apply Hget] |]).
  constructor.
Qed.

Lemma transform_row_keys_free c (row t : dict float) :
  line_break c ->
  transform_row row = Some t ->
  Forall (fun k => count_char c k = 0) (keys t).
Proof.
  intro Hc. unfold transform_row.
  destruct (get_opt row (lit "video_id")); [| discriminate].
  intro H. injection H as <-. unfold keys. simpl List.map.
  destruct Hc; subst c;
    repeat (constructor; [reflexivity |]); constructor.
Qed.

(** Rows whose values hold no [c] give statements that hold no [c]. *)
Lemma generated_free c (rows : list (dict float)) :
  line_break c ->
  Forall (fun row => Forall (free_of c) (values row)) rows ->
  Forall (fun s => count_char c s = 0)
         (MigrateProps.generated float_str float_truthy bytes_str rows).
Proof.
  intro Hc. induction 1 as [|row rows Hrow _ IH]; [constructor |].
  unfold MigrateProps.generated in *. simpl flat_map.
  apply Forall_app. split; [| exact IH].
  destruct (ExitCodeSpec.row_ok float_truthy row); [| constructor].
  destruct (transform_row row) as [t|] eqn:Et; [| constructor].
  constructor; [| constructor].
  apply generate_free.
  - exact Hc.
  - now apply (@transform_row_keys_free c row).
  - apply (@transform_row_forall (free_of c) row t Hrow); try exact Et;
      destruct Hc; subst c; reflexivity.
Qed.

(** Statements without a carriage return, written one per line, are read
    as they were written. *)
Lemma written_read_back (stmts : list str) :
  Forall (fun s => count_char carriage_return s = 0) stmts ->
  universal_newlines (MigrateProps.written stmts) = MigrateProps.written stmts.
Proof.
  intro H. apply universal_newlines_no_cr.
  unfold MigrateProps.written. apply count_char_concat, Forall_map.
  eapply Forall_impl; [| exact H].
  intros s Hs. now rewrite count_char_app, Hs.
Qed.

End Lines.

End GeneratedLines.

(** ** Generated statements read back by the splitter *)

Module ReadBackProps.

Import Splitter SplitterFacts MigrateVideosToD1.

(** A piece of text that, read outside a literal, only lengthens the
    buffer and leaves the scanner outside a literal. *)
Definition neutral (t : str) : Prop :=
  forall ss cur, scan_from false (fresh ss cur) t = fresh ss (cur ++ t).

Definition plain (t : str) : Prop :=
  count_char quote t = 0 /\ count_char backslash t = 0 /\
  count_char semicolon t = 0.

Lemma neutral_nil : neutral [].
Proof. intros ss cur. now rewrite app_nil_r. Qed.

Lemma neutral_app a b : neutral a -> neutral b -> neutral (a ++ b).
Proof.
  intros Ha Hb ss cur. now rewrite scan_from_app, Ha, Hb, app_assoc.
Qed.

Lemma neutral_plain t : plain t -> neutral t.
Proof.
  induction t as [|c t IH]; intros (Hq & Hb & Hs); [apply neutral_nil |].
  apply SplitterProps.count_char_zero_cons in Hq, Hb, Hs.
  destruct Hq as [Hcq Hq], Hb as [Hcb Hb], Hs as [Hcs Hs].
  intros ss cur. rewrite scan_from_cons.
  assert (E : scan_char false (fresh ss cur) c = fresh ss (cur ++ [c])).
  { unfold scan_char, fresh; simpl.
    destruct (N.eqb_spec c backslash); [contradiction |].
    destruct (N.eqb_spec c quote); [contradiction |].
    destruct (N.eqb_spec c semicolon); [contradiction |].
    reflexivity. }
  rewrite E, (IH (conj Hq (conj Hb Hs))). now rewrite <- app_assoc.
Qed.

(** Inside a literal, a text whose quotes are doubled and that has no
    backslash leaves the scanner inside the literal. *)
Lemma scan_doubled (v : str) : forall ss cur,
  count_char backslash v = 0 ->
  scan_from false (mkScanner ss cur true false)
            (replace_char quote [quote; quote] v)
  = mkScanner ss (cur ++ replace_char quote [quote; quote] v) true false.
Proof.
  induction v as [|c v IH]; intros ss cur Hb.
  - simpl. now rewrite app_nil_r.
  - apply SplitterProps.count_char_zero_cons in Hb. destruct Hb as [Hcb Hb].
    unfold replace_char in *. cbn [flat_map].
    rewrite scan_from_app.
    destruct (N.eqb_spec c quote) as [->|Hq]; cbv iota.
    + assert (E : scan_from false (mkScanner ss cur true false) [quote; quote]
                  = mkScanner ss (cur ++ [quote; quote]) true false).
      { unfold scan_from. simpl. unfold scan_char. simpl.
        now rewrite <- app_assoc. }
      rewrite E, IH by exact Hb. now rewrite <- app_assoc.
    + assert (E : scan_from false (mkScanner ss cur true false)
                            (@cons N c (@nil N))
                  = mkScanner ss (cur ++ [c]) true false).
      { unfold scan_from. simpl. unfold scan_char. simpl.
        destruct (N.eqb_spec c backslash); [contradiction |].
        destruct (N.eqb_spec c quote); [contradiction |].
        now rewrite andb_false_r. }
      rewrite E, IH by exact Hb. now rewrite <- app_assoc.
Qed.

Lemma neutral_quoted (v : str) :
  count_char backslash v = 0 ->
  neutral ([quote] ++ replace_char quote [quote; quote] v ++ [quote]).
Proof.
  intros Hb ss cur.
  rewrite !scan_from_app.
  assert (E1 : scan_from false (fresh ss cur) [quote]
               = mkScanner ss (cur ++ [quote]) true false) by reflexivity.
  rewrite E1, scan_doubled by exact Hb.
  unfold scan_from. simpl. unfold scan_char. simpl. unfold fresh.
  now rewrite <- !app_assoc.
Qed.

Lemma neutral_join (parts : list str) :
  Forall neutral parts -> neutral (join (lit ", ") parts).
Proof.
  induction 1 as [|p parts Hp Hps IH]; [apply neutral_nil |].
  destruct parts as [|p2 parts]; [exact Hp |].
  change (join (lit ", ") (p :: p2 :: parts))
    with (p ++ lit ", " ++ join (lit ", ") (p2 :: parts)).
  apply neutral_app; [exact Hp |].
  apply neutral_app; [| exact IH].
  apply neutral_plain. repeat split.
Qed.

Lemma str_of_Z_plain (z : Z) : plain (str_of_Z z).
Proof.
  split; [apply count_char_str_of_Z; now left |].
  split; [apply count_char_str_of_Z; now right |].
  unfold str_of_Z. destruct (Z.to_int z) as [d|d]; simpl.
  - apply count_char_uint. left. discriminate.
  - change (lit (String ?a ?s)) with (N_of_ascii a :: lit s).
    rewrite count_char_cons, count_char_uint by (left; discriminate).
    reflexivity.
Qed.

Section ReadBack.

Variable float : Type.
Variable float_str : float -> str.
Variable float_truthy : float -> bool.
Variable bytes_str : list N -> str.

(** [str(f)] of a float holds no quote and no semicolon. *)
Hypothesis float_str_quote : forall f, count_char quote (float_str f) = 0.
Hypothesis float_str_semicolon :
  forall f, count_char semicolon (float_str f) = 0.

Local Abbreviation value_str := (PyValue.value_str float_str bytes_str).
Local Abbreviation generate :=
  (generate_insert_statement float_str bytes_str).

(** The value, as [str] gives it, holds no backslash. *)
Definition no_backslash (v : value float) : Prop :=
  count_char backslash (value_str v) = 0.

Lemma escape_neutral (v : value float) :
  no_backslash v -> neutral (escape_sql_string float_str bytes_str v).
Proof.
  unfold no_backslash. destruct v as [|b|z|f|s|b]; simpl; intro Hb.
  - apply neutral_plain. repeat split.
  - apply neutral_plain. destruct b; repeat split.
  - apply neutral_plain, str_of_Z_plain.
  - apply neutral_plain. repeat split; auto.
  - now apply neutral_quoted.
  - now apply neutral_quoted.
Qed.

(** A generated statement is read as one statement, itself, after any
    blanks. *)
Lemma generate_complete (row : dict float) :
  Forall plain (keys row) ->
  Forall no_backslash (values row) ->
  Resplit.complete (generate row).
Proof.
  intros Hk Hv ws Hws.
  set (body := lit "INSERT INTO videos (" ++ join (lit ", ") (keys row)
               ++ lit ") VALUES ("
               ++ join (lit ", ")
                    (List.map (escape_sql_string float_str bytes_str)
                              (values row))
               ++ [rparen]).
  assert (Hs : generate row = body ++ [semicolon]).
  { unfold generate_insert_statement, body.
    change (lit ");") with ([rparen] ++ [semicolon]).
    generalize (lit "INSERT INTO videos (") (lit ") VALUES (").
    intros a b. now rewrite <- !app_assoc. }
  assert (Hn : neutral body).
  { unfold body.
    apply neutral_app; [apply neutral_plain; repeat split |].
    apply neutral_app.
    { apply neutral_join. eapply Forall_impl; [| exact Hk].
      intros k. apply neutral_plain. }
    apply neutral_app; [apply neutral_plain; repeat split |].
    apply neutral_app; [| apply neutral_plain; repeat split].
    apply neutral_join, Forall_map.
    eapply Forall_impl; [| exact Hv]. intros v. apply escape_neutral. }
  assert (Hl : lstrip (ws ++ body) = body).
  { rewrite lstrip_app, lstrip_spaces by exact Hws.
    unfold body.
    change (lit "INSERT INTO videos (")
      with (73%N :: List.tl (lit "INSERT INTO videos (")).
    generalize (List.tl (lit "INSERT INTO videos (")). intro a.
    reflexivity. }
  rewrite Hs, scan_from_app, Hn.
  unfold scan_from. simpl fold_left.
  assert (E : scan_char false (fresh [] (ws ++ body)) semicolon
              = fresh (append_statement false []
                         ((ws ++ body) ++ [semicolon])) [])
    by reflexivity.
  rewrite E, append_statement_semicolon, Hl. reflexivity.
Qed.

(** Complete statements, one per line, are read back one by one. *)
Lemma scan_written_complete (l : list str) : forall ss ws,
  Forall Resplit.complete l ->
  Forall (fun c => isspace c = true) ws ->
  exists ws',
    Forall (fun c => isspace c = true) ws' /\
    scan_from false (fresh ss ws) (MigrateProps.written l)
    = fresh (ss ++ l) ws'.
Proof.
  induction l as [|s l IH]; intros ss ws Hl Hws.
  - exists ws. split; [exact Hws |]. simpl. now rewrite app_nil_r.
  - inversion Hl as [|? ? Hs Hl']; subst.
    change (MigrateProps.written (s :: l))
      with ((s ++ [newline]) ++ MigrateProps.written l).
    rewrite !scan_from_app, Resplit.scan_from_fresh_frame, (Hs ws Hws).
    change (Resplit.add_prefix ss (fresh [s] [])) with (fresh (ss ++ [s]) []).
    rewrite Resplit.scan_spaces by (constructor; [reflexivity | constructor]).
    destruct (IH (ss ++ [s]) ([] ++ [newline]) Hl')
      as (ws' & Hws' & H); [constructor; [reflexivity | constructor] |].
    exists ws'. split; [exact Hws' |]. rewrite H. now rewrite <- app_assoc.
Qed.

Lemma get_default_forall (P : value float -> Prop) (row : dict float) key d :
  Forall P (values row) -> P d -> P (get_default row key d).
Proof.
  intros Hrow Hd. unfold get_default.
  induction row as [|[k v] row IH]; simpl; [exact Hd |].
  inversion Hrow; subst.
  destruct (Py.eqb k key); [assumption | now apply IH].
Qed.

Lemma transform_row_no_backslash (row t : dict float) :
  Forall no_backslash (values row) ->
  transform_row row = Some t ->
  Forall no_backslash (values t).
Proof.
  intros Hrow. unfold transform_row.
  destruct (get_opt row (lit "video_id")) as [v|] eqn:Ev; [| discriminate].
  intro H. injection H as <-.
  assert (Hv : no_backslash v).
  { pose proof (@get_default_forall no_backslash row (lit "video_id") VNone
                  Hrow eq_refl) as G.
    unfold get_default in G. now rewrite Ev in G. }
  unfold values, get. simpl List.map.
  repeat (constructor;
          [first [exact Hv | apply get_default_forall;
                             [exact Hrow | reflexivity]] |]).
  constructor.
Qed.

Lemma transform_row_plain_keys (row t : dict float) :
  transform_row row = Some t -> Forall plain (keys t).
Proof.
  unfold transform_row.
  destruct (get_opt row (lit "video_id")); [| discriminate].
  intro H. injection H as <-. unfold keys. simpl List.map.
  repeat (constructor; [repeat split |]). constructor.
Qed.

Lemma generated_complete (rows : list (dict float)) :
  Forall (fun row => Forall no_backslash (values row)) rows ->
  Forall Resplit.complete
         (MigrateProps.generated float_str float_truthy bytes_str rows).
Proof.
  induction 1 as [|row rows Hrow _ IH]; [constructor |].
  unfold MigrateProps.generated in *. simpl flat_map.
  apply Forall_app. split; [| exact IH].
  destruct (ExitCodeSpec.row_ok float_truthy row); [| constructor].
  destruct (transform_row row) as [t|] eqn:Et; [| constructor].
  constructor; [| constructor].
  apply generate_complete.
  - now apply (@transform_row_plain_keys row).
  - now apply (@transform_row_no_backslash row).
Qed.

(** When no value of the source rows holds a backslash or a carriage
    return, the file that [migrate] wrote from scratch, read back with
    [open(path, 'r')], is split into exactly the generated statements, one
    per successful row, and the improved validator counts as many
    statements as rows were migrated.  When no row was migrated there is
    no file. *)
Theorem migrate_output_read_back :
  forall (guarded : bool) (batch_size : nat) (rows : list (dict float))
         (path : str),
    Forall (fun row =>
              Forall (fun v => no_backslash v /\
                               count_char carriage_return (value_str v) = 0)
                     (values row)) rows ->
    match migrate float_str float_truthy bytes_str batch_size None rows with
    | None => False
    | Some m =>
        match output_file m with
        | None =>
            MigrateProps.generated float_str float_truthy bytes_str rows = [] /\
            successful m = 0
        | Some text =>
            split guarded (universal_newlines text)
            = MigrateProps.generated float_str float_truthy bytes_str rows /\
            length (split guarded (universal_newlines text)) = successful m /\
            exists errs,
              ValidateMigrationImproved.validate_sql_file
                (fun _ => stored text) path
              = Return (successful m, errs)
        end
    end.
Proof.
  intros g batch_size rows path Hrows.
  set (gen := MigrateProps.generated float_str float_truthy bytes_str rows).
  assert (Hb : Forall (fun row => Forall no_backslash (values row)) rows).
  { eapply Forall_impl; [| exact Hrows]. intros row Hrow.
    eapply Forall_impl; [| exact Hrow]. now intros v [H _]. }
  assert (Hc : Forall (fun row =>
                         Forall (GeneratedLines.free_of float_str bytes_str
                                   carriage_return) (values row)) rows).
  { eapply Forall_impl; [| exact Hrows]. intros row Hrow.
    eapply Forall_impl; [| exact Hrow]. now intros v [_ H]. }
  destruct (MigrateProps.migrate_outcome float_str float_truthy bytes_str
              batch_size None rows) as (m & Hm & Hs & _ & _ & Ho).
  rewrite Hm, Ho. fold gen in Hs |- *.
  assert (Hread : universal_newlines (MigrateProps.written gen)
                  = MigrateProps.written gen).
  { apply GeneratedLines.written_read_back.
    apply (GeneratedLines.generated_free float_truthy);
      [right; reflexivity | exact Hc]. }
  assert (Hsplit : forall g', split g' (MigrateProps.written gen) = gen).
  { intro g'. unfold split, scan. rewrite scan_from_guard_irrelevant.
    change init with (fresh [] []).
    destruct (@scan_written_complete gen [] [] (generated_complete Hb)
                                     (Forall_nil _))
      as (ws' & _ & H).
    now rewrite H. }
  destruct gen as [|s0 gen0] eqn:Eg.
  - split; [reflexivity | exact Hs].
  - rewrite <- Eg in *. cbn [MigrateProps.text_of app].
    rewrite Hread, Hsplit. repeat split; [now symmetry |].
    eexists. unfold stored. rewrite Hread.
    rewrite ValidatorProps.validate_sql_file_split, Hsplit, <- Hs.
    reflexivity.
Qed.

End ReadBack.

Lemma migrate_output_read_back_witness :
  split false
    (universal_newlines
       (lit "INSERT INTO videos (video_id, cleaned_title, cleaned_description, channel_name, channel_id, published_at, duration_seconds, view_count, like_count, comment_count, is_indexed, created_at) VALUES ('a;b', 'it''s', '', '', '', NULL, NULL, 7, NULL, NULL, 0, NULL);
"))
  = [lit "INSERT INTO videos (video_id, cleaned_title, cleaned_description, channel_name, channel_id, published_at, duration_seconds, view_count, like_count, comment_count, is_indexed, created_at) VALUES ('a;b', 'it''s', '', '', '', NULL, NULL, 7, NULL, NULL, 0, NULL);"].
Proof.
  refine (proj1 (@migrate_output_read_back
                   unit (fun _ => lit "0.0") (fun _ => true) (fun _ => [])
                   (fun _ => eq_refl) (fun _ => eq_refl)
                   false 100
                   [[(lit "video_id", VStr (lit "a;b"));
                     (lit "cleaned_title", VStr (lit "it's"));
                     (lit "view_count", VInt 7)]]
                   (lit "db/mutations/insert_videos_migrated.sql") _)).
  repeat (constructor; [repeat constructor |]).
  constructor.
Defined.

End ReadBackProps.

(** ** The batch loop of execute_migration_batches.py *)

Module BatchProps.

Import ExecuteMigrationBatches.

(** The batches the loop cuts: [statements[i:i + batch_size]] for the [i]
    of the [range]. *)
Definition batches (statements : list str) : list (list str) :=
  List.map (fun i => slice statements i (i + batch_size))
           (range_step (length statements) batch_size).

Lemma batch_total_bound (n : nat) :
  n <= (n + batch_size - 1) / batch_size * batch_size /\
  ((n + batch_size - 1) / batch_size - 1) * batch_size < n
  \/ n = 0.
Proof.
  change batch_size with 50.
  pose proof (Nat.div_mod_eq (n + 50 - 1) 50).
  pose proof (Nat.mod_upper_bound (n + 50 - 1) 50).
  destruct n; [now right | left]. lia.
Qed.

(** The batches are consecutive pieces of the statement list that leave
    nothing out; there are [total_batches] of them, none is empty and none
    holds more than 50 statements. *)
Theorem batches_partition :
  forall statements : list str,
    concat (batches statements) = statements /\
    length (batches statements)
    = (length statements + batch_size - 1) / batch_size /\
    Forall (fun b => 1 <= length b <= batch_size) (batches statements).
Proof.
  intro statements. unfold batches, range_step. rewrite map_map.
  split; [| split].
  - apply ExitCodeSpec.batches_cover.
  - now rewrite length_map, length_seq.
  - apply Forall_map, Forall_forall. intros k Hk.
    apply in_seq in Hk. unfold slice.
    replace (k * batch_size + batch_size - k * batch_size)
      with batch_size by lia.
    rewrite length_firstn, length_skipn.
    destruct (batch_total_bound (length statements)) as [[H1 H2]|H0].
    + assert (k * batch_size < length statements) by nia.
      change batch_size with 50 in *. lia.
    + rewrite H0 in Hk. simpl in Hk. lia.
Qed.

Section Stop.

Variable World : Type.
Variable wrangler : str -> nat -> World -> run_result * World.

Local Abbreviation batch := (ExitCodeSpec.batch).
Local Abbreviation batches_succeed := (ExitCodeSpec.batches_succeed wrangler).

(** The world after batches [k + 1] to [k + m] have been run. *)
Fixpoint world_after (statements : list str) (total : nat) (k m : nat)
  (w : World) : World :=
  match m with
  | O => w
  | S m' =>
      world_after statements total (S k) m'
        (snd (execute_batch wrangler (batch statements k) (k + 1) total w))
  end.

Lemma fold_succeeding statements total m : forall k p,
  stopped p = false ->
  batches_succeed statements k m (world p) ->
  fold_left (run_batch wrangler statements total)
            (List.map (fun k => k * batch_size) (seq k m)) p
  = mkProgress (success_count p + m) false
               (world_after statements total k m (world p)).
Proof.
  induction m as [|m IH]; intros k p Hp Hs.
  - destruct p. simpl in *. subst. now rewrite Nat.add_0_r.
  - cbn [seq List.map fold_left].
    unfold run_batch at 2. rewrite Hp.
    rewrite Nat.div_mul by discriminate.
    fold (ExitCodeSpec.batch statements k).
    cbn [ExitCodeSpec.batches_succeed world_after] in *.
    unfold execute_batch in *.
    destruct (wrangler (batch statements k) (k + 1) (world p))
      as [[rc|] w']; [| now destruct Hs].
    destruct Hs as [-> Hs]. simpl.
    rewrite IH by (simpl; trivial). simpl.
    f_equal. lia.
Qed.

(** The loop stops at the first batch that fails: when the batches before
    number [k + 1] succeed and that one does not, [main] answers [False]
    and the world is left as that batch left it; the tool is not run
    again. *)
Theorem main_stops_at_first_failure :
  forall (statements : list str) (k : nat) (w : World),
    let total := (length statements + batch_size - 1) / batch_size in
    k < total ->
    batches_succeed statements 0 k w ->
    fst (execute_batch wrangler (batch statements k) (k + 1) total
                       (world_after statements total 0 k w)) = false ->
    run_statements wrangler statements w
    = (false,
       snd (execute_batch wrangler (batch statements k) (k + 1) total
                          (world_after statements total 0 k w))).
Proof.
  intros statements k w total Hk Hs Hfail.
  destruct (execute_batch wrangler (batch statements k) (k + 1) total
                          (world_after statements total 0 k w))
    as [ok w'] eqn:E.
  simpl in Hfail. subst ok. cbn [snd].
  assert (Hfold :
            fold_left (run_batch wrangler statements total)
                      (List.map (fun k => k * batch_size) (seq 0 total))
                      (mkProgress 0 false w)
            = mkProgress k true w').
  { replace total with (k + S (total - S k)) at 2 by lia.
    rewrite seq_app, map_app, fold_left_app.
    rewrite (@fold_succeeding statements total k 0 (mkProgress 0 false w)
               eq_refl Hs).
    cbn [seq List.map fold_left Nat.add success_count world].
    unfold run_batch at 2. cbn [stopped world success_count].
    rewrite Nat.div_mul by discriminate.
    fold (ExitCodeSpec.batch statements k). rewrite E.
    now rewrite ExitCodeSpec.fold_stopped by reflexivity. }
  unfold run_statements, range_step. fold total. rewrite Hfold.
  cbn [success_count world].
  destruct (Nat.eqb_spec k total); [lia | reflexivity].
Qed.

End Stop.

(** One statement and a tool that always fails, in a world that counts the
    runs of the tool: one run, and [main] answers [False]. *)
Lemma main_stops_at_first_failure_witness :
  run_statements (fun _ _ (runs : nat) => (Completed 1, S runs))
                 [lit "INSERT OR IGNORE INTO videos VALUES (1);"] 0
  = (false, 1).
Proof.
  exact (@main_stops_at_first_failure
           nat (fun _ _ runs => (Completed 1, S runs))
           [lit "INSERT OR IGNORE INTO videos VALUES (1);"] 0 0
           (Nat.lt_0_succ 0) I eq_refl).
Defined.

End BatchProps.

(** ** The counters of migrate_videos_rest_api.py *)

Module RestProps.

Import MigrateVideosRestApi.

Section Counters.

Variable float : Type.
Variable float_truthy : float -> bool.
Variable World : Type.
Variable post_query : value float -> World -> query_result * World.
Variable post_video : dict float -> World -> post_result * World.

Local Abbreviation insert_video := (insert_video post_query post_video).

(** Rows accounted for by the object. *)
Definition accounted (o : self float) : nat :=
  successful o + failed o + skipped o.

(** Each video of a batch is counted once, as inserted, failed or skipped,
    and a failed one leaves one error entry. *)
Lemma insert_video_counts r video :
  let r' := insert_video r video in
  batch_successful r' + batch_failed r' + skipped (obj r')
  = batch_successful r + batch_failed r + skipped (obj r) + 1 /\
  total (obj r') = total (obj r) /\
  successful (obj r') = successful (obj r) /\
  failed (obj r') = failed (obj r) /\
  length (errors (obj r')) + batch_failed r
  = length (errors (obj r)) + batch_failed r'.
Proof.
  unfold MigrateVideosRestApi.insert_video.
  destruct (check_video_exists post_query (get video (lit "video_id"))
                               (world r)) as [found w1].
  destruct found; simpl; [repeat split; lia |].
  destruct (post_video video w1) as [[code text|msg] w2].
  - destruct ((code =? 200) || (code =? 201)); simpl;
      rewrite ?length_app; simpl; repeat split; lia.
  - simpl. rewrite length_app. simpl. repeat split; lia.
Qed.

Lemma insert_fold_counts videos : forall r,
  let r' := fold_left insert_video videos r in
  batch_successful r' + batch_failed r' + skipped (obj r')
  = batch_successful r + batch_failed r + skipped (obj r) + length videos /\
  total (obj r') = total (obj r) /\
  successful (obj r') = successful (obj r) /\
  failed (obj r') = failed (obj r) /\
  length (errors (obj r')) + batch_failed r
  = length (errors (obj r)) + batch_failed r'.
Proof.
  induction videos as [|video videos IH]; intro r.
  - simpl. repeat split; lia.
  - cbn [fold_left length].
    destruct (insert_video_counts r video) as (A1 & A2 & A3 & A4 & A5).
    destruct (IH (insert_video r video)) as (B1 & B2 & B3 & B4 & B5).
    cbv zeta in *. repeat split; lia.
Qed.

Lemma validate_batch_counts batch : forall valid o,
  exists vs o',
    validate_batch float_truthy batch valid o = Some (valid ++ vs, o') /\
    failed o' + length vs = failed o + length batch /\
    total o' = total o /\ successful o' = successful o /\
    skipped o' = skipped o /\
    length (errors o') + failed o = length (errors o) + failed o'.
Proof.
  induction batch as [|row batch IH]; intros valid o.
  - exists [], o. simpl. rewrite app_nil_r. repeat split; lia.
  - cbn [validate_batch length].
    pose proof (@ExitCodeSpec.valid_row_transforms float float_truthy row)
      as Ht.
    destruct (validate_row float_truthy row) as [ok msg]. simpl fst in Ht.
    destruct ok.
    + destruct (Ht eq_refl) as [video Hv]. rewrite Hv.
      destruct (IH (valid ++ [video]) o) as (vs & o' & H & C).
      exists (video :: vs), o'. rewrite H, <- app_assoc.
      split; [reflexivity |]. simpl length. repeat split; lia.
    + match goal with
      | |- context [validate_batch _ batch valid ?o1] =>
          destruct (IH valid o1) as (vs & o' & H & C)
      end.
      exists vs, o'. rewrite H. split; [reflexivity |].
      cbn [failed total successful skipped errors] in C.
      rewrite length_app in C. simpl length in C.
      repeat split; lia.
Qed.

Lemma migrate_batch_counts batch_size videos o w i :
  exists o' w',
    migrate_batch float_truthy post_query post_video batch_size videos
                  (Some (o, w)) i
    = Some (o', w') /\
    accounted o' = accounted o + length (slice videos i (i + batch_size)) /\
    total o' = total o /\
    length (errors o') + failed o = length (errors o) + failed o'.
Proof.
  unfold migrate_batch, accounted.
  destruct (validate_batch_counts (slice videos i (i + batch_size)) [] o)
    as (vs & o1 & H & C1 & C2 & C3 & C4 & C5).
  rewrite H. simpl app.
  destruct vs as [|v vs].
  - exists o1, w. split; [reflexivity |]. simpl length in C1.
    repeat split; lia.
  - cbn [truthy]. unfold insert_video_batch.
    destruct (insert_fold_counts (v :: vs) (mkBatchRun 0 0 o1 w))
      as (A1 & A2 & A3 & A4 & A5).
    cbv zeta in *.
    cbn [batch_successful batch_failed obj] in A1, A2, A3, A4, A5.
    do 2 eexists. split; [reflexivity |].
    cbn [successful failed skipped total errors].
    repeat split; lia.
Qed.

Lemma migrate_fold_counts batch_size videos m : forall o w,
  exists o' w',
    fold_left (migrate_batch float_truthy post_query post_video
                             batch_size videos)
              (List.map (fun k => k * batch_size) (seq 0 m))
              (Some (o, w))
    = Some (o', w') /\
    accounted o' = accounted o + length (firstn (m * batch_size) videos) /\
    total o' = total o /\
    length (errors o') + failed o = length (errors o) + failed o'.
Proof.
  induction m as [|m IH]; intros o w.
  - exists o, w. simpl. repeat split; lia.
  - rewrite seq_S, map_app, fold_left_app. cbn [List.map Nat.add].
    destruct (IH o w) as (o1 & w1 & H1 & A1 & T1 & E1). rewrite H1.
    cbn [fold_left].
    destruct (migrate_batch_counts batch_size videos o1 w1 (m * batch_size))
      as (o2 & w2 & H2 & A2 & T2 & E2).
    exists o2, w2. rewrite H2. split; [reflexivity |].
    replace (S m * batch_size) with (m * batch_size + batch_size)
      by (simpl; lia).
    rewrite ExitCodeSpec.firstn_add, length_app.
    unfold slice in A2.
    replace (m * batch_size + batch_size - m * batch_size)
      with batch_size in A2 by lia.
    repeat split; lia.
Qed.

(** With a positive batch size [migrate] ends normally, and then every
    fetched row is counted exactly once, as successful, failed or skipped:
    the three counters add up to [total], the number of rows, and there is
    one error entry per failure. *)
Theorem rest_counters_add_up :
  forall (batch_size : Z) (videos : list (dict float)) (w : World),
    (0 < batch_size)%Z ->
    exists o w',
      migrate float_truthy post_query post_video batch_size videos w
      = Some (o, w') /\
      total o = length videos /\
      successful o + failed o + skipped o = total o /\
      length (errors o) = failed o.
Proof.
  intros batch_size videos w Hb. unfold migrate, range.
  destruct videos as [|v videos].
  - do 2 eexists. split; [reflexivity |]. repeat split.
  - cbn [truthy negb].
    destruct (Z.eqb_spec batch_size 0) as [E|_]; [lia |].
    destruct (Z.ltb_spec batch_size 0) as [E|_]; [lia |].
    assert (Hn : 0 < Z.to_nat batch_size) by lia.
    revert Hn. generalize (Z.to_nat batch_size). intros n Hn.
    unfold range_step. set (vs := v :: videos).
    destruct (migrate_fold_counts n vs
                ((length vs + n - 1) / n)
                (mkSelf (length vs) 0 0 0 []) w)
      as (o & w' & H & A & T & E).
    exists o, w'. split; [exact H |].
    rewrite firstn_all2 in A.
    + unfold accounted in A. cbn [successful failed skipped total errors
                                    length] in A, T, E.
      repeat split; lia.
    + pose proof (Nat.div_mod_eq (length vs + n - 1) n).
      pose proof (Nat.mod_upper_bound (length vs + n - 1) n).
      nia.
Qed.

End Counters.

Lemma rest_counters_add_up_witness :
  exists o w',
    migrate (fun _ : unit => true)
            (fun _ (w : unit) => (Count 1, w))
            (fun _ (w : unit) => (Response 500 [], w))
            25
            [[(lit "video_id", VStr (lit "abc"))];
             [(lit "view_count", VInt 7)]] tt
    = Some (o, w') /\
    total o = 2 /\
    successful o + failed o + skipped o = total o /\
    length (errors o) = failed o.
Proof.
  exact (@rest_counters_add_up
           unit (fun _ => true) unit
           (fun _ w => (Count 1, w))
           (fun _ w => (Response 500 [], w))
           25%Z
           [[(lit "video_id", VStr (lit "abc"))];
            [(lit "view_count", VInt 7)]] tt
           (eq_refl : (0 < 25)%Z)).
Defined.

End RestProps.

(** ** Splitting a text made of two parts *)

Module SplitterCompose.

Import Splitter SplitterFacts.

(** An empty buffer is only found outside a literal. *)
Lemma empty_buffer_neutral g text : forall st,
  (current_statement st = [] -> in_string st = false /\ escape_next st = false) ->
  current_statement (scan_from g st text) = [] ->
  in_string (scan_from g st text) = false /\
  escape_next (scan_from g st text) = false.
Proof.
  induction text as [|c text IH]; intros st Hst; [exact Hst |].
  rewrite scan_from_cons. apply IH.
  destruct (scan_char_cases g st c) as [[_ H]|(_ & _ & _ & H)].
  - rewrite H. intro E. destruct (current_statement st); discriminate.
  - rewrite H. intros _. split; reflexivity.
Qed.

(** When the first part leaves nothing in the buffer (it is empty or ends
    with a separating semicolon), the statements of the whole text are
    those of the first part followed by those of the second. *)
Theorem split_app :
  forall guarded a b,
    current_statement (scan guarded a) = [] ->
    split guarded (a ++ b) = split guarded a ++ split guarded b.
Proof.
  intros g a b Hcur.
  destruct (@empty_buffer_neutral g a init (fun _ => conj eq_refl eq_refl)
                                  Hcur) as [Hi He].
  unfold split, scan in *. rewrite scan_from_app.
  rewrite !(scan_from_guard_irrelevant g) in *.
  destruct (scan_from false init a) as [ss cur i e]. simpl in *. subst.
  change (mkScanner ss [] false false) with (fresh ss []).
  rewrite Resplit.scan_from_fresh_frame. reflexivity.
Qed.

Lemma split_app_witness :
  split false (lit "INSERT INTO videos (a) VALUES (1);"
               ++ lit "INSERT INTO videos (a) VALUES (2);")
  = split false (lit "INSERT INTO videos (a) VALUES (1);")
    ++ split false (lit "INSERT INTO videos (a) VALUES (2);").
Proof.
  exact (split_app false
                   (lit "INSERT INTO videos (a) VALUES (1);")
                   (lit "INSERT INTO videos (a) VALUES (2);") eq_refl).
Defined.

End SplitterCompose.

(** ** fix_sql_quotes.py *)

Module FixQuotesProps.

Import FixSqlQuotes.

Lemma join_cons_cons sep (p q : str) (rest : list str) :
  join sep (p :: q :: rest) = p ++ sep ++ join sep (q :: rest).
Proof. reflexivity. Qed.

Lemma split_from_nonempty sep skip cur s : split_from sep skip cur s <> [].
Proof.
  revert skip cur. induction s as [|c s IH]; intros skip cur;
    cbn [split_from].
  - discriminate.
  - destruct skip; [| apply IH].
    destruct (startswith (c :: s) sep); [discriminate | apply IH].
Qed.

(** Cutting a text at its newlines and joining the pieces with newlines
    gives the text back. *)
Lemma join_split_newline (s : str) : forall cur,
  join [newline] (split_from [newline] 0 cur s) = cur ++ s.
Proof.
  induction s as [|c s IH]; intro cur.
  - simpl. now rewrite app_nil_r.
  - cbn [split_from].
    assert (E : startswith (c :: s) [newline] = (newline =? c)%N)
      by (simpl; destruct s; now rewrite andb_true_r).
    rewrite E. destruct (N.eqb_spec newline c) as [<-|Hc].
    + simpl length. simpl Nat.sub.
      pose proof (split_from_nonempty [newline] 0 [] s) as Hne.
      pose proof (IH []) as IH0.
      destruct (split_from [newline] 0 [] s) as [|q rest];
        [now destruct Hne |].
      rewrite join_cons_cons, IH0. reflexivity.
    + rewrite IH. now rewrite <- app_assoc.
Qed.

Lemma join_snoc sep (l : list str) (x : str) :
  l <> [] -> join sep (l ++ [x]) = join sep l ++ sep ++ x.
Proof.
  induction l as [|p l IH]; [now intros [] |]. intros _.
  destruct l as [|q l]; [reflexivity |].
  change ((p :: q :: l) ++ [x]) with (p :: q :: (l ++ [x])).
  rewrite !join_cons_cons.
  change (q :: l ++ [x]) with ((q :: l) ++ [x]).
  rewrite IH by discriminate. now rewrite <- !app_assoc.
Qed.

Lemma join_snoc_app sep (l : list str) (x y : str) :
  join sep (l ++ [x ++ y]) = join sep (l ++ [x]) ++ y.
Proof.
  destruct l as [|p l]; [reflexivity |].
  rewrite !join_snoc by discriminate. now rewrite <- !app_assoc.
Qed.

(** A line that leaves the text as it is: it starts a statement, or it
    does not close one. *)
Definition keeps (line : str) : Prop :=
  startswith (strip line) INSERT = true \/
  endswith (strip line) (lit ";") = false.

(** What the loop keeps true from the first statement on, while no
    continuation line closes a statement: the lines put aside and the
    current statement, joined by newlines, are the lines seen so far. *)
Lemma fold_kept lines : forall st seen,
  Forall keeps lines ->
  in_values st = true ->
  current_statement st <> [] ->
  join [newline] (fixed_lines st ++ [current_statement st])
  = join [newline] seen ->
  seen <> [] ->
  let st' := fold_left fix_step lines st in
  current_statement st' <> [] /\
  join [newline] (fixed_lines st' ++ [current_statement st'])
  = join [newline] (seen ++ lines).
Proof.
  induction lines as [|line lines IH]; intros st seen Hall Hin Hcur Hj Hseen.
  - simpl. rewrite app_nil_r. split; assumption.
  - inversion Hall as [|? ? Hline Hrest]; subst.
    cbn [fold_left]. cbv zeta.
    assert (Hstep :
              in_values (fix_step st line) = true /\
              current_statement (fix_step st line) <> [] /\
              join [newline] (fixed_lines (fix_step st line)
                              ++ [current_statement (fix_step st line)])
              = join [newline] (seen ++ [line])).
    { unfold fix_step.
      destruct (startswith (strip line) INSERT) eqn:Es.
      - cbn [in_values current_statement fixed_lines].
        assert (Hl : line <> []).
        { intro E. subst line. vm_compute in Es. discriminate Es. }
        repeat split; [exact Hl |].
        destruct (current_statement st) as [|c cur] eqn:Ec;
          [now destruct Hcur |].
        cbn [truthy]. rewrite <- Ec in *.
        rewrite (@join_snoc [newline] (fixed_lines st ++ [current_statement st]))
          by (intro E; destruct (fixed_lines st); discriminate).
        rewrite (@join_snoc [newline] seen) by exact Hseen.
        now rewrite Hj.
      - destruct Hline as [Hline|Hline]; [congruence |].
        rewrite Hin, Hline.
        cbn [in_values current_statement fixed_lines].
        repeat split.
        + intro E. destruct (current_statement st); [now destruct Hcur |].
          discriminate.
        + rewrite join_snoc_app, Hj.
          rewrite (@join_snoc [newline] seen) by exact Hseen.
          reflexivity. }
    destruct Hstep as (Hin' & Hcur' & Hj').
    destruct (IH (fix_step st line) (seen ++ [line]) Hrest Hin' Hcur' Hj')
      as [H1 H2].
    + intro E. destruct seen; discriminate.
    + split; [exact H1 |]. now rewrite H2, <- app_assoc.
Qed.

(** When the first line starts a statement and no later line closes one
    (each line starts a statement or does not end with a semicolon),
    [fix_sql_quotes] returns the text as it is.  So a file with one
    statement per line is not changed at all: quotes are only doubled in
    statements that go on over further lines. *)
Theorem one_line_statements_unchanged :
  forall content first rest,
    Py.split content [newline] = first :: rest ->
    startswith (strip first) INSERT = true ->
    Forall keeps rest ->
    fix_sql_quotes content = content.
Proof.
  intros content first rest Hsplit Hfirst Hrest.
  unfold fix_sql_quotes. cbv zeta. rewrite Hsplit. cbn [fold_left].
  assert (Hf : fix_step (mkFixer [] [] false) first = mkFixer [] first true)
    by (unfold fix_step; now rewrite Hfirst).
  assert (Hne : first <> []).
  { intro E. subst first. vm_compute in Hfirst. discriminate Hfirst. }
  rewrite Hf.
  destruct (@fold_kept rest (mkFixer [] first true) [first] Hrest eq_refl Hne
                       eq_refl) as [H1 H2]; [discriminate |].
  cbv zeta in H1, H2.
  destruct (current_statement
              (fold_left fix_step rest (mkFixer [] first true)))
    as [|c cur] eqn:Ec; [now destruct H1 |].
  cbn [truthy]. rewrite H2.
  change ([first] ++ rest) with (first :: rest). rewrite <- Hsplit.
  unfold Py.split. apply (join_split_newline content []).
Qed.

Lemma one_line_statements_unchanged_witness :
  fix_sql_quotes (lit "INSERT OR IGNORE INTO videos VALUES ('it's');
INSERT OR IGNORE INTO videos VALUES ('b');
")
  = lit "INSERT OR IGNORE INTO videos VALUES ('it's');
INSERT OR IGNORE INTO videos VALUES ('b');
".
Proof.
  refine (@one_line_statements_unchanged
            _ (lit "INSERT OR IGNORE INTO videos VALUES ('it's');")
            [lit "INSERT OR IGNORE INTO videos VALUES ('b');"; []]
            _ _ _).
  - vm_compute. reflexivity.
  - vm_compute. reflexivity.
  - repeat constructor; vm_compute; (left; reflexivity) || (right; reflexivity).
Defined.

(** Lines that come before the first statement, or after a statement has
    been closed, are dropped: a text without any INSERT line gives the
    empty text. *)
Lemma fold_no_insert lines : forall st,
  Forall (fun line => startswith (strip line) INSERT = false) lines ->
  in_values st = false ->
  fold_left fix_step lines st = st.
Proof.
  induction lines as [|line lines IH]; intros st Hall Hin; [reflexivity |].
  inversion Hall as [|? ? Hline Hrest]; subst.
  cbn [fold_left].
  assert (E : fix_step st line = st)
    by (unfold fix_step; now rewrite Hline, Hin).
  rewrite E. now apply IH.
Qed.

Theorem no_insert_line_gives_empty_text :
  forall content,
    Forall (fun line => startswith (strip line) INSERT = false)
           (Py.split content [newline]) ->
    fix_sql_quotes content = [].
Proof.
  intros content Hall. unfold fix_sql_quotes. cbv zeta.
  now rewrite fold_no_insert.
Qed.

Lemma no_insert_line_gives_empty_text_witness :
  fix_sql_quotes (lit "-- videos
CREATE TABLE videos (video_id TEXT);") = [].
Proof.
  apply no_insert_line_gives_empty_text.
  vm_compute. repeat (constructor; [reflexivity |]). constructor.
Defined.

(** Where the text is cut by [split(sep, 1)]. *)
Lemma split1_from_cut sep (s : str) : forall cur before after,
  split1_from sep cur s = [before; after] ->
  cur ++ s = before ++ sep ++ after.
Proof.
  induction s as [|c s IH]; intros cur before after H;
    cbn [split1_from] in H.
  - discriminate.
  - destruct (startswith (c :: s) sep) eqn:E.
    + injection H as <- <-. f_equal.
      clear IH. revert E. generalize (c :: s). clear.
      induction sep as [|x sep IH]; intros s E; [reflexivity |].
      destruct s as [|y s]; [discriminate |]. simpl in E.
      destruct (N.eqb_spec x y) as [->|]; [| discriminate].
      simpl in *. f_equal. now apply IH.
    + apply IH in H. now rewrite <- app_assoc in H.
Qed.

(** A closed statement that holds [VALUES (] keeps what is before the
    first [VALUES (] and gets every quote after it doubled; so the number
    of its quotes grows by the number of quotes after [VALUES (], also when
    those were already doubled. *)
Theorem fix_values_doubles_quotes :
  forall statement,
    contains (lit "VALUES (") statement = true ->
    exists before after,
      statement = before ++ lit "VALUES (" ++ after /\
      fix_values statement
      = before ++ lit "VALUES (" ++ replace_char quote [quote; quote] after /\
      count_char quote (fix_values statement)
      = count_char quote statement + count_char quote after.
Proof.
  intros statement Hc. unfold fix_values. rewrite Hc.
  assert (Hsplit : exists before after,
             split1 statement (lit "VALUES (") = [before; after]).
  { unfold split1. generalize (@nil char). revert Hc.
    induction statement as [|c s IH]; intros Hc cur.
    - vm_compute in Hc. discriminate.
    - cbn [split1_from].
      destruct (startswith (c :: s) (lit "VALUES (")) eqn:E; [eauto |].
      apply IH. cbn [contains] in Hc. now rewrite E in Hc. }
  destruct Hsplit as (before & after & Hs). rewrite Hs.
  pose proof (split1_from_cut _ _ _ Hs) as Hcut.
  change ([] ++ statement) with statement in Hcut.
  exists before, after. split; [exact Hcut |].
  assert (Hr : replace_char quote [quote; quote] (lit "VALUES (" ++ after)
               = lit "VALUES (" ++ replace_char quote [quote; quote] after).
  { unfold replace_char. rewrite flat_map_app. reflexivity. }
  cbv zeta. rewrite Hr. split; [reflexivity |].
  rewrite Hcut, !count_char_app, count_char_replace_quote.
  change (count_char quote (lit "VALUES (")) with 0. lia.
Qed.

Lemma fix_values_doubles_quotes_witness :
  exists before after,
    lit "INSERT OR IGNORE INTO videos
VALUES ('it's');" = before ++ lit "VALUES (" ++ after /\
    fix_values (lit "INSERT OR IGNORE INTO videos
VALUES ('it's');")
    = before ++ lit "VALUES (" ++ replace_char quote [quote; quote] after /\
    count_char quote (fix_values (lit "INSERT OR IGNORE INTO videos
VALUES ('it's');"))
    = count_char quote (lit "INSERT OR IGNORE INTO videos
VALUES ('it's');") + count_char quote after.
Proof.
  exact (fix_values_doubles_quotes
           (lit "INSERT OR IGNORE INTO videos
VALUES ('it's');") eq_refl).
Defined.

End FixQuotesProps.

(** ** A check of validate_migration_improved.py that never fails *)

Module QuoteCheckProps.

Import ValidateMigrationImproved ValidatorSpec ValidatorProps.

(** The text of a message is read off the message, whatever the
    statement number. *)
Lemma statement_msg_text n m (t t' : str) :
  statement_msg n t = statement_msg m t' -> t = t'.
Proof.
  unfold statement_msg. intro E. apply app_inv_head in E.
  change (lit ": " ++ t) with (58%N :: 32%N :: t) in E.
  change (lit ": " ++ t') with (58%N :: 32%N :: t') in E.
  apply FixThenValidate.digits_colon_inj in E;
    try apply FixThenValidate.str_of_nat_digits.
  now injection E.
Qed.

Lemma in_defect msg b m : In msg (defect b m) -> b = true /\ msg = m.
Proof.
  destruct b; simpl; [| intros []]. intros [<-|[]]. now split.
Qed.

(** A statement with an even number of unescaped quotes gets no
    "Unbalanced quotes" message. *)
Lemma even_quotes_defects n k j statement :
  Nat.odd (real_quotes statement) = false ->
  ~ In (msg_unbalanced_quotes k j) (statement_defects n statement).
Proof.
  intros Heven. unfold statement_defects.
  destruct (truthy (strip statement)); [| intros []].
  destruct (startswith (strip statement) (lit "INSERT INTO videos")).
  - unfold collected_defects. rewrite Heven.
    intro H.
    repeat (apply in_app_or in H; destruct H as [H|H]);
      apply in_defect in H; destruct H as [Hb H];
      first [discriminate Hb
            | apply statement_msg_text in H; discriminate H].
  - intros [H|[]]. apply statement_msg_text in H. discriminate H.
Qed.

(** Whatever the file holds, [validate_sql_file] never reports
    "Unbalanced quotes": every statement its splitter hands over has an
    even number of unescaped quotes. *)
Theorem unbalanced_quotes_never_reported :
  forall (content path : str),
    exists count errs,
      validate_sql_file (fun _ => Text content) path = Return (count, errs) /\
      forall n k, ~ In (msg_unbalanced_quotes n k) errs.
Proof.
  intros content path.
  unfold validate_sql_file, read_text, validate_statements.
  rewrite validate_fold_defects. cbn [statement_count errors app].
  do 2 eexists. split; [reflexivity |].
  intros n k Hin. apply in_flat_map in Hin.
  destruct Hin as ([j s] & Hitem & Hin). cbn [fst snd] in Hin.
  revert Hin. apply even_quotes_defects.
  pose proof (SplitterProps.split_even_quotes false content) as Hall.
  rewrite Forall_forall in Hall. apply Hall.
  rewrite <- (enumerate1_snd (Splitter.split false content)).
  apply in_map_iff. now exists (j, s).
Qed.

End QuoteCheckProps.

(* ------------------------------------------------------------------ *)
(** ** The generated file and the quote checks of the validators *)

Module GeneratedFileSpec.

Import MigrateVideosToD1.

(** A statement that, written on a line of its own, is what the line
    validators want of a line. *)
Definition insert_line (s : str) : Prop :=
  strip (s ++ [newline]) = s /\
  startswith s (lit "INSERT INTO videos") = true /\
  endswith s (lit ";") = true /\
  Nat.even (count_char quote s) = true.

(** The one message [validate_migration.py] still has for such lines. *)
Definition empty_fields_defects (items : list (nat * str)) : list str :=
  flat_map (fun item =>
              if contains (lit "'', ''") (snd item)
              then [ValidateFixedSql.line_msg
                      (fst item) (lit "Contains empty critical fields")]
              else []) items.

Lemma insert_line_truthy (s : str) : insert_line s -> truthy s = true.
Proof.
  intros (_ & Hp & _). destruct s; [discriminate Hp | reflexivity].
Qed.

Lemma validate_line_insert r n s :
  insert_line s ->
  ValidateFixedSql.validate_line r (n, s ++ [newline])
  = ValidateFixedSql.mkReport (ValidateFixedSql.line_count r + 1)
                              (ValidateFixedSql.errors r).
Proof.
  intro H. pose proof (insert_line_truthy H) as Ht.
  destruct H as (Hs & Hp & He & Hq).
  unfold ValidateFixedSql.validate_line. cbv zeta.
  rewrite Hs, Ht, Hp, He, (GenerateSpec.even_mod2 _ Hq). reflexivity.
Qed.

Lemma validate_line_strict_insert r n s :
  insert_line s ->
  ValidateMigration.validate_line r (n, s ++ [newline])
  = ValidateFixedSql.mkReport
      (ValidateFixedSql.line_count r + 1)
      (ValidateFixedSql.errors r ++ empty_fields_defects [(n, s)]).
Proof.
  intro H. pose proof (insert_line_truthy H) as Ht.
  destruct H as (Hs & Hp & He & Hq).
  unfold ValidateMigration.validate_line, empty_fields_defects. cbv zeta.
  rewrite Hs, Ht, Hp, He, (GenerateSpec.even_mod2 _ Hq).
  cbn [flat_map fst snd negb Nat.eqb].
  destruct (contains (lit "'', ''") s); cbn [negb app].
  - reflexivity.
  - cbn [ValidateFixedSql.errors ValidateFixedSql.line_count].
    now rewrite app_nil_r.
Qed.

Lemma fold_insert_lines (stmts : list str) :
  Forall insert_line stmts ->
  forall k r,
    fold_left ValidateFixedSql.validate_line
              (combine (seq k (length stmts))
                       (List.map (fun s => s ++ [newline]) stmts)) r
    = ValidateFixedSql.mkReport
        (ValidateFixedSql.line_count r + length stmts)
        (ValidateFixedSql.errors r).
Proof.
  induction 1 as [|s stmts Hs _ IH]; intros k r.
  - destruct r. simpl. now rewrite Nat.add_0_r.
  - cbn [length seq List.map combine fold_left].
    rewrite (validate_line_insert r k Hs), IH.
    cbn [ValidateFixedSql.line_count ValidateFixedSql.errors].
    f_equal. lia.
Qed.

Lemma fold_insert_lines_strict (stmts : list str) :
  Forall insert_line stmts ->
  forall k r,
    fold_left ValidateMigration.validate_line
              (combine (seq k (length stmts))
                       (List.map (fun s => s ++ [newline]) stmts)) r
    = ValidateFixedSql.mkReport
        (ValidateFixedSql.line_count r + length stmts)
        (ValidateFixedSql.errors r
         ++ empty_fields_defects (combine (seq k (length stmts)) stmts)).
Proof.
  induction 1 as [|s stmts Hs _ IH]; intros k r.
  - destruct r. simpl. now rewrite Nat.add_0_r, app_nil_r.
  - cbn [length seq List.map combine fold_left].
    rewrite (validate_line_strict_insert r k Hs), IH.
    cbn [ValidateFixedSql.line_count ValidateFixedSql.errors].
    unfold empty_fields_defects. cbn [flat_map].
    rewrite app_nil_r, <- app_assoc. f_equal. lia.
Qed.

(** Statements that hold no line break are, once written and read back,
    the lines of the file. *)
Lemma lines_stored (stmts : list str) :
  Forall (fun s => count_char newline s = 0) stmts ->
  Forall (fun s => count_char carriage_return s = 0) stmts ->
  lines (universal_newlines (MigrateProps.written stmts))
  = List.map (fun s => s ++ [newline]) stmts.
Proof.
  intros Hn Hc. rewrite GeneratedLines.written_read_back by exact Hc.
  exact (FixSemicolonsProps.lines_written Hn).
Qed.

Section Generated.

Variable float : Type.
Variable float_str : float -> str.
Variable float_truthy : float -> bool.
Variable bytes_str : list N -> str.

Hypothesis float_str_plain : forall f, count_char quote (float_str f) = 0.

Local Abbreviation generate :=
  (generate_insert_statement float_str bytes_str).
Local Abbreviation generated :=
  (MigrateProps.generated float_str float_truthy bytes_str).

Lemma generate_ends (row : dict float) :
  endswith (generate row) (lit ";") = true.
Proof.
  destruct (GenerateSpec.generate_insert_statement_snoc float_str bytes_str row)
    as [body Hb].
  unfold endswith. rewrite Hb, rev_app_distr. simpl.
  now destruct (rev body).
Qed.

Lemma generate_insert_line (row : dict float) :
  Forall (fun k => count_char quote k = 0) (keys row) ->
  insert_line (generate row).
Proof.
  intro Hk. unfold insert_line. split; [| split; [| split]].
  - rewrite strip_app_spaces by (constructor; [reflexivity | constructor]).
    apply GenerateSpec.generate_insert_statement_strip.
  - apply GenerateSpec.generate_insert_statement_prefix.
  - apply generate_ends.
  - now apply GenerateSpec.generate_insert_statement_count.
Qed.

Lemma generated_insert_lines (rows : list (dict float)) :
  Forall insert_line (generated rows).
Proof.
  induction rows as [|row rows IH]; [constructor |].
  unfold MigrateProps.generated in *. simpl flat_map.
  apply Forall_app. split; [| exact IH].
  destruct (ExitCodeSpec.row_ok float_truthy row); [| constructor].
  destruct (transform_row row) as [t|] eqn:Et; [| constructor].
  constructor; [| constructor].
  apply generate_insert_line.
  now apply (@GenerateSpec.transform_row_keys_plain float row).
Qed.

(** What the three validators return for the file [migrate] wrote. *)
Lemma stored_file_validated (rows : list (dict float)) (path : str) :
  let text := MigrateProps.written (generated rows) in
  (exists count errs,
      ValidateMigrationImproved.validate_sql_file (fun _ => stored text) path
      = Return (count, errs) /\
      forall n k,
        ~ In (ValidateMigrationImproved.msg_unbalanced_quotes n k) errs) /\
  (Forall (fun row =>
             Forall (GeneratedLines.one_line float_str bytes_str)
                    (values row)) rows ->
   ValidateFixedSql.validate_sql_file (fun _ => stored text) path
   = Return (length (generated rows), []) /\
   ValidateMigration.validate_sql_file (fun _ => stored text) path
   = Return (length (generated rows),
             empty_fields_defects (enumerate1 (generated rows)))).
Proof.
  intro text. split.
  - unfold stored.
    rewrite ValidatorProps.validate_sql_file_split.
    do 2 eexists. split; [reflexivity |].
    intros n k Hin. apply in_flat_map in Hin.
    destruct Hin as ([j s] & Hitem & Hin). cbn [fst snd] in Hin.
    revert Hin. apply QuoteCheckProps.even_quotes_defects.
    pose proof (SplitterProps.split_even_quotes
                  false (universal_newlines text)) as Hall.
    rewrite Forall_forall in Hall. apply Hall.
    rewrite <- (ValidatorProps.enumerate1_snd
                  (Splitter.split false (universal_newlines text))).
    apply in_map_iff. now exists (j, s).
  - intro Hrows.
    assert (Hn : Forall (fun s => count_char newline s = 0) (generated rows)).
    { apply GeneratedLines.generated_free; [left; reflexivity |].
      eapply Forall_impl; [| exact Hrows]. intros row Hrow.
      eapply Forall_impl; [| exact Hrow]. now intros v [H _]. }
    assert (Hc : Forall (fun s => count_char carriage_return s = 0)
                        (generated rows)).
    { apply GeneratedLines.generated_free; [right; reflexivity |].
      eapply Forall_impl; [| exact Hrows]. intros row Hrow.
      eapply Forall_impl; [| exact Hrow]. now intros v [_ H]. }
    pose proof (generated_insert_lines rows) as Hl.
    unfold ValidateFixedSql.validate_sql_file,
      ValidateMigration.validate_sql_file, stored, read_text, enumerate1.
    unfold text. rewrite (lines_stored Hn Hc), length_map.
    rewrite (fold_insert_lines Hl), (fold_insert_lines_strict Hl).
    split; reflexivity.
Qed.

End Generated.

(** A row whose title holds a line feed, the statement generated for it
    and the file [migrate] writes. *)
Definition newline_title_rows : list (dict unit) :=
  [[(lit "video_id", VStr (lit "abc"));
    (lit "cleaned_title", VStr (lit "a
b"));
    (lit "view_count", VInt 7)]].

Definition newline_title_statement : str :=
  lit "INSERT INTO videos (video_id, cleaned_title, cleaned_description, channel_name, channel_id, published_at, duration_seconds, view_count, like_count, comment_count, is_indexed, created_at) VALUES ('abc', 'a
b', '', '', '', NULL, NULL, 7, NULL, NULL, 0, NULL);".

(** The same row with a carriage return in the place of the line feed. *)
Definition carriage_return_title_rows : list (dict unit) :=
  [[(lit "video_id", VStr (lit "abc"));
    (lit "cleaned_title", VStr (lit "a" ++ [carriage_return] ++ lit "b"));
    (lit "view_count", VInt 7)]].

(** C10 (as stated, refuted) -- a row whose title holds a line feed.  The
    generated statement has an even number of quote characters (10) and
    [migrate] writes it with the line feed in it, so the file has two
    lines; the quote that opens the title and the quote that closes it are
    on different lines, and both line validators report
    "Line 1: Unbalanced quotes".  [validate_migration_improved.py] counts
    one statement and reports nothing.  With a carriage return in the
    title the file is read back as the same two lines. *)
Lemma newline_value_fails_line_quote_check :
  option_map (fun m => (successful m, output_file m))
             (migrate (fun _ : unit => lit "0.0") (fun _ => true) (fun _ => [])
                      100 None newline_title_rows)
  = Some (1, Some (newline_title_statement ++ [newline])) /\
  count_char quote newline_title_statement = 10 /\
  ValidateFixedSql.validate_sql_file
    (fun _ => stored (newline_title_statement ++ [newline]))
    (lit "db/mutations/insert_videos_migrated.sql")
  = Return (2, [lit "Line 1: Missing semicolon";
                lit "Line 1: Unbalanced quotes";
                lit "Line 2: Not an INSERT statement"]) /\
  ValidateMigration.validate_sql_file
    (fun _ => stored (newline_title_statement ++ [newline]))
    (lit "db/mutations/insert_videos_migrated.sql")
  = Return (2, [lit "Line 1: Missing semicolon";
                lit "Line 1: Unbalanced quotes";
                lit "Line 2: Not an INSERT statement"]) /\
  ValidateMigrationImproved.validate_sql_file
    (fun _ => stored (newline_title_statement ++ [newline]))
    (lit "db/mutations/insert_videos_migrated.sql")
  = Return (1, []) /\
  option_map (fun m => option_map universal_newlines (output_file m))
             (migrate (fun _ : unit => lit "0.0") (fun _ => true) (fun _ => [])
                      100 None carriage_return_title_rows)
  = Some (Some (newline_title_statement ++ [newline])).
Proof. vm_compute. repeat split. Qed.

(** C10 (amended) -- For every row whose column names hold no quote (as
    those of [transform_row] do), the generated statement ends with a
    semicolon and holds an even number of quote characters: NULL and
    numbers are written without quotes, any other value between one pair
    of quotes with every quote inside doubled.  So does every statement
    [migrate] generates.  For the file [migrate] writes from scratch,
    [validate_migration_improved.py] reports no "Unbalanced quotes",
    whatever the rows are; and when no value of the rows holds a line feed
    or a carriage return, every statement is one line of the file,
    [validate_fixed_sql.py] counts one line per migrated row and reports
    nothing, and [validate_migration.py] counts the same lines and reports
    nothing but "Contains empty critical fields" (no "Unbalanced
    quotes"). *)
Theorem generated_statements_pass_quote_checks :
  forall (float : Type) (float_str : float -> str)
         (float_truthy : float -> bool) (bytes_str : list N -> str),
    (forall f, count_char quote (float_str f) = 0) ->
    (forall row : dict float,
        Forall (fun k => count_char quote k = 0) (keys row) ->
        endswith (generate_insert_statement float_str bytes_str row) (lit ";")
        = true /\
        Nat.even (count_char quote
                    (generate_insert_statement float_str bytes_str row))
        = true) /\
    (forall (batch_size : nat) (rows : list (dict float)) (path : str),
        match migrate float_str float_truthy bytes_str batch_size None rows with
        | None => False
        | Some m =>
            Forall (fun s => endswith s (lit ";") = true /\
                             Nat.even (count_char quote s) = true)
                   (MigrateProps.generated float_str float_truthy bytes_str
                                           rows) /\
            match output_file m with
            | None => successful m = 0
            | Some text =>
                (exists count errs,
                    ValidateMigrationImproved.validate_sql_file
                      (fun _ => stored text) path
                    = Return (count, errs) /\
                    forall n k,
                      ~ In (ValidateMigrationImproved.msg_unbalanced_quotes n k)
                           errs) /\
                (Forall (fun row =>
                           Forall (GeneratedLines.one_line float_str bytes_str)
                                  (values row)) rows ->
                 ValidateFixedSql.validate_sql_file (fun _ => stored text) path
                 = Return (successful m, []) /\
                 ValidateMigration.validate_sql_file (fun _ => stored text) path
                 = Return (successful m,
                           empty_fields_defects
                             (enumerate1
                                (MigrateProps.generated
                                   float_str float_truthy bytes_str rows))))
            end
        end).
Proof.
  intros float float_str float_truthy bytes_str Hf. split.
  - intros row Hk. split.
    + apply generate_ends.
    + now apply GenerateSpec.generate_insert_statement_count.
  - intros batch_size rows path.
    destruct (MigrateProps.migrate_outcome float_str float_truthy bytes_str
                batch_size None rows) as (m & Hm & Hs & _ & _ & Ho).
    rewrite Hm, Ho. split.
    { eapply Forall_impl;
        [| exact (@generated_insert_lines float float_str float_truthy
                                          bytes_str Hf rows)].
      now intros s (_ & _ & He & Hq). }
    pose proof (@stored_file_validated float float_str float_truthy
                                       bytes_str Hf rows path) as Hv.
    cbv zeta in Hv. rewrite <- Hs in Hv.
    destruct (MigrateProps.generated float_str float_truthy bytes_str rows)
      as [|s0 gen0] eqn:Eg.
    + exact Hs.
    + cbn [MigrateProps.text_of app]. exact Hv.
Qed.

Lemma generated_statements_pass_quote_checks_witness :
  Nat.even
    (count_char quote
       (generate_insert_statement
          (fun _ : unit => lit "0.0") (fun _ => [])
          [(lit "video_id", @VStr unit (lit "it's"));
           (lit "view_count", @VInt unit 7);
           (lit "created_at", @VNone unit)])) = true /\
  ValidateFixedSql.validate_sql_file
    (fun _ => stored (lit "INSERT INTO videos (video_id, cleaned_title, cleaned_description, channel_name, channel_id, published_at, duration_seconds, view_count, like_count, comment_count, is_indexed, created_at) VALUES ('abc', 'it''s', '', '', '', NULL, NULL, 7, NULL, NULL, 0, NULL);
"))
    (lit "db/mutations/insert_videos_migrated.sql")
  = Return (1, []).
Proof.
  split.
  - refine (proj2 (proj1 (@generated_statements_pass_quote_checks
                            unit (fun _ => lit "0.0")
                            (fun _ => true) (fun _ => [])
                            (fun _ => eq_refl))
                     [(lit "video_id", @VStr unit (lit "it's"));
                      (lit "view_count", @VInt unit 7);
                      (lit "created_at", @VNone unit)] _)).
    repeat (constructor; [reflexivity |]). constructor.
  - refine (proj1 (proj2 (proj2 (proj2 (@generated_statements_pass_quote_checks
                                          unit (fun _ => lit "0.0")
                                          (fun _ => true) (fun _ => [])
                                          (fun _ => eq_refl))
                                   100
                                   [[(lit "video_id", VStr (lit "abc"));
                                     (lit "cleaned_title", VStr (lit "it's"));
                                     (lit "view_count", VInt 7)]]
                                   (lit "db/mutations/insert_videos_migrated.sql")))
                    _)).
    repeat (constructor; [repeat constructor |]).
    constructor.
Defined.

End GeneratedFileSpec.
